(** * minngk.github.io : the portfolio page's scripts, embedded in Rocq

    The page is driven by three leaf scripts:
    - [js/github-api.js]  (class [GitHubAPI]),
    - the projects script (class [ProjectsManager]),
    - the theme script    (class [ThemeManager]).

    Each class is embedded as a record for its fields and, for every
    method, a computation in a small state-and-exception monad [Eff].
    What a method reads from outside the program (the clock, the reply
    to a [fetch]) is a parameter of the computation; what it does to the
    outside (network requests, console output, DOM, local storage,
    dispatched events) is recorded in the state. *)

From Stdlib Require Import ZArith String Ascii List Bool Lia.
From Stdlib Require Import Sorting.Permutation Sorting.Sorted.
From stdpp Require Import base gmap strings list pretty.
Import ListNotations.

Local Open Scope string_scope.
Local Open Scope Z_scope.

Set Warnings "-register-all".

(** ** JavaScript completions and effects *)

(** Values thrown by the scripts or by the platform. *)
Inductive JsError : Type :=
| Error (message : string)        (* [new Error(message)] *)
| TypeError (message : string)    (* raised by the engine *)
| SyntaxError (message : string)  (* raised by JSON parsing *)
| NetworkError (message : string) (* a rejected [fetch] *)
| StorageError (message : string) (* a failing [localStorage] call *).

(** How the evaluation of a function body ends: with a value, or with a
    thrown value (for an [async] function: a fulfilled or a rejected
    promise).  [Unfinished] stands for a loop that is still running when
    the steps allotted to it are used up. *)
Inductive Completion (A : Type) : Type :=
| Normal (a : A)
| Throw (e : JsError)
| Unfinished.
Arguments Normal {A} a.
Arguments Throw {A} e.
Arguments Unfinished {A}.

(** A computation over a mutable state [S].  The state is returned in both
    cases: JavaScript does not roll assignments back when it throws. *)
Definition Eff (S A : Type) : Type := S -> Completion A * S.

Definition ret {S A} (a : A) : Eff S A := fun s => (Normal a, s).

Definition bind {S A B} (m : Eff S A) (k : A -> Eff S B) : Eff S B :=
  fun s =>
    match m s with
    | (Normal a, s') => k a s'
    | (Throw e, s') => (Throw e, s')
    | (Unfinished, s') => (Unfinished, s')
    end.

Definition throw {S A} (e : JsError) : Eff S A := fun s => (Throw e, s).

(** [try { body } catch (error) { handler }] *)
Definition try_catch {S A} (body : Eff S A) (handler : JsError -> Eff S A)
  : Eff S A :=
  fun s =>
    match body s with
    | (Normal a, s') => (Normal a, s')
    | (Throw e, s') => handler e s'
    | (Unfinished, s') => (Unfinished, s')
    end.

(** The result of a loop run with bounded steps. *)
Definition loop_result {S A} (o : option A) : Eff S A :=
  fun s =>
    match o with
    | Some a => (Normal a, s)
    | None => (Unfinished, s)
    end.

Definition get {S} : Eff S S := fun s => (Normal s, s).
Definition gets {S A} (f : S -> A) : Eff S A := fun s => (Normal (f s), s).
Definition modify {S} (f : S -> S) : Eff S unit := fun s => (Normal tt, f s).

Notation "'let!' x ':=' m 'in' k" := (bind m (fun x => k))
  (at level 10, x name, m at level 100, k at level 200,
   format "'[v' 'let!'  x  ':='  m  'in' '/' k ']'").
Notation "'do!' m 'in' k" := (bind m (fun _ => k))
  (at level 10, m at level 100, k at level 200,
   format "'[v' 'do!'  m  'in' '/' k ']'").

(** A line written to the console. *)
Inductive LogEntry : Type :=
| Warn (text : string) (error : option JsError)
| ErrorLog (text : string) (error : option JsError).

(** ** JavaScript strings

    Strings are sequences of 8-bit characters.  On ASCII text this is
    what the scripts see; [toLowerCase] is the ASCII one (a character
    outside [A-Z] is left alone). *)

Definition is_upper (c : ascii) : bool :=
  let n := nat_of_ascii c in (65 <=? n)%nat && (n <=? 90)%nat.

Definition lower_char (c : ascii) : ascii :=
  if is_upper c then ascii_of_nat (nat_of_ascii c + 32) else c.

Fixpoint toLowerCase (s : string) : string :=
  match s with
  | EmptyString => EmptyString
  | String c s' => String (lower_char c) (toLowerCase s')
  end.

(** [s.includes(t)]: [t] occurs in [s] as a substring. *)
Fixpoint includes (s t : string) : bool :=
  String.prefix t s
  || match s with
     | EmptyString => false
     | String _ s' => includes s' t
     end.

(** Truthiness of a string: every string but the empty one. *)
Definition truthy_string (s : string) : bool :=
  negb (String.eqb s EmptyString).

(** [s] between double quotes. *)
Definition quoted (s : string) : string :=
  let q := String (ascii_of_nat 34) EmptyString in q ++ s ++ q.

(** Truthiness of a value that is [undefined]/[null] or a string. *)
Definition truthy_ostring (o : option string) : bool :=
  match o with
  | Some s => truthy_string s
  | None => false
  end.

(** [o || d] for such a value. *)
Definition or_string (o : option string) (d : string) : string :=
  match o with
  | Some s => if truthy_string s then s else d
  | None => d
  end.

(** ** [js/github-api.js] : class [GitHubAPI] *)

Module GitHub.

(** *** Values of the JSON reply

    Numbers are integers here: the counters the script reads are counts. *)
Inductive JsValue : Type :=
| JUndefined
| JNull
| JBool (b : bool)
| JNum (n : Z)
| JStr (s : string)
| JArray (items : list JsValue)
| JObject (fields : list (string * JsValue)).

Definition truthy (v : JsValue) : bool :=
  match v with
  | JUndefined | JNull => false
  | JBool b => b
  | JNum n => negb (n =? 0)
  | JStr s => truthy_string s
  | JArray _ | JObject _ => true
  end.

(** [v || d] *)
Definition js_or (v d : JsValue) : JsValue := if truthy v then v else d.

(** The value of key [k] in the fields of a parsed object; a key that is
    repeated in the JSON text keeps its last value. *)
Fixpoint field (k : string) (fields : list (string * JsValue)) : JsValue :=
  match fields with
  | [] => JUndefined
  | (k', v) :: rest =>
      match field k rest with
      | JUndefined => if String.eqb k k' then v else JUndefined
      | found => found
      end
  end.

(** The snapshot the script builds, field for field. *)
Record ProfileSnapshot : Type := {
  public_repos : JsValue;
  followers : JsValue;
  following : JsValue;
  avatar_url : JsValue;
  bio : JsValue;
  location : JsValue;
  company : JsValue;
  blog : JsValue;
  created_at : JsValue
}.

(** [this.cache]; [null] is [None]. *)
Record Cache : Type := {
  data : option ProfileSnapshot;
  timestamp : option Z;
  ttl : Z
}.

Record GitHubAPI : Type := {
  username : string;
  apiUrl : string;
  cache : Cache
}.

(** The object and what it has done to the outside so far: the URLs it
    has requested, oldest first, and its console output. *)
Record World : Type := {
  this : GitHubAPI;
  requests : list string;
  console : list LogEntry
}.

(** [new GitHubAPI(username)] *)
Definition constructor (username : string) : GitHubAPI :=
  {| username := username;
     apiUrl := "https://api.github.com/users/" ++ username;
     cache := {| data := None; timestamp := None; ttl := 5 * 60 * 1000 |} |}.

(** *** The outside: clock and network *)

(** What [response.json()] gives. *)
Inductive JsonBody : Type :=
| Malformed (e : JsError)
| Parsed (v : JsValue).

(** How a [fetch] ends: rejected, or with a response. *)
Inductive FetchReply : Type :=
| Rejected (e : JsError)
| Response (status : Z) (body : JsonBody).

(** [response.ok]: the status is in the range 200-299. *)
Definition ok (status : Z) : bool := (200 <=? status) && (status <=? 299).

(** What one call of [fetchUserData] reads from the outside: the clock
    when it starts, the reply to the request should it send one, and the
    clock once the reply has been read. *)
Record Env : Type := {
  now : Z;
  reply : FetchReply;
  now_after : Z
}.

Definition set_cache (c : Cache) (w : World) : World :=
  {| this := {| username := username (this w); apiUrl := apiUrl (this w);
                cache := c |};
     requests := requests w;
     console := console w |}.

Definition console_warn (text : string) (e : JsError) : Eff World unit :=
  modify (fun w => {| this := this w; requests := requests w;
                      console := console w ++ [Warn text (Some e)] |}).

(** [await fetch(url, ...)]: the request goes out, then the reply comes. *)
Definition fetch (url : string) (r : FetchReply) : Eff World (Z * JsonBody) :=
  do! modify (fun w => {| this := this w; requests := requests w ++ [url];
                          console := console w |}) in
  match r with
  | Rejected e => throw e
  | Response status body => ret (status, body)
  end.

(** [await response.json()] *)
Definition json (body : JsonBody) : Eff World JsValue :=
  match body with
  | Malformed e => throw e
  | Parsed v => ret v
  end.

(** [data.k]: reading a property of [null] or [undefined] throws; a value
    that is not an object has none of the keys read here. *)
Definition prop (v : JsValue) (k : string) : Eff World JsValue :=
  match v with
  | JUndefined | JNull =>
      throw (TypeError ("Cannot read properties of null (reading '" ++ k ++ "')"))
  | JObject fields => ret (field k fields)
  | _ => ret JUndefined
  end.

(** *** The methods *)

(** [isCacheValid()], with [Date.now()] as [now].  The script tests
    [!this.cache.data || !this.cache.timestamp]: a snapshot object is
    truthy, and so is every timestamp but 0. *)
Definition isCacheValid (now : Z) (g : GitHubAPI) : bool :=
  match data (cache g), timestamp (cache g) with
  | Some _, Some t =>
      if t =? 0 then false
      else now - t <? ttl (cache g)
  | _, _ => false
  end.

(** The object of the [catch] branch. *)
Definition fallback : ProfileSnapshot :=
  {| public_repos := JStr "?"; followers := JStr "?"; following := JStr "?";
     avatar_url := JStr ""; bio := JStr ""; location := JStr "";
     company := JStr ""; blog := JStr ""; created_at := JStr "" |}.

Definition fetchUserData (env : Env) : Eff World (option ProfileSnapshot) :=
  let! valid := gets (fun w => isCacheValid (now env) (this w)) in
  if valid then gets (fun w => data (cache (this w)))
  else
    try_catch
      (let! url := gets (fun w => apiUrl (this w)) in
       let! response := fetch url (reply env) in
       if negb (ok (fst response)) then
         throw (Error ("GitHub API responded with status: "
                       ++ pretty (fst response)))
       else
         let! data' := json (snd response) in
         let! public_repos := prop data' "public_repos" in
         let! followers := prop data' "followers" in
         let! following := prop data' "following" in
         let! avatar_url := prop data' "avatar_url" in
         let! bio := prop data' "bio" in
         let! location := prop data' "location" in
         let! company := prop data' "company" in
         let! blog := prop data' "blog" in
         let! created_at := prop data' "created_at" in
         let snapshot :=
           {| public_repos := js_or public_repos (JNum 0);
              followers := js_or followers (JNum 0);
              following := js_or following (JNum 0);
              avatar_url := js_or avatar_url (JStr "");
              bio := js_or bio (JStr "");
              location := js_or location (JStr "");
              company := js_or company (JStr "");
              blog := js_or blog (JStr "");
              created_at := js_or created_at (JStr "") |} in
         do! modify (fun w => set_cache {| data := Some snapshot;
                                           timestamp := timestamp (cache (this w));
                                           ttl := ttl (cache (this w)) |} w) in
         do! modify (fun w => set_cache {| data := data (cache (this w));
                                           timestamp := Some (now_after env);
                                           ttl := ttl (cache (this w)) |} w) in
         gets (fun w => data (cache (this w))))
      (fun error =>
         do! console_warn "Failed to fetch GitHub data:" error in
         ret (Some fallback)).

(** *** Repositories and rate limit *)

(** An element of the array [getRepositories] returns. *)
Module Repo.
Record t : Type := {
  name : JsValue;
  description : JsValue;
  html_url : JsValue;
  homepage : JsValue;
  language : JsValue;
  stargazers_count : JsValue;
  forks_count : JsValue;
  updated_at : JsValue;
  created_at : JsValue;
  topics : JsValue
}.
End Repo.

(** The callback of [repos.map], on one element. *)
Definition summary (repo : JsValue) : Eff World Repo.t :=
  let! name := prop repo "name" in
  let! description := prop repo "description" in
  let! html_url := prop repo "html_url" in
  let! homepage := prop repo "homepage" in
  let! language := prop repo "language" in
  let! stargazers_count := prop repo "stargazers_count" in
  let! forks_count := prop repo "forks_count" in
  let! updated_at := prop repo "updated_at" in
  let! created_at := prop repo "created_at" in
  let! topics := prop repo "topics" in
  ret {| Repo.name := name;
         Repo.description := js_or description (JStr "");
         Repo.html_url := html_url;
         Repo.homepage := js_or homepage (JStr "");
         Repo.language := js_or language (JStr "");
         Repo.stargazers_count := js_or stargazers_count (JNum 0);
         Repo.forks_count := js_or forks_count (JNum 0);
         Repo.updated_at := updated_at;
         Repo.created_at := created_at;
         Repo.topics := js_or topics (JArray []) |}.

(** [items.map(summary)], from the first element on. *)
Fixpoint map_summary (items : list JsValue) : Eff World (list Repo.t) :=
  match items with
  | [] => ret []
  | repo :: rest =>
      let! first := summary repo in
      let! others := map_summary rest in
      ret (first :: others)
  end.

Definition repos_url (username : string) (page perPage : Z) : string :=
  "https://api.github.com/users/" ++ username ++ "/repos?page=" ++ pretty page
  ++ "&per_page=" ++ pretty perPage ++ "&sort=updated&direction=desc".

(** [getRepositories(page = 1, perPage = 30)], the page numbers being
    integers.  Only an array has a [map]. *)
Definition getRepositories (page perPage : option Z) (r : FetchReply)
  : Eff World (list Repo.t) :=
  let page := default 1 page in
  let perPage := default 30 perPage in
  try_catch
    (let! user := gets (fun w => username (this w)) in
     let! response := fetch (repos_url user page perPage) r in
     if negb (ok (fst response)) then
       throw (Error ("GitHub API responded with status: "
                     ++ pretty (fst response)))
     else
       let! repos := json (snd response) in
       match repos with
       | JArray items => map_summary items
       | JUndefined | JNull =>
           throw (TypeError "Cannot read properties of null (reading 'map')")
       | _ => throw (TypeError "repos.map is not a function")
       end)
    (fun error =>
       do! console_warn "Failed to fetch repositories:" error in
       ret []).

(** [checkRateLimit()]; [null] is [JNull]. *)
Definition checkRateLimit (r : FetchReply) : Eff World JsValue :=
  try_catch
    (let! response := fetch "https://api.github.com/rate_limit" r in
     let! data' := json (snd response) in
     prop data' "rate")
    (fun error =>
       do! console_warn "Failed to check rate limit:" error in
       ret JNull).

(** *** The statistics on the page *)

(** The three elements [updateStats] writes to. *)
Inductive Slot : Type :=
| repos_count
| followers_count
| following_count.

(** The client with the part of the page it works on: for each slot the
    value last assigned to its [textContent] ([None]: the page has no such
    element), the count-ups started (slot, target, start time) and the
    details of the [githubDataLoaded] events dispatched. *)
Record Page : Type := {
  world : World;
  textContent : Slot -> option JsValue;
  counting : list (Slot * Z * Z);
  dispatched : list (option ProfileSnapshot)
}.

(** A method of the client, run on the page. *)
Definition on_world {A} (m : Eff World A) : Eff Page A :=
  fun p =>
    let (r, w) := m (world p) in
    (r, {| world := w; textContent := textContent p;
           counting := counting p; dispatched := dispatched p |}).

Definition slot_eqb (a b : Slot) : bool :=
  match a, b with
  | repos_count, repos_count
  | followers_count, followers_count
  | following_count, following_count => true
  | _, _ => false
  end.

(** [element.textContent = v], for the element of [slot]. *)
Definition set_textContent (slot : Slot) (v : JsValue) : Eff Page unit :=
  modify (fun p =>
            {| world := world p;
               textContent :=
                 fun s => if slot_eqb s slot then Some v else textContent p s;
               counting := counting p; dispatched := dispatched p |}).

(** [animateNumber(element, targetValue)], with [Date.now()] as
    [startTime].  A value that is not a number is shown as it is.  For a
    number the count-up is started with [requestAnimationFrame]; its
    frames, floating-point arithmetic on the clock, are not modelled. *)
Definition animateNumber (slot : Slot) (targetValue : JsValue) (startTime : Z)
  : Eff Page unit :=
  match targetValue with
  | JNum target =>
      modify (fun p =>
                {| world := world p; textContent := textContent p;
                   counting := counting p ++ [(slot, target, startTime)];
                   dispatched := dispatched p |})
  | _ => set_textContent slot targetValue
  end.

(** [if (element) element.textContent = v] *)
Definition show_if_present (slot : Slot) (v : JsValue) : Eff Page unit :=
  let! element := gets (fun p => textContent p slot) in
  match element with
  | Some _ => set_textContent slot v
  | None => ret tt
  end.

(** [if (element) this.animateNumber(element, data.counter)]; reading a
    counter of [null] throws. *)
Definition animate_if_present (slot : Slot) (data' : option ProfileSnapshot)
    (counter : ProfileSnapshot -> JsValue) (startTime : Z) : Eff Page unit :=
  let! element := gets (fun p => textContent p slot) in
  match element with
  | Some _ =>
      match data' with
      | Some d => animateNumber slot (counter d) startTime
      | None =>
          throw (TypeError "Cannot read properties of null")
      end
  | None => ret tt
  end.

(** What one call of [updateStats] reads from the outside: what
    [fetchUserData] reads, and the clock at the start of each count-up. *)
Record StatsEnv : Type := {
  fetch_env : Env;
  repos_start : Z;
  followers_start : Z;
  following_start : Z
}.

Definition updateStats (env : StatsEnv) : Eff Page unit :=
  do! show_if_present repos_count (JStr "...") in
  do! show_if_present followers_count (JStr "...") in
  do! show_if_present following_count (JStr "...") in
  try_catch
    (let! data' := on_world (fetchUserData (fetch_env env)) in
     do! animate_if_present repos_count data' public_repos (repos_start env) in
     do! animate_if_present followers_count data' followers
           (followers_start env) in
     do! animate_if_present following_count data' following
           (following_start env) in
     modify (fun p =>
               {| world := world p; textContent := textContent p;
                  counting := counting p;
                  dispatched := dispatched p ++ [data'] |}))
    (fun error =>
       do! on_world
             (modify (fun w =>
                        {| this := this w; requests := requests w;
                           console :=
                             console w
                             ++ [ErrorLog "Error updating GitHub stats:"
                                          (Some error)] |})) in
       do! show_if_present repos_count (JStr "?") in
       do! show_if_present followers_count (JStr "?") in
       show_if_present following_count (JStr "?")).

End GitHub.

(** ** The projects script : class [ProjectsManager] *)

Module Projects.

(** *** Data *)

(** A project of the catalog.  [icon], [language] and [demo] may be
    missing ([undefined] or [null]): the script tests them before use. *)
Record Project : Type := {
  id : string;
  name : string;
  description : string;
  icon : option string;
  technologies : list string;
  github : string;
  demo : option string;
  featured : bool;
  createdAt : string;
  status : string;
  color : string;
  language : option string
}.

(** The argument of [addProject]: any of the keys may be missing. *)
Module ProjectData.
Record t : Type := {
  id : option string;
  name : option string;
  description : option string;
  icon : option string;
  technologies : option (list string);
  github : option string;
  demo : option string;
  featured : option bool;
  color : option string;
  language : option string
}.

(** The object [{}]. *)
Definition empty : t :=
  {| id := None; name := None; description := None; icon := None;
     technologies := None; github := None; demo := None; featured := None;
     color := None; language := None |}.

(** The object after [projectData.id = i]. *)
Definition set_id (i : string) (d : t) : t :=
  {| id := Some i; name := name d; description := description d;
     icon := icon d; technologies := technologies d; github := github d;
     demo := demo d; featured := featured d; color := color d;
     language := language d |}.
End ProjectData.

(** [this.settings]; the object [{}] has no [showFeaturedFirst]. *)
Record Settings : Type := {
  showFeaturedFirst : option bool
}.

Definition no_settings : Settings := {| showFeaturedFirst := None |}.

Record ProjectsManager : Type := {
  projects : list Project;
  filteredProjects : list Project;
  settings : Settings;
  isLoaded : bool
}.

(** [new ProjectsManager()] *)
Definition constructor : ProjectsManager :=
  {| projects := []; filteredProjects := []; settings := no_settings;
     isLoaded := false |}.

(** *** The page *)

(** What the element [#projects-grid] holds: what the page came with,
    one of the two fixed notices of [displayProjects], or the markup that
    [displayProjects] has assigned to [innerHTML].  With [Cards] every
    element of the class [project-card] that the browser finds in that
    markup has been given, in document order, the delay [index * 0.1] s
    and the class [fade-in]; how many such elements there are is for the
    browser to say, the markup being written as it is, not escaped. *)
Inductive Grid : Type :=
| Untouched
| LoadingNotice
| EmptyNotice
| Cards (innerHTML : string).

Inductive Event : Type :=
| projectsDisplayed (detail_projects : list Project).

(** The item ['portfolioProjects'] of [localStorage]. *)
Inductive Stored : Type :=
| StoredData (projects : list Project) (settings : Settings) (timestamp : Z)
| StoredText (raw : string) (* anything [JSON.parse] refuses *).

(** The object and the part of the page it works on.  [grid] is [None]
    when the page has no element [#projects-grid]; [storage_refuses] says
    that [localStorage.setItem] throws (quota, private mode). *)
Record World : Type := {
  this : ProjectsManager;
  grid : option Grid;
  events : list Event;
  console : list LogEntry;
  storage : option Stored;
  storage_refuses : bool
}.

Definition set_this (f : ProjectsManager -> ProjectsManager) : Eff World unit :=
  modify (fun w => {| this := f (this w); grid := grid w; events := events w;
                      console := console w; storage := storage w;
                      storage_refuses := storage_refuses w |}).

Definition set_projects (l : list Project) : Eff World unit :=
  set_this (fun t => {| projects := l; filteredProjects := filteredProjects t;
                        settings := settings t; isLoaded := isLoaded t |}).

Definition set_filteredProjects (l : list Project) : Eff World unit :=
  set_this (fun t => {| projects := projects t; filteredProjects := l;
                        settings := settings t; isLoaded := isLoaded t |}).

Definition set_settings (s : Settings) : Eff World unit :=
  set_this (fun t => {| projects := projects t;
                        filteredProjects := filteredProjects t;
                        settings := s; isLoaded := isLoaded t |}).

Definition set_isLoaded (b : bool) : Eff World unit :=
  set_this (fun t => {| projects := projects t;
                        filteredProjects := filteredProjects t;
                        settings := settings t; isLoaded := b |}).

Definition set_grid (g : Grid) : Eff World unit :=
  modify (fun w => {| this := this w; grid := Some g; events := events w;
                      console := console w; storage := storage w;
                      storage_refuses := storage_refuses w |}).

Definition dispatchEvent (e : Event) : Eff World unit :=
  modify (fun w => {| this := this w; grid := grid w;
                      events := events w ++ [e];
                      console := console w; storage := storage w;
                      storage_refuses := storage_refuses w |}).

Definition console_log (l : LogEntry) : Eff World unit :=
  modify (fun w => {| this := this w; grid := grid w; events := events w;
                      console := console w ++ [l]; storage := storage w;
                      storage_refuses := storage_refuses w |}).

(** [localStorage.setItem('portfolioProjects', JSON.stringify(data))] *)
Definition setItem (data : Stored) : Eff World unit :=
  fun w =>
    if storage_refuses w then
      (Throw (StorageError "QuotaExceededError"), w)
    else
      (Normal tt,
       {| this := this w; grid := grid w; events := events w;
          console := console w; storage := Some data;
          storage_refuses := storage_refuses w |}).

(** *** The outside: the bundled data file *)

(** What [response.json()] gives for [./data/projects.json]: a rejection,
    [null], or an object whose [projects], if there, is an array of
    projects and whose [settings], if there, is an object. *)
Inductive JsonBody : Type :=
| Malformed (e : JsError)
| ParsedNull
| Parsed (projects : option (list Project)) (settings : option Settings).

Inductive FetchReply : Type :=
| Rejected (e : JsError)
| Response (status : Z) (body : JsonBody).

Definition ok (status : Z) : bool := (200 <=? status) && (status <=? 299).

Definition fetch (r : FetchReply) : Eff World (Z * JsonBody) :=
  match r with
  | Rejected e => throw e
  | Response status body => ret (status, body)
  end.

(** [await response.json()], and the reading of [data.projects] and
    [data.settings], which throws on [null]. *)
Definition json (body : JsonBody)
  : Eff World (option (list Project) * option Settings) :=
  match body with
  | Malformed e => throw e
  | ParsedNull =>
      throw (TypeError "Cannot read properties of null (reading 'projects')")
  | Parsed p s => ret (p, s)
  end.

(** *** Loading *)

Definition fallbackProject : Project :=
  {| id := "gominage";
     name := "gominage";
     description := "HTML5 Canvasを使用したブラウザゲーム。JavaScript ES6+とカスタム物理シミュレーションで開発されたクライアントサイドゲームです。";
     icon := Some "fab fa-js-square";
     technologies := ["JavaScript"; "HTML5"; "CSS3"; "Canvas"];
     github := "https://github.com/minngk/gominage";
     demo := None;
     featured := true;
     createdAt := "2025-01-01";
     status := "active";
     color := "#F7DF1E";
     language := Some "JavaScript" |}.

Definition loadFallbackData : Eff World unit :=
  do! set_projects [fallbackProject] in
  let! t := gets this in
  do! set_filteredProjects (projects t) in
  set_isLoaded true.

Definition loadProjects (r : FetchReply) : Eff World (list Project) :=
  try_catch
    (let! response := fetch r in
     if negb (ok (fst response)) then
       throw (Error ("Failed to load projects: " ++ pretty (fst response)))
     else
       let! data := json (snd response) in
       do! set_projects (default [] (fst data)) in
       do! set_settings (default no_settings (snd data)) in
       let! t := gets this in
       do! set_filteredProjects (projects t) in
       do! set_isLoaded true in
       gets (fun w => projects (this w)))
    (fun error =>
       do! console_log (ErrorLog "Error loading projects:" (Some error)) in
       do! loadFallbackData in
       gets (fun w => projects (this w))).

(** *** Dates

    The date time string format that every engine reads in the same way
    ([Date.parse] of the language standard), in the forms that do not
    depend on the time zone of the reader: the date [YYYY-MM-DD], as in
    the data file, and the date followed by a time in UTC, [THH:mmZ],
    [THH:mm:ssZ] or [THH:mm:ss.sssZ], the last being what [toISOString]
    writes.  [ISO_date] gives the time in milliseconds since 1970-01-01
    UTC, and [None] for a string that has none of these forms or names
    a day or a time that does not exist. *)

Definition digit (c : ascii) : option Z :=
  let n := Z.of_nat (nat_of_ascii c) in
  if (48 <=? n) && (n <=? 57) then Some (n - 48) else None.

(** Reads exactly [n] decimal digits. *)
Fixpoint digits (n : nat) (s : string) (acc : Z) : option (Z * string) :=
  match n with
  | O => Some (acc, s)
  | S n' =>
      match s with
      | String c s' =>
          match digit c with
          | Some d => digits n' s' (10 * acc + d)
          | None => None
          end
      | EmptyString => None
      end
  end.

Definition expect (c : ascii) (s : string) : option string :=
  match s with
  | String c' s' => if Ascii.eqb c c' then Some s' else None
  | EmptyString => None
  end.

Definition is_leap (y : Z) : bool :=
  (y mod 4 =? 0) && (negb (y mod 100 =? 0) || (y mod 400 =? 0)).

Definition days_in_month (y m : Z) : Z :=
  match m with
  | 1 | 3 | 5 | 7 | 8 | 10 | 12 => 31
  | 4 | 6 | 9 | 11 => 30
  | 2 => if is_leap y then 29 else 28
  | _ => 0
  end.

(** Days from 1970-01-01 to the given day of the Gregorian calendar. *)
Definition days_from_civil (y m d : Z) : Z :=
  let y' := if m <=? 2 then y - 1 else y in
  let era := y' / 400 in
  let yoe := y' - era * 400 in
  let mp := if m <=? 2 then m + 9 else m - 3 in
  let doy := (153 * mp + 2) / 5 + d - 1 in
  let doe := yoe * 365 + yoe / 4 - yoe / 100 + doy in
  era * 146097 + doe - 719468.

(** The seconds and milliseconds of a time, where they are written:
    [:ss] or [:ss.sss]. *)
Definition seconds_of_minute (s : string) : option (Z * Z * string) :=
  match expect ":" s with
  | None => Some (0, 0, s)
  | Some s =>
      '(sec, s) ← digits 2 s 0;
      match expect "." s with
      | None => Some (sec, 0, s)
      | Some s => '(ms, s) ← digits 3 s 0; Some (sec, ms, s)
      end
  end.

Definition time_of_day (s : string) : option Z :=
  '(h, s) ← digits 2 s 0;
  s ← expect ":" s;
  '(mi, s) ← digits 2 s 0;
  '(sec, ms, s) ← seconds_of_minute s;
  s ← expect "Z" s;
  if String.eqb s "" && (h <=? 23) && (mi <=? 59) && (sec <=? 59)
  then Some (((h * 60 + mi) * 60 + sec) * 1000 + ms)
  else None.

Definition ISO_date (s : string) : option Z :=
  '(y, s) ← digits 4 s 0;
  s ← expect "-" s;
  '(m, s) ← digits 2 s 0;
  s ← expect "-" s;
  '(d, s) ← digits 2 s 0;
  if (1 <=? d) && (d <=? days_in_month y m) then
    let day := days_from_civil y m d * 86400000 in
    match s with
    | EmptyString => Some day
    | String c s' =>
        if Ascii.eqb c "T" then t ← time_of_day s'; Some (day + t)
        else None
    end
  else None.

(** *** Sorting

    A comparator returns a number, [None] being [NaN].  [stable_sort] is
    the stable sort, written as an insertion sort in which [a] goes before
    [b] when the comparator gives a negative number for them.
    [consistent] is the condition of the language standard on a comparator
    and the values it is given: it never gives [NaN], and "negative",
    "zero" and "positive" order the values as "before", "same" and
    "after" would.  [straight_insertion] is the insertion sort in which
    each element is moved towards the front past the elements that the
    comparator puts after it. *)

Definition negative (v : option Z) : bool :=
  match v with
  | Some n => n <? 0
  | None => false
  end.

Definition positive (v : option Z) : bool :=
  match v with
  | Some n => 0 <? n
  | None => false
  end.

Definition zero (v : option Z) : bool :=
  match v with
  | Some n => n =? 0
  | None => false
  end.

Section Sort.
Context {A : Type} (compareFn : A -> A -> option Z).

Fixpoint insert_sorted (x : A) (l : list A) : list A :=
  match l with
  | [] => [x]
  | y :: l' =>
      if negative (compareFn x y) then x :: y :: l'
      else y :: insert_sorted x l'
  end.

Definition stable_sort (l : list A) : list A :=
  fold_left (fun sorted x => insert_sorted x sorted) l [].

Definition consistent_at (a b c : A) : bool :=
  (negative (compareFn a b) || zero (compareFn a b)
   || positive (compareFn a b))
  && zero (compareFn a a)
  && implb (zero (compareFn a b)) (zero (compareFn b a))
  && implb (zero (compareFn a b) && zero (compareFn b c))
           (zero (compareFn a c))
  && implb (negative (compareFn a b) && negative (compareFn b c))
           (negative (compareFn a c))
  && implb (positive (compareFn a b) && positive (compareFn b c))
           (positive (compareFn a c)).

Definition consistent (l : list A) : bool :=
  forallb (fun a => forallb (fun b => forallb (consistent_at a b) l) l) l.

(** [x] enters the elements before it, which are given from the nearest
    to the farthest. *)
Fixpoint insert_back (x : A) (before : list A) : list A :=
  match before with
  | [] => [x]
  | y :: before' =>
      if positive (compareFn y x) then y :: insert_back x before'
      else x :: y :: before'
  end.

Definition straight_insertion (l : list A) : list A :=
  rev (fold_left (fun before x => insert_back x before) l []).
End Sort.

(** *** The engine

    What the script takes from the JavaScript engine it runs on.
    [Date_parse s] is the time value of [new Date(s)], [None] for an
    invalid date: the standard fixes it for the date time string format
    ([Date_parse_ISO]) and leaves every other string to the engine.
    [sort_unspecified] is the order in which [Array.prototype.sort]
    leaves an array when the comparator is not consistent, which the
    standard leaves to the engine too; it is an order of the same
    elements ([sort_unspecified_permutes]).  [inherited_text key] is the
    text that a template literal makes of [Object.prototype[key]] for
    the keys that every object inherits ([constructor], [toString],
    ...), and [None] for every other key. *)
Class Engine : Type := {
  Date_parse : string -> option Z;
  sort_unspecified :
    (Project -> Project -> option Z) -> list Project -> list Project;
  inherited_text : string -> option string;
  Date_parse_ISO : forall s t, ISO_date s = Some t -> Date_parse s = Some t;
  sort_unspecified_permutes :
    forall compareFn l, Permutation l (sort_unspecified compareFn l)
}.

Section WithEngine.
Context {engine : Engine}.

(** *** Cards *)

(** [iconMap[language] || 'fas fa-code'], as a text.  For a language
    that is no key of the table but the name of a property that every
    object inherits, the lookup gives that property, not a string: the
    result stands here as the text that a template literal makes of
    it. *)
Definition getLanguageIcon (language : option string) : string :=
  match language with
  | Some "Go" => "fab fa-golang"
  | Some "JavaScript" => "fab fa-js-square"
  | Some "TypeScript" => "fab fa-js-square"
  | Some "Python" => "fab fa-python"
  | Some "React" => "fab fa-react"
  | Some "Vue" => "fab fa-vuejs"
  | Some "Node.js" => "fab fa-node-js"
  | Some "HTML" => "fab fa-html5"
  | Some "CSS" => "fab fa-css3-alt"
  | Some "PHP" => "fab fa-php"
  | Some "Java" => "fab fa-java"
  | Some "C++" => "fas fa-code"
  | Some "C#" => "fas fa-code"
  | Some "Ruby" => "fas fa-gem"
  | Some "Rust" => "fas fa-cog"
  | Some "Swift" => "fab fa-swift"
  | Some "Kotlin" => "fas fa-mobile-alt"
  | Some other => default "fas fa-code" (inherited_text other)
  | None => "fas fa-code"
  end.

(** [variantMap[language] || ''], as a text, in the same way. *)
Definition getCardVariant (language : option string) : string :=
  match language with
  | Some "Go" => "go-lang"
  | Some "JavaScript" => "javascript"
  | Some "TypeScript" => "javascript"
  | Some "Python" => "python"
  | Some "React" => "react"
  | Some "Vue" => "vue"
  | Some other => default "" (inherited_text other)
  | None => ""
  end.

(** A line of a template literal: the line break, the blanks that
    indent the line in the script, and its text. *)
Definition nl : string := String (ascii_of_nat 10) "".

Fixpoint blanks (n : nat) : string :=
  match n with
  | O => ""
  | S n' => String " " (blanks n')
  end.

Definition line (indent : nat) (text : string) : string :=
  nl ++ blanks indent ++ text.

(** [name="value"] *)
Definition attr (name value : string) : string := name ++ "=" ++ quoted value.

(** [createProjectCard(project)]: the markup of one card, the values of
    the project put in as they are. *)
Definition createProjectCard (project : Project) : string :=
  let cardVariant := getCardVariant (language project) in
  let technologies :=
    String.concat ""
      (map (fun tech => "<span " ++ attr "class" "tech-tag" ++ ">" ++ tech
                        ++ "</span>")
           (technologies project)) in
  let githubLink :=
    if truthy_string (github project) then
      "<a " ++ attr "href" (github project) ++ " " ++ attr "target" "_blank"
      ++ " " ++ attr "rel" "noopener noreferrer"
      ++ " " ++ attr "class" "project-link primary" ++ ">"
      ++ line 8 ("<i " ++ attr "class" "fab fa-github" ++ "></i>")
      ++ line 8 "GitHub"
      ++ line 6 "</a>"
    else "" in
  let demoLink :=
    if truthy_ostring (demo project) then
      "<a " ++ attr "href" (default "" (demo project))
      ++ " " ++ attr "target" "_blank"
      ++ " " ++ attr "rel" "noopener noreferrer"
      ++ " " ++ attr "class" "project-link secondary" ++ ">"
      ++ line 8 ("<i " ++ attr "class" "fas fa-external-link-alt" ++ "></i>")
      ++ line 8 "Demo"
      ++ line 6 "</a>"
    else "" in
  let featuredBadge :=
    if featured project
    then "<div " ++ attr "class" "featured-badge" ++ ">Featured</div>"
    else "" in
  line 6 ("<div " ++ attr "class" ("project-card " ++ cardVariant)
          ++ " " ++ attr "data-project-id" (id project) ++ ">")
  ++ line 8 featuredBadge
  ++ line 8 ("<div " ++ attr "class" "project-card-content" ++ ">")
  ++ line 10 ("<i "
              ++ attr "class"
                   (or_string (icon project)
                              (getLanguageIcon (language project))
                    ++ " project-icon")
              ++ " " ++ attr "aria-hidden" "true" ++ "></i>")
  ++ line 10 ("<h3 " ++ attr "class" "project-title" ++ ">" ++ name project
              ++ "</h3>")
  ++ line 10 ("<p " ++ attr "class" "project-description" ++ ">"
              ++ description project ++ "</p>")
  ++ line 10 ("<div " ++ attr "class" "project-technologies" ++ ">")
  ++ line 12 technologies
  ++ line 10 "</div>"
  ++ line 10 ("<div " ++ attr "class" "project-links" ++ ">")
  ++ line 12 githubLink
  ++ line 12 demoLink
  ++ line 10 "</div>"
  ++ line 8 "</div>"
  ++ line 6 "</div>"
  ++ line 4 "".

(** [array.sort(compareFn)]: the stable sort when the comparator is
    consistent for the elements, else what the engine makes of it. *)
Definition sort (compareFn : Project -> Project -> option Z)
    (l : list Project) : list Project :=
  if consistent compareFn l then stable_sort compareFn l
  else sort_unspecified compareFn l.

(** The comparator of [displayProjects]. *)
Definition compareFeaturedFirst (a b : Project) : option Z :=
  if featured a && negb (featured b) then Some (-1)
  else if negb (featured a) && featured b then Some 1
  else
    match Date_parse (createdAt b), Date_parse (createdAt a) with
    | Some tb, Some ta => Some (tb - ta)
    | _, _ => None
    end.

(** *** Display *)

(** [displayProjects(projects = this.filteredProjects)] *)
Definition displayProjects (arg : option (list Project)) : Eff World unit :=
  let! projects :=
    match arg with
    | Some l => ret l
    | None => gets (fun w => filteredProjects (this w))
    end in
  let! projectsGrid := gets grid in
  match projectsGrid with
  | None =>
      console_log (ErrorLog "Projects grid element not found" None)
  | Some _ =>
      do! set_grid LoadingNotice in
      let! flag := gets (fun w => showFeaturedFirst (settings (this w))) in
      let sortedProjects :=
        if default false flag then sort compareFeaturedFirst projects
        else projects in
      let projectsHTML :=
        String.concat "" (map createProjectCard sortedProjects) in
      do! (if (length sortedProjects =? 0)%nat then set_grid EmptyNotice
           else set_grid (Cards projectsHTML)) in
      dispatchEvent (projectsDisplayed sortedProjects)
  end.

(** *** Filters *)

Definition filterByTechnology (tech : option string) : Eff World unit :=
  do! (if negb (truthy_ostring tech) then
         let! t := gets this in set_filteredProjects (projects t)
       else
         let tech' := default "" tech in
         let! t := gets this in
         set_filteredProjects
           (List.filter
              (fun project =>
                 existsb (fun t => includes (toLowerCase t) (toLowerCase tech'))
                         (technologies project))
              (projects t))) in
  displayProjects None.

Definition filterByLanguage (language' : option string) : Eff World unit :=
  do! (if negb (truthy_ostring language') then
         let! t := gets this in set_filteredProjects (projects t)
       else
         let wanted := default "" language' in
         let! t := gets this in
         set_filteredProjects
           (List.filter
              (fun project =>
                 match language project with
                 | Some l =>
                     truthy_string l
                     && String.eqb (toLowerCase l) (toLowerCase wanted)
                 | None => false
                 end)
              (projects t))) in
  displayProjects None.

Definition searchProjects (query : option string) : Eff World unit :=
  do! (if negb (truthy_ostring query) then
         let! t := gets this in set_filteredProjects (projects t)
       else
         let searchTerm := toLowerCase (default "" query) in
         let! t := gets this in
         set_filteredProjects
           (List.filter
              (fun project =>
                 includes (toLowerCase (name project)) searchTerm
                 || includes (toLowerCase (description project)) searchTerm
                 || existsb (fun tech => includes (toLowerCase tech) searchTerm)
                            (technologies project))
              (projects t))) in
  displayProjects None.

Definition getProject (id' : string) (t : ProjectsManager) : option Project :=
  List.find (fun project => String.eqb (id project) id') (projects t).

(** *** Adding a project *)

Definition is_lower_or_digit (c : ascii) : bool :=
  let n := nat_of_ascii c in
  ((97 <=? n)%nat && (n <=? 122)%nat) || ((48 <=? n)%nat && (n <=? 57)%nat).

(** [.replace(/[^a-z0-9]/g, '-')] *)
Fixpoint dash_others (s : string) : string :=
  match s with
  | EmptyString => EmptyString
  | String c s' =>
      String (if is_lower_or_digit c then c else "-"%char) (dash_others s')
  end.

(** [.replace(/-+/g, '-')] *)
Fixpoint collapse_dashes (s : string) : string :=
  match s with
  | EmptyString => EmptyString
  | String c s' =>
      if Ascii.eqb c "-" then
        match s' with
        | String c' _ =>
            if Ascii.eqb c' "-" then collapse_dashes s'
            else String c (collapse_dashes s')
        | EmptyString => String c EmptyString
        end
      else String c (collapse_dashes s')
  end.

Definition drop_leading_dash (s : string) : string :=
  match s with
  | String c s' => if Ascii.eqb c "-" then s' else s
  | EmptyString => EmptyString
  end.

Fixpoint drop_trailing_dash (s : string) : string :=
  match s with
  | EmptyString => EmptyString
  | String c EmptyString => if Ascii.eqb c "-" then EmptyString else s
  | String c s' => String c (drop_trailing_dash s')
  end.

(** [.replace(/^-|-$/g, '')]: a dash at the start goes, and a dash at the
    end of what is left. *)
Definition strip_dashes (s : string) : string :=
  drop_trailing_dash (drop_leading_dash s).

Definition baseId_of (name : string) : string :=
  strip_dashes (collapse_dashes (dash_others (toLowerCase name))).

Definition taken (projects : list Project) (id' : string) : bool :=
  existsb (fun p => String.eqb (id p) id') projects.

(** The [while] loop of [generateId], one test of its condition per step;
    [None] when the steps are used up with the loop still running. *)
Fixpoint generateId_loop (steps : nat) (projects : list Project)
    (baseId id' : string) (counter : nat) : option string :=
  match steps with
  | O => None
  | S steps' =>
      if taken projects id' then
        generateId_loop steps' projects baseId
          (baseId ++ "-" ++ pretty counter) (S counter)
      else Some id'
  end.

(** [generateId(name)].  The loop gets one step more than there are
    projects ([generateId_steps_enough] below: it never needs more). *)
Definition generateId (name : string) : Eff World string :=
  let baseId := baseId_of name in
  let! t := gets this in
  loop_result
    (generateId_loop (S (length (projects t))) (projects t) baseId baseId 1).

(** What [addProject] reads from the clock: [new Date().toISOString()]
    and, in [saveToLocalStorage], [Date.now()]. *)
Record Clock : Type := {
  now_iso : string;
  now_ms : Z
}.

Definition saveToLocalStorage (clock : Clock) : Eff World unit :=
  try_catch
    (let! t := gets this in
     setItem (StoredData (projects t) (settings t) (now_ms clock)))
    (fun error =>
       console_log (Warn "Failed to save to localStorage:" (Some error))).

(** [addProject(projectData)].  The call writes the id it generates into
    the object it is given, which is the caller's: the result is the new
    project and, with it, that object as the call leaves it (a caller who
    passes the same object again passes this one). *)
Definition addProject (clock : Clock) (projectData : ProjectData.t)
  : Eff World (Project * ProjectData.t) :=
  if negb (truthy_ostring (ProjectData.name projectData))
     || negb (truthy_ostring (ProjectData.github projectData))
  then throw (Error "必須フィールド（name, github）が不足しています")
  else
    let name' := default "" (ProjectData.name projectData) in
    let! projectData :=
      if negb (truthy_ostring (ProjectData.id projectData))
      then
        let! id' := generateId name' in
        ret (ProjectData.set_id id' projectData)
      else ret projectData in
    let newProject :=
      {| id := default "" (ProjectData.id projectData);
         name := name';
         description := or_string (ProjectData.description projectData) "";
         icon := Some (or_string (ProjectData.icon projectData)
                         (getLanguageIcon (ProjectData.language projectData)));
         technologies := default [] (ProjectData.technologies projectData);
         github := default "" (ProjectData.github projectData);
         demo := if truthy_ostring (ProjectData.demo projectData)
                 then ProjectData.demo projectData else None;
         featured := default false (ProjectData.featured projectData);
         createdAt := now_iso clock;
         status := "active";
         color := or_string (ProjectData.color projectData) "#333";
         language := Some (or_string (ProjectData.language projectData) "Other")
      |} in
    let! t := gets this in
    do! set_projects (newProject :: projects t) in
    let! t := gets this in
    do! set_filteredProjects (projects t) in
    do! displayProjects None in
    do! saveToLocalStorage clock in
    ret (newProject, projectData).

(** *** Restoring from local storage *)

Definition loadFromLocalStorage : Eff World bool :=
  try_catch
    (let! saved := gets storage in
     match saved with
     | Some (StoredData saved_projects _ _) =>
         let savedIds := map id saved_projects in
         let! t := gets this in
         let newProjects :=
           List.filter (fun p => negb (existsb (String.eqb (id p)) savedIds))
                       (projects t) in
         do! set_projects (saved_projects ++ newProjects) in
         let! t := gets this in
         do! set_filteredProjects (projects t) in
         ret true
     | Some (StoredText raw) =>
         if truthy_string raw
         then throw (SyntaxError "Unexpected token in JSON")
         else ret false
     | None => ret false
     end)
    (fun error =>
       do! console_log (Warn "Failed to load from localStorage:" (Some error)) in
       ret false).

Definition init (r : FetchReply) : Eff World unit :=
  try_catch
    (do! loadProjects r in
     do! loadFromLocalStorage in
     displayProjects None)
    (fun error =>
       do! console_log (ErrorLog "Failed to initialize projects manager:"
                                 (Some error)) in
       do! loadFallbackData in
       displayProjects None).

End WithEngine.

(** Straight insertion rearranges, whatever the comparator. *)
Lemma insert_back_permutes {A} (compareFn : A -> A -> option Z) x before :
  Permutation (x :: before) (insert_back compareFn x before).
Proof.
  induction before as [| y before IH]; simpl; [reflexivity |].
  destruct (positive (compareFn y x)); [| reflexivity].
  rewrite perm_swap. now apply perm_skip.
Qed.

Lemma straight_insertion_permutes {A} (compareFn : A -> A -> option Z) l :
  Permutation l (straight_insertion compareFn l).
Proof.
  unfold straight_insertion. rewrite <- Permutation_rev.
  assert (Hfrom : forall before,
             Permutation (before ++ l)
               (fold_left (fun before x => insert_back compareFn x before)
                          l before)).
  { induction l as [| x l IH]; intros before; simpl.
    - now rewrite app_nil_r.
    - rewrite <- IH, <- insert_back_permutes.
      symmetry. apply Permutation_middle. }
  apply (Hfrom []).
Qed.

(** The properties of [Object.prototype], as text. *)
Definition prototype_text (key : string) : option string :=
  if String.eqb key "constructor"
  then Some "function Object() { [native code] }"
  else if String.eqb key "__proto__" then Some "[object Object]"
  else if existsb (String.eqb key)
            ["hasOwnProperty"; "isPrototypeOf"; "propertyIsEnumerable";
             "toLocaleString"; "toString"; "valueOf"; "__defineGetter__";
             "__defineSetter__"; "__lookupGetter__"; "__lookupSetter__"]
  then Some ("function " ++ key ++ "() { [native code] }")
  else None.

(** An engine for the concrete cases: it reads the dates of the forms
    above and no other, sorts by straight insertion when the
    comparator is not consistent, and has the properties of
    [Object.prototype] that browsers have. *)
Definition insertion_engine : Engine :=
  {| Date_parse := ISO_date;
     sort_unspecified := straight_insertion;
     inherited_text := prototype_text;
     Date_parse_ISO := fun s t read => read;
     sort_unspecified_permutes := straight_insertion_permutes |}.

End Projects.

(** ** The theme script : class [ThemeManager]

    The registry [this.themes] and the custom properties of the root
    element are finite maps from strings.  The methods embedded are the
    ones that register, remove, apply, export and import a theme, with
    what they call.  (A theme name that is the name of a property every
    object inherits, such as [constructor], is not modelled.) *)

Module Theme.

(** A theme: its display name and its colours, an object whose entries
    [Object.entries] lists in insertion order. *)
Record ThemeDef : Type := {
  name : string;
  colors : list (string * string)
}.

Record ThemeManager : Type := {
  themes : gmap string ThemeDef;
  currentTheme : string;
  systemPreference : string
}.

Inductive Event : Type :=
| themeChanged (detail_theme : string) (detail_colors : list (string * string)).

(** The object and the part of the page it works on: the custom
    properties set on [document.documentElement.style], the [className]
    of the body, the options of the theme selector ([data-theme] and
    whether the option is marked as current), the item ['portfolio-theme']
    of [localStorage] ([storage_refuses]: [setItem] throws). *)
Record World : Type := {
  this : ThemeManager;
  root_style : gmap string string;
  body_className : string;
  selector : list (string * bool);
  storage : option string;
  storage_refuses : bool;
  events : list Event;
  console : list LogEntry
}.

(** The object built and returned by [exportTheme] and taken by
    [importTheme]; a key may be missing. *)
Module ThemeData.
Record t : Type := {
  name : option string;
  colors : option (list (string * string));
  timestamp : option Z
}.
End ThemeData.

(** *** The built-in themes *)

Definition cafe : ThemeDef :=
  {| name := "Cafe";
     colors :=
       [ ("primary-bg", "linear-gradient(135deg, #f7f3e9 0%, #e8ddd4 100%)");
         ("text-primary", "#6b4423");
         ("text-secondary", "#8b6f47");
         ("accent-primary", "#d4a574");
         ("accent-secondary", "#b8956a");
         ("card-bg", "rgba(255, 255, 255, 0.8)");
         ("shadow-light", "rgba(107, 68, 35, 0.1)");
         ("shadow-medium", "rgba(107, 68, 35, 0.2)") ] |}.

Definition dark : ThemeDef :=
  {| name := "Dark";
     colors :=
       [ ("primary-bg", "linear-gradient(135deg, #2c1810 0%, #3d2817 100%)");
         ("text-primary", "#f4e6d3");
         ("text-secondary", "#d4c4a8");
         ("accent-primary", "#d4a574");
         ("accent-secondary", "#b8956a");
         ("card-bg", "rgba(0, 0, 0, 0.3)");
         ("shadow-light", "rgba(0, 0, 0, 0.3)");
         ("shadow-medium", "rgba(0, 0, 0, 0.5)") ] |}.

Definition ocean : ThemeDef :=
  {| name := "Ocean";
     colors :=
       [ ("primary-bg", "linear-gradient(135deg, #e6f7ff 0%, #bae0ff 100%)");
         ("text-primary", "#003a8c");
         ("text-secondary", "#1f54a3");
         ("accent-primary", "#1890ff");
         ("accent-secondary", "#096dd9");
         ("card-bg", "rgba(255, 255, 255, 0.8)");
         ("shadow-light", "rgba(0, 58, 140, 0.1)");
         ("shadow-medium", "rgba(0, 58, 140, 0.2)") ] |}.

Definition forest : ThemeDef :=
  {| name := "Forest";
     colors :=
       [ ("primary-bg", "linear-gradient(135deg, #f0f9f0 0%, #d9f7be 100%)");
         ("text-primary", "#135200");
         ("text-secondary", "#389e0d");
         ("accent-primary", "#52c41a");
         ("accent-secondary", "#73d13d");
         ("card-bg", "rgba(255, 255, 255, 0.8)");
         ("shadow-light", "rgba(19, 82, 0, 0.1)");
         ("shadow-medium", "rgba(19, 82, 0, 0.2)") ] |}.

(** The fields as the constructor sets them, before it calls [init]. *)
Definition constructor : ThemeManager :=
  {| themes := <["forest" := forest]> (<["ocean" := ocean]>
                 (<["dark" := dark]> (<["cafe" := cafe]> ∅)));
     currentTheme := "cafe";
     systemPreference := "light" |}.

(** *** State updates *)

Definition set_this (f : ThemeManager -> ThemeManager) : Eff World unit :=
  modify (fun w => {| this := f (this w); root_style := root_style w;
                      body_className := body_className w;
                      selector := selector w; storage := storage w;
                      storage_refuses := storage_refuses w;
                      events := events w; console := console w |}).

Definition set_themes (m : gmap string ThemeDef) : Eff World unit :=
  set_this (fun t => {| themes := m; currentTheme := currentTheme t;
                        systemPreference := systemPreference t |}).

Definition set_currentTheme (n : string) : Eff World unit :=
  set_this (fun t => {| themes := themes t; currentTheme := n;
                        systemPreference := systemPreference t |}).

Definition set_root_style (m : gmap string string) : Eff World unit :=
  modify (fun w => {| this := this w; root_style := m;
                      body_className := body_className w;
                      selector := selector w; storage := storage w;
                      storage_refuses := storage_refuses w;
                      events := events w; console := console w |}).

Definition set_body_className (c : string) : Eff World unit :=
  modify (fun w => {| this := this w; root_style := root_style w;
                      body_className := c;
                      selector := selector w; storage := storage w;
                      storage_refuses := storage_refuses w;
                      events := events w; console := console w |}).

Definition set_selector (l : list (string * bool)) : Eff World unit :=
  modify (fun w => {| this := this w; root_style := root_style w;
                      body_className := body_className w;
                      selector := l; storage := storage w;
                      storage_refuses := storage_refuses w;
                      events := events w; console := console w |}).

Definition dispatchEvent (e : Event) : Eff World unit :=
  modify (fun w => {| this := this w; root_style := root_style w;
                      body_className := body_className w;
                      selector := selector w; storage := storage w;
                      storage_refuses := storage_refuses w;
                      events := events w ++ [e]; console := console w |}).

Definition console_log (l : LogEntry) : Eff World unit :=
  modify (fun w => {| this := this w; root_style := root_style w;
                      body_className := body_className w;
                      selector := selector w; storage := storage w;
                      storage_refuses := storage_refuses w;
                      events := events w; console := console w ++ [l] |}).

(** [localStorage.setItem('portfolio-theme', themeName)] *)
Definition setItem (themeName : string) : Eff World unit :=
  fun w =>
    if storage_refuses w then
      (Throw (StorageError "QuotaExceededError"), w)
    else
      (Normal tt,
       {| this := this w; root_style := root_style w;
          body_className := body_className w;
          selector := selector w; storage := Some themeName;
          storage_refuses := storage_refuses w;
          events := events w; console := console w |}).

(** *** The class of the body *)

Definition is_word (c : ascii) : bool :=
  let n := nat_of_ascii c in
  ((97 <=? n)%nat && (n <=? 122)%nat) || ((65 <=? n)%nat && (n <=? 90)%nat)
  || ((48 <=? n)%nat && (n <=? 57)%nat) || (n =? 95)%nat.

(** The length of the longest run of [\w] at the start of [s]. *)
Fixpoint word_run (s : string) : nat :=
  match s with
  | String c s' => if is_word c then S (word_run s') else O
  | EmptyString => O
  end.

Fixpoint string_drop (n : nat) (s : string) : string :=
  match n, s with
  | S n', String _ s' => string_drop n' s'
  | _, _ => s
  end.

(** [.replace(/theme-\w+/g, '')]; [skip] counts the characters of the
    current match still to be dropped. *)
Fixpoint strip_theme_classes (skip : nat) (s : string) : string :=
  match s with
  | EmptyString => EmptyString
  | String c s' =>
      match skip with
      | S k => strip_theme_classes k s'
      | O =>
          let run := word_run (string_drop 6 s) in
          if String.prefix "theme-" s && (0 <? run)%nat
          then strip_theme_classes (5 + run) s'
          else String c (strip_theme_classes 0 s')
      end
  end.

Definition is_space (c : ascii) : bool :=
  let n := nat_of_ascii c in
  (n =? 9)%nat || (n =? 10)%nat || (n =? 12)%nat || (n =? 13)%nat
  || (n =? 32)%nat.

Fixpoint has_space (s : string) : bool :=
  match s with
  | String c s' => is_space c || has_space s'
  | EmptyString => false
  end.

(** The tokens of a class attribute: split on white space. *)
Fixpoint split_spaces (current : string) (s : string) : list string :=
  match s with
  | EmptyString => if truthy_string current then [current] else []
  | String c s' =>
      if is_space c then
        if truthy_string current then current :: split_spaces "" s'
        else split_spaces "" s'
      else split_spaces (current ++ String c "") s'
  end.

(** Each token once, at its first place. *)
Fixpoint ordered_set (seen : list string) (l : list string) : list string :=
  match l with
  | [] => []
  | x :: l' =>
      if existsb (String.eqb x) seen then ordered_set seen l'
      else x :: ordered_set (x :: seen) l'
  end.

(** [document.body.classList.add(token)] *)
Definition classList_add (token : string) : Eff World unit :=
  if negb (truthy_string token) then
    throw (SyntaxError "The token provided must not be empty.")
  else if has_space token then
    throw (Error "InvalidCharacterError")
  else
    let! c := gets body_className in
    let tokens := ordered_set [] (split_spaces "" c) in
    let tokens' :=
      if existsb (String.eqb token) tokens then tokens
      else (tokens ++ [token])%list in
    set_body_className (String.concat " " tokens').

(** *** The methods *)

Section WithBrowser.

(** The browser's reading of a declaration [property: value]: [None]
    when it refuses it (the style is then left as it was), else the value
    as it keeps it. *)
Variable css_value : string -> string -> option string.

(** [root.style.setProperty(property, value)]; an empty value removes
    the property. *)
Definition setProperty (property value : string)
    (style : gmap string string) : gmap string string :=
  if negb (truthy_string value) then delete property style
  else
    match css_value property value with
    | Some kept => <[property := kept]> style
    | None => style
    end.

(** The [forEach] over [Object.entries(theme.colors)]. *)
Definition apply_colors (entries : list (string * string))
    (style : gmap string string) : gmap string string :=
  fold_left (fun st entry => setProperty ("--" ++ fst entry) (snd entry) st)
            entries style.

Definition saveTheme (themeName : string) : Eff World unit :=
  try_catch
    (setItem themeName)
    (fun error => console_log (Warn "Failed to save theme:" (Some error))).

Definition updateThemeSelector : Eff World unit :=
  let! current := gets (fun w => currentTheme (this w)) in
  let! options := gets selector in
  set_selector
    (map (fun option => (fst option, String.eqb (fst option) current))
         options).

Definition applyTheme (themeName : string) : Eff World unit :=
  let! registry := gets (fun w => themes (this w)) in
  match registry !! themeName with
  | None =>
      console_log (Warn ("Theme " ++ quoted themeName ++ " not found") None)
  | Some theme =>
      let! style := gets root_style in
      do! set_root_style (apply_colors (colors theme) style) in
      do! set_currentTheme themeName in
      let! className := gets body_className in
      do! set_body_className (strip_theme_classes 0 className) in
      do! classList_add ("theme-" ++ themeName) in
      do! saveTheme themeName in
      do! dispatchEvent (themeChanged themeName (colors theme)) in
      updateThemeSelector
  end.

(** [name.charAt(0).toUpperCase() + name.slice(1)] *)
Definition capitalize (s : string) : string :=
  match s with
  | String c s' =>
      let n := nat_of_ascii c in
      String (if (97 <=? n)%nat && (n <=? 122)%nat
              then ascii_of_nat (n - 32) else c) s'
  | EmptyString => EmptyString
  end.

Definition addCustomTheme (name' : string) (colors' : list (string * string))
  : Eff World bool :=
  let! registry := gets (fun w => themes (this w)) in
  match registry !! name' with
  | Some _ =>
      do! console_log (Warn ("Theme " ++ quoted name' ++ " already exists") None) in
      ret false
  | None =>
      do! set_themes (<[name' := {| name := capitalize name';
                                    colors := colors' |}]> registry) in
      ret true
  end.

Definition builtin (name' : string) : bool :=
  existsb (String.eqb name') ["cafe"; "dark"; "ocean"; "forest"].

Definition removeCustomTheme (name' : string) : Eff World bool :=
  if builtin name' then
    do! console_log
          (Warn ("Cannot remove built-in theme " ++ quoted name') None) in
    ret false
  else
    let! registry := gets (fun w => themes (this w)) in
    match registry !! name' with
    | None =>
        do! console_log (Warn ("Theme " ++ quoted name' ++ " not found") None) in
        ret false
    | Some _ =>
        do! set_themes (delete name' registry) in
        let! current := gets (fun w => currentTheme (this w)) in
        do! (if String.eqb current name' then applyTheme "cafe" else ret tt) in
        ret true
    end.

(** [exportTheme()], with [Date.now()] as [now].  Reading [.colors] of a
    theme that is not in the registry throws. *)
Definition exportTheme (now : Z) : Eff World ThemeData.t :=
  let! t := gets this in
  match themes t !! currentTheme t with
  | Some theme =>
      ret {| ThemeData.name := Some (currentTheme t);
             ThemeData.colors := Some (colors theme);
             ThemeData.timestamp := Some now |}
  | None =>
      throw (TypeError
               "Cannot read properties of undefined (reading 'colors')")
  end.

Definition importTheme (themeData : ThemeData.t) : Eff World bool :=
  try_catch
    (match ThemeData.name themeData, ThemeData.colors themeData with
     | Some name', Some colors' =>
         if truthy_string name' then
           do! addCustomTheme name' colors' in
           do! applyTheme name' in
           ret true
         else throw (Error "Invalid theme data format")
     | _, _ => throw (Error "Invalid theme data format")
     end)
    (fun error =>
       do! console_log (ErrorLog "Failed to import theme:" (Some error)) in
       ret false).

End WithBrowser.

(** *** Start-up, system preference and rotation *)

Section Session.

Variable css_value : string -> string -> option string.

(** [localStorage.getItem('portfolio-theme')].  [denied] is the error the
    call throws when the browser refuses access to the storage. *)
Definition getItem (denied : option JsError) : Eff World (option string) :=
  match denied with
  | Some e => throw e
  | None => gets storage
  end.

Definition set_systemPreference (preference : string) : Eff World unit :=
  set_this (fun t => {| themes := themes t; currentTheme := currentTheme t;
                        systemPreference := preference |}).

(** [detectSystemPreference()].  [media] is what
    [window.matchMedia('(prefers-color-scheme: dark)').matches] gives,
    [None] in a browser without [matchMedia]. *)
Definition detectSystemPreference (media : option bool) : Eff World unit :=
  set_systemPreference (if default false media then "dark" else "light").

Definition handleSystemPreferenceChange (denied : option JsError)
  : Eff World unit :=
  let! savedTheme := getItem denied in
  if negb (truthy_ostring savedTheme) then
    let! preference := gets (fun w => systemPreference (this w)) in
    let autoTheme := if String.eqb preference "dark" then "dark" else "cafe" in
    applyTheme css_value autoTheme
  else ret tt.

(** The listener [detectSystemPreference] registers for changes of the
    media query. *)
Definition on_preference_change (denied : option JsError) (matches : bool)
  : Eff World unit :=
  do! set_systemPreference (if matches then "dark" else "light") in
  handleSystemPreferenceChange denied.

Definition loadSavedTheme (denied : option JsError) : Eff World unit :=
  try_catch
    (let! savedTheme := getItem denied in
     let! t := gets this in
     let known :=
       match savedTheme with
       | Some saved =>
           truthy_string saved
           && match themes t !! saved with Some _ => true | None => false end
       | None => false
       end in
     if known then set_currentTheme (default "" savedTheme)
     else if String.eqb (systemPreference t) "dark"
          then set_currentTheme "dark"
          else ret tt)
    (fun error =>
       console_log (Warn "Failed to load saved theme:" (Some error))).

(** [init()], as the constructor calls it; the listeners that
    [setupEventListeners] registers change nothing by themselves. *)
Definition init (media : option bool) (denied : option JsError)
  : Eff World unit :=
  do! detectSystemPreference media in
  do! loadSavedTheme denied in
  let! current := gets (fun w => currentTheme (this w)) in
  applyTheme css_value current.

(** [themeNames.indexOf(x)], counting from [i]. *)
Fixpoint indexOf (x : string) (themeNames : list string) (i : Z) : Z :=
  match themeNames with
  | [] => -1
  | y :: rest => if String.eqb y x then i else indexOf x rest (i + 1)
  end.

(** [switchTheme()].  [themeNames] is [Object.keys(this.themes)]: the
    names of the registry in the order the engine lists them, which the
    registry as a finite map does not hold.  Of an empty list the next
    name is [undefined], looked up as the key ["undefined"]. *)
Definition switchTheme (themeNames : list string) : Eff World unit :=
  let! current := gets (fun w => currentTheme (this w)) in
  let currentIndex := indexOf current themeNames 0 in
  let nextTheme :=
    match themeNames with
    | [] => "undefined"
    | _ =>
        let nextIndex := (currentIndex + 1) mod Z.of_nat (length themeNames) in
        nth (Z.to_nat nextIndex) themeNames "undefined"
    end in
  applyTheme css_value nextTheme.

End Session.

(** The object [getCurrentTheme] returns. *)
Module ThemeInfo.
Record t : Type := {
  name : string;
  displayName : string;
  colors : list (string * string)
}.
End ThemeInfo.

(** [getCurrentTheme()]; reading [.name] of a theme that is not in the
    registry throws. *)
Definition getCurrentTheme : Eff World ThemeInfo.t :=
  let! t := gets this in
  match themes t !! currentTheme t with
  | Some theme =>
      ret {| ThemeInfo.name := currentTheme t;
             ThemeInfo.displayName := name theme;
             ThemeInfo.colors := colors theme |}
  | None =>
      throw (TypeError
               "Cannot read properties of undefined (reading 'name')")
  end.

End Theme.

(** * Properties *)

(** Unfolds the monad so that a method body reduces on a known state. *)
Ltac run_eff :=
  cbv [bind ret throw try_catch get gets modify] in *.

(** ** The profile statistics client *)

Module GitHubFacts.
Import GitHub.

(** The world once one request to the profile URL has gone out. *)
Definition requested (w : World) : list string :=
  requests w ++ [apiUrl (this w)].

(** The replies that end in the [catch] branch. *)
Definition fails (r : FetchReply) : bool :=
  match r with
  | Rejected _ => true
  | Response status body =>
      negb (ok status)
      || match body with
         | Malformed _ | Parsed JNull | Parsed JUndefined => true
         | Parsed _ => false
         end
  end.

Lemma fetch_hit env w :
  isCacheValid (now env) (this w) = true ->
  fetchUserData env w = (Normal (data (cache (this w))), w).
Proof.
  intros Hv. unfold fetchUserData. run_eff. now rewrite Hv.
Qed.

(** A miss sends exactly one request, whatever the reply. *)
Lemma fetch_miss_requests env w :
  isCacheValid (now env) (this w) = false ->
  requests (snd (fetchUserData env w)) = requested w.
Proof.
  intros Hv. unfold fetchUserData, fetch, json, console_warn, requested.
  run_eff. rewrite Hv.
  destruct (reply env) as [e | status body]; simpl; [reflexivity |].
  destruct (ok status); simpl; [| reflexivity].
  destruct body as [e | v]; simpl; [reflexivity |].
  destruct v; reflexivity.
Qed.

(** A miss answered by a failing reply: the [catch] branch. *)
Lemma fetch_miss_fails env w :
  isCacheValid (now env) (this w) = false ->
  fails (reply env) = true ->
  exists e,
    fetchUserData env w =
      (Normal (Some fallback),
       {| this := this w;
          requests := requested w;
          console := console w ++ [Warn "Failed to fetch GitHub data:" (Some e)] |}).
Proof.
  intros Hv Hf. unfold fetchUserData, fetch, json, console_warn, requested.
  run_eff. rewrite Hv.
  destruct (reply env) as [e | status body]; simpl in *; [eauto |].
  destruct (ok status); simpl in *; [| eauto].
  destruct body as [e | v]; simpl; [eauto |].
  destruct v; simpl in *; try discriminate; eauto.
Qed.

Lemma fetchUserData_total env w :
  exists r, fst (fetchUserData env w) = Normal r.
Proof.
  unfold fetchUserData, fetch, json, console_warn. run_eff.
  destruct (isCacheValid (now env) (this w)); [eauto |].
  destruct (reply env) as [e | status body]; simpl; [eauto |].
  destruct (ok status); simpl; [| eauto].
  destruct body as [e | v]; simpl; [eauto |].
  destruct v; simpl; eauto.
Qed.

(** A snapshot, a client holding it since time [t], and a reply, for the
    concrete cases below. *)
Definition snapshot0 : ProfileSnapshot :=
  {| public_repos := JNum 12; followers := JNum 3; following := JNum 4;
     avatar_url := JStr "https://avatars.githubusercontent.com/u/1";
     bio := JStr ""; location := JStr ""; company := JStr "";
     blog := JStr ""; created_at := JStr "2020-05-01T00:00:00Z" |}.

Definition holding (t : Z) : World :=
  {| this := {| username := "minngk";
                apiUrl := "https://api.github.com/users/minngk";
                cache := {| data := Some snapshot0; timestamp := Some t;
                            ttl := 5 * 60 * 1000 |} |};
     requests := [];
     console := [] |}.

Definition fresh : World :=
  {| this := constructor "minngk"; requests := []; console := [] |}.

Definition at_time (t : Z) (r : FetchReply) : Env :=
  {| now := t; reply := r; now_after := t + 40 |}.

Definition reply_ok : FetchReply :=
  Response 200 (Parsed (JObject [("public_repos", JNum 13);
                                 ("followers", JNum 0);
                                 ("bio", JNull)])).


(** X30: cache validity, for every capture time but 0.  For a cache
    entry with snapshot [d], a capture timestamp [T] other than 0 and
    time-to-live [L], the entry is valid exactly when [now - T < L]; a
    call strictly before [T + L] returns [d] and leaves the world as it
    was (no request); a call at [T + L] or later sends exactly one
    request.  A call on a client without an entry sends exactly one
    request too.  A new client has [L] = 5 minutes and no entry. *)
Theorem cache_validity :
  forall (w : World) (env : Env),
    (forall d T,
        data (cache (this w)) = Some d ->
        timestamp (cache (this w)) = Some T ->
        T <> 0 ->
        let L := ttl (cache (this w)) in
        (isCacheValid (now env) (this w) = true <-> now env - T < L)
        /\ (now env < T + L ->
            fetchUserData env w = (Normal (Some d), w))
        /\ (T + L <= now env ->
            requests (snd (fetchUserData env w)) = (requests w ++ [apiUrl (this w)])%list))
    /\ (data (cache (this w)) = None \/ timestamp (cache (this w)) = None ->
        isCacheValid (now env) (this w) = false
        /\ requests (snd (fetchUserData env w)) = (requests w ++ [apiUrl (this w)])%list)
    /\ (forall u, cache (constructor u)
                  = {| data := None; timestamp := None; ttl := 300000 |}).
Proof.
  intros w env. split; [| split].
  - intros d T Hd Ht HT L.
    assert (Hv : isCacheValid (now env) (this w) = (now env - T <? L)).
    { unfold isCacheValid. rewrite Hd, Ht.
      destruct (Z.eqb_spec T 0); [contradiction | reflexivity]. }
    split; [| split].
    + rewrite Hv. rewrite Z.ltb_lt. reflexivity.
    + intros Hlt. rewrite fetch_hit, Hd; [reflexivity |].
      rewrite Hv. apply Z.ltb_lt. lia.
    + intros Hge. apply fetch_miss_requests.
      rewrite Hv. apply Z.ltb_ge. lia.
  - intros Hnone.
    assert (Hv : isCacheValid (now env) (this w) = false).
    { unfold isCacheValid.
      destruct Hnone as [-> | ->]; [reflexivity |].
      destruct (data (cache (this w))); reflexivity. }
    split; [exact Hv | now apply fetch_miss_requests].
  - reflexivity.
Qed.

Lemma cache_validity_witness :
  let w := holding 1000 in
  let env := at_time (1000 + 300000 - 1) reply_ok in
  fetchUserData env w = (Normal (Some snapshot0), w)
  /\ requests (snd (fetchUserData (at_time (1000 + 300000) reply_ok) w))
     = ["https://api.github.com/users/minngk"].
Proof.
  cbv zeta. split.
  - apply (proj1 (cache_validity (holding 1000)
                    (at_time (1000 + 300000 - 1) reply_ok)) snapshot0 1000);
      [reflexivity | reflexivity | lia | vm_compute; reflexivity].
  - apply (proj1 (cache_validity (holding 1000)
                    (at_time (1000 + 300000) reply_ok)) snapshot0 1000);
      [reflexivity | reflexivity | lia | vm_compute; discriminate].
Defined.

(** C2: when the remote call is made (no valid entry) and fails, by a
    rejected [fetch] or by a status outside 200-299, [fetchUserData]
    returns normally the sentinel snapshot, whose three counters are the
    marker ["?"] and whose six text fields are empty, and has written one
    warning to the console.  And [fetchUserData] returns normally on every
    input. *)
Theorem fallback_integrity :
  forall (w : World) (env : Env),
    (isCacheValid (now env) (this w) = false ->
     match reply env with
     | Rejected _ => True
     | Response status _ => ~ (200 <= status <= 299)
     end ->
     fst (fetchUserData env w)
     = Normal (Some {| public_repos := JStr "?"; followers := JStr "?";
                       following := JStr "?"; avatar_url := JStr "";
                       bio := JStr ""; location := JStr "";
                       company := JStr ""; blog := JStr "";
                       created_at := JStr "" |})
     /\ exists e,
         console (snd (fetchUserData env w))
         = (console w ++ [Warn "Failed to fetch GitHub data:" (Some e)])%list)
    /\ exists r, fst (fetchUserData env w) = Normal r.
Proof.
  intros w env. split; [| apply fetchUserData_total].
  intros Hv Hr.
  assert (Hf : fails (reply env) = true).
  { destruct (reply env) as [e | status body]; [reflexivity |].
    simpl. apply orb_true_iff. left. unfold ok.
    apply negb_true_iff, andb_false_iff.
    rewrite Z.leb_gt, Z.leb_gt. lia. }
  destruct (fetch_miss_fails env w Hv Hf) as [e ->].
  split; [reflexivity | exists e; reflexivity].
Qed.

Lemma fallback_integrity_witness :
  fst (fetchUserData (at_time 7 (Response 503 (Parsed JNull))) fresh)
  = Normal (Some fallback).
Proof.
  apply (proj1 (fallback_integrity fresh (at_time 7 (Response 503 (Parsed JNull))))).
  - reflexivity.
  - simpl. lia.
Defined.

(** C10: a call that misses the cache and whose reply fails returns the
    sentinel and leaves the client, hence its cache entry, as it was: the
    sentinel is not stored.  Every later call (the clock does not run
    backwards) therefore misses the cache again and sends a request. *)
Theorem failed_fetch_keeps_cache :
  forall (w : World) (env : Env),
    isCacheValid (now env) (this w) = false ->
    fails (reply env) = true ->
    let w' := snd (fetchUserData env w) in
    fst (fetchUserData env w) = Normal (Some fallback)
    /\ this w' = this w
    /\ forall env',
        now env <= now env' ->
        isCacheValid (now env') (this w') = false
        /\ requests (snd (fetchUserData env' w'))
           = (requests w' ++ [apiUrl (this w')])%list.
Proof.
  intros w env Hv Hf w'. subst w'.
  destruct (fetch_miss_fails env w Hv Hf) as [e ->]. simpl.
  split; [reflexivity | split; [reflexivity |]].
  intros env' Hle.
  assert (Hv' : isCacheValid (now env') (this w) = false).
  { revert Hv. unfold isCacheValid.
    destruct (data (cache (this w))); [| reflexivity].
    destruct (timestamp (cache (this w))) as [t |]; [| reflexivity].
    destruct (t =? 0); [reflexivity |].
    rewrite !Z.ltb_ge. lia. }
  split; [exact Hv' |].
  now rewrite fetch_miss_requests.
Qed.

Lemma failed_fetch_keeps_cache_witness :
  let env := at_time 400000 (Rejected (NetworkError "Failed to fetch")) in
  let w' := snd (fetchUserData env (holding 1000)) in
  this w' = this (holding 1000)
  /\ requests (snd (fetchUserData (at_time 400001 reply_ok) w'))
     = [ "https://api.github.com/users/minngk";
         "https://api.github.com/users/minngk" ].
Proof.
  cbv zeta.
  pose proof (failed_fetch_keeps_cache (holding 1000)
                (at_time 400000 (Rejected (NetworkError "Failed to fetch")))
                eq_refl eq_refl) as [_ [Hthis Hnext]].
  split; [exact Hthis |].
  destruct (Hnext (at_time 400001 reply_ok)) as [_ Hreq]; [simpl; lia |].
  rewrite Hreq. reflexivity.
Defined.

End GitHubFacts.

(** ** The project catalog *)

Module ProjectsFacts.
Import Projects.

(** *** The stable insertion sort *)

Section SortFacts.
Context {A : Type} (compareFn : A -> A -> option Z).
Context (P : A -> Prop) (le : A -> A -> Prop).

(** On the elements that satisfy [P] the comparator decides a total
    preorder [le]. *)
Hypothesis le_trans :
  forall x y z, P x -> P y -> P z -> le x y -> le y z -> le x z.
Hypothesis before_le :
  forall x y, P x -> P y -> negative (compareFn x y) = true -> le x y.
Hypothesis not_before_le :
  forall x y, P x -> P y -> negative (compareFn x y) = false -> le y x.

Lemma insert_sorted_perm x l :
  Permutation (x :: l) (insert_sorted compareFn x l).
Proof.
  induction l as [| y l IH]; simpl; [reflexivity |].
  destruct (negative (compareFn x y)); [reflexivity |].
  rewrite perm_swap. now apply perm_skip.
Qed.

Lemma insert_sorted_ok x l :
  P x -> Forall P l -> StronglySorted le l ->
  StronglySorted le (insert_sorted compareFn x l).
Proof.
  intros Px. induction l as [| y l IH]; intros HP Hs; simpl.
  - repeat constructor.
  - inversion HP as [| ? ? Py HPl]; subst.
    inversion Hs as [| ? ? Hsl Hall]; subst.
    destruct (negative (compareFn x y)) eqn:Hc.
    + constructor; [exact Hs |].
      constructor; [now apply before_le |].
      rewrite List.Forall_forall in *. intros z Hz.
      apply (le_trans x y z); auto.
    + constructor; [now apply IH |].
      assert (Hin : Forall (le y) (x :: l)).
      { constructor; [now apply not_before_le | exact Hall]. }
      rewrite List.Forall_forall in *. intros z Hz. apply Hin.
      eapply Permutation_in; [| exact Hz].
      symmetry. apply insert_sorted_perm.
Qed.

Lemma sort_from_perm l : forall sorted,
  Permutation (sorted ++ l)
    (fold_left (fun sorted x => insert_sorted compareFn x sorted) l sorted).
Proof.
  induction l as [| x l IH]; intros sorted; simpl.
  - now rewrite app_nil_r.
  - rewrite <- IH. rewrite <- insert_sorted_perm.
    symmetry. apply Permutation_middle.
Qed.

Lemma sort_from_ok l : forall sorted,
  Forall P l -> Forall P sorted -> StronglySorted le sorted ->
  StronglySorted le
    (fold_left (fun sorted x => insert_sorted compareFn x sorted) l sorted).
Proof.
  induction l as [| x l IH]; intros sorted HPl HPs Hs; simpl; [exact Hs |].
  inversion HPl; subst. apply IH; auto.
  - rewrite List.Forall_forall in *. intros z Hz.
    apply Permutation_in with (l' := x :: sorted) in Hz;
      [| symmetry; apply insert_sorted_perm].
    destruct Hz as [<- | Hz]; auto.
  - now apply insert_sorted_ok.
Qed.

Lemma stable_sort_perm l : Permutation l (stable_sort compareFn l).
Proof. apply (sort_from_perm l []). Qed.

Lemma stable_sort_ok l :
  Forall P l -> StronglySorted le (stable_sort compareFn l).
Proof. intros H. apply sort_from_ok; auto; constructor. Qed.
End SortFacts.

(** What follows holds on every engine. *)
Section WithEngine.
Context {engine : Engine}.

(** *** The order of the cards *)

(** The project has a date the engine can read. *)
Definition dated (p : Project) : Prop :=
  Date_parse (createdAt p) <> None.

Definition time (p : Project) : Z :=
  default 0 (Date_parse (createdAt p)).

(** Featured descending, then creation time descending: [a] may stand
    before [b]. *)
Definition featured_first (a b : Project) : Prop :=
  (featured a = true /\ featured b = false)
  \/ (featured a = featured b /\ time b <= time a).

Lemma featured_first_trans x y z :
  featured_first x y -> featured_first y z -> featured_first x z.
Proof.
  unfold featured_first.
  destruct (featured x), (featured y), (featured z); intuition (try congruence).
  - right. split; [reflexivity | lia].
  - right. split; [reflexivity | lia].
Qed.

Lemma compare_before x y :
  dated x -> dated y ->
  negative (compareFeaturedFirst x y) = true -> featured_first x y.
Proof.
  unfold dated, time, featured_first, compareFeaturedFirst, time.
  intros Hx Hy.
  destruct (featured x), (featured y); simpl;
    destruct (Date_parse (createdAt x)), (Date_parse (createdAt y));
    simpl; try congruence; rewrite ?Z.ltb_lt; intros; auto;
    right; split; auto; lia.
Qed.

Lemma compare_not_before x y :
  dated x -> dated y ->
  negative (compareFeaturedFirst x y) = false -> featured_first y x.
Proof.
  unfold dated, time, featured_first, compareFeaturedFirst, time.
  intros Hx Hy.
  destruct (featured x), (featured y); simpl;
    destruct (Date_parse (createdAt x)), (Date_parse (createdAt y));
    simpl; try congruence; rewrite ?Z.ltb_ge; intros; auto;
    right; split; auto; lia.
Qed.

(** On projects with dates the engine can read the comparator is
    consistent, so that [sort] is the stable sort. *)
Lemma compare_consistent a b c :
  dated a -> dated b -> dated c ->
  consistent_at compareFeaturedFirst a b c = true.
Proof.
  unfold dated, consistent_at, compareFeaturedFirst.
  intros Ha Hb Hc.
  destruct (Date_parse (createdAt a)) as [ta |]; [| congruence].
  destruct (Date_parse (createdAt b)) as [tb |]; [| congruence].
  destruct (Date_parse (createdAt c)) as [tc |]; [| congruence].
  destruct (featured a), (featured b), (featured c);
    cbn [andb orb negb negative positive zero implb];
    repeat match goal with
           | |- context [(?x <? ?y)] => destruct (Z.ltb_spec x y)
           | |- context [(?x =? ?y)] => destruct (Z.eqb_spec x y)
           end;
    cbn [andb orb negb implb]; try reflexivity; lia.
Qed.

Lemma dated_consistent l :
  Forall dated l -> consistent compareFeaturedFirst l = true.
Proof.
  intros Hl. rewrite List.Forall_forall in Hl. unfold consistent.
  apply forallb_forall. intros a Ha.
  apply forallb_forall. intros b Hb.
  apply forallb_forall. intros c Hc.
  apply compare_consistent; auto.
Qed.

Lemma sort_dated l :
  Forall dated l ->
  sort compareFeaturedFirst l = stable_sort compareFeaturedFirst l.
Proof. intros Hl. unfold sort. now rewrite dated_consistent. Qed.

(** Whatever the comparator, sorting rearranges. *)
Lemma sort_perm compareFn l : Permutation l (sort compareFn l).
Proof.
  unfold sort. destruct (consistent compareFn l).
  - apply stable_sort_perm.
  - apply sort_unspecified_permutes.
Qed.

Lemma sort_featured_first l :
  Forall dated l ->
  Permutation l (sort compareFeaturedFirst l)
  /\ StronglySorted featured_first (sort compareFeaturedFirst l).
Proof.
  intros Hl. split; [apply sort_perm |]. rewrite (sort_dated l Hl).
  apply (stable_sort_ok compareFeaturedFirst dated featured_first); auto.
  - intros x y z _ _ _. apply featured_first_trans.
  - apply compare_before.
  - apply compare_not_before.
Qed.

(** *** What [displayProjects] does *)

Definition shown (w : World) (view : list Project) : list Project :=
  if default false (showFeaturedFirst (settings (this w)))
  then sort compareFeaturedFirst view else view.

(** The markup of the cards of [l], one after the other. *)
Definition markup (l : list Project) : string :=
  String.concat "" (map createProjectCard l).

Definition rendered (l : list Project) : Grid :=
  match l with
  | [] => EmptyNotice
  | _ => Cards (markup l)
  end.

Lemma displayProjects_grid arg w g :
  grid w = Some g ->
  let view := default (filteredProjects (this w)) arg in
  displayProjects arg w
  = (Normal tt,
     {| this := this w;
        grid := Some (rendered (shown w view));
        events := events w ++ [projectsDisplayed (shown w view)];
        console := console w;
        storage := storage w;
        storage_refuses := storage_refuses w |}).
Proof.
  intros Hg.
  unfold displayProjects, shown, rendered, markup, set_grid, dispatchEvent.
  run_eff.
  destruct arg as [l |]; simpl; rewrite Hg; simpl;
    match goal with
    | |- context [(length ?l =? 0)%nat] => destruct l; reflexivity
    end.
Qed.

Lemma displayProjects_no_grid arg w :
  grid w = None ->
  displayProjects arg w
  = (Normal tt,
     {| this := this w; grid := None; events := events w;
        console := console w
                   ++ [ErrorLog "Projects grid element not found" None];
        storage := storage w;
        storage_refuses := storage_refuses w |}).
Proof.
  intros Hg. unfold displayProjects, console_log. run_eff.
  destruct arg; simpl; rewrite Hg; simpl; rewrite Hg; reflexivity.
Qed.

(** Displaying always completes, and touches the page only. *)
Lemma displayProjects_this arg w :
  exists w',
    displayProjects arg w = (Normal tt, w')
    /\ this w' = this w
    /\ storage w' = storage w
    /\ storage_refuses w' = storage_refuses w.
Proof.
  destruct (grid w) as [g |] eqn:Hg.
  - rewrite (displayProjects_grid arg w g Hg). eexists. cbv zeta. eauto.
  - rewrite (displayProjects_no_grid arg w Hg). eexists. eauto.
Qed.

(** The six orders of three elements. *)
Lemma Permutation_three {X : Type} (a b c : X) (l : list X) :
  Permutation [a; b; c] l ->
  l = [a; b; c] \/ l = [a; c; b] \/ l = [b; a; c]
  \/ l = [b; c; a] \/ l = [c; a; b] \/ l = [c; b; a].
Proof.
  intros Hp.
  pose proof (Permutation_length Hp) as Hlen.
  destruct l as [| x [| y [| z [| ? ?]]]]; try discriminate Hlen.
  assert (Ha : In a [x; y; z]) by (eapply Permutation_in; [exact Hp | now left]).
  destruct Ha as [<- | [<- | [<- | []]]].
  - apply Permutation_cons_inv in Hp.
    apply Permutation_length_2_inv in Hp as [Hp | Hp]; inversion Hp; auto.
  - apply (Permutation_cons_app_inv [x] [z]) in Hp. simpl in Hp.
    apply Permutation_length_2_inv in Hp as [Hp | Hp]; inversion Hp; auto 7.
  - apply (Permutation_cons_app_inv [x; y] []) in Hp. simpl in Hp.
    apply Permutation_length_2_inv in Hp as [Hp | Hp]; inversion Hp; auto 7.
Qed.

(** The three dates of the example, as every engine reads them. *)
Lemma example_dates :
  Date_parse "2024-01-01" = Some 1704067200000
  /\ Date_parse "2023-01-01" = Some 1672531200000
  /\ Date_parse "2024-06-01" = Some 1717200000000.
Proof. repeat split; apply Date_parse_ISO; vm_compute; reflexivity. Qed.

(** C5 (amended): with [showFeaturedFirst] set, the grid in the page and
    creation dates that the engine can read, [displayProjects] writes the
    cards of, and announces, a permutation of the view that is sorted by
    featured descending, then creation time descending.  And three
    projects A (not featured, 2024-01-01), B (featured, 2023-01-01),
    C (not featured, 2024-06-01), given in any order, are rendered in the
    order B, C, A. *)
Theorem featured_first_display :
  (forall (w : World) (arg : option (list Project)) (g : Grid),
      showFeaturedFirst (settings (this w)) = Some true ->
      grid w = Some g ->
      let view := default (filteredProjects (this w)) arg in
      Forall dated view ->
      exists order,
        Permutation view order
        /\ StronglySorted featured_first order
        /\ fst (displayProjects arg w) = Normal tt
        /\ grid (snd (displayProjects arg w)) = Some (rendered order)
        /\ events (snd (displayProjects arg w))
           = (events w ++ [projectsDisplayed order])%list)
  /\ (forall (w : World) (g : Grid) (A B C : Project) (view : list Project),
      showFeaturedFirst (settings (this w)) = Some true ->
      grid w = Some g ->
      featured A = false -> createdAt A = "2024-01-01" ->
      featured B = true -> createdAt B = "2023-01-01" ->
      featured C = false -> createdAt C = "2024-06-01" ->
      Permutation [A; B; C] view ->
      grid (snd (displayProjects (Some view) w))
      = Some (Cards (markup [B; C; A]))
      /\ events (snd (displayProjects (Some view) w))
         = (events w ++ [projectsDisplayed [B; C; A]])%list).
Proof.
  split.
  - intros w arg g Hflag Hg view Hd.
    rewrite (displayProjects_grid arg w g Hg). fold view.
    unfold shown. rewrite Hflag. simpl.
    destruct (sort_featured_first view Hd) as [Hperm Hsorted].
    exists (sort compareFeaturedFirst view). auto.
  - intros w g A B C view Hflag Hg HfA HdA HfB HdB HfC HdC Hp.
    destruct example_dates as (HtA & HtB & HtC).
    rewrite (displayProjects_grid (Some view) w g Hg).
    unfold shown. rewrite Hflag. simpl.
    assert (Hdated : Forall dated view).
    { rewrite List.Forall_forall. intros p Hin.
      apply Permutation_sym in Hp.
      apply (Permutation_in _ Hp) in Hin.
      unfold dated.
      destruct Hin as [<- | [<- | [<- | []]]];
        rewrite ?HdA, ?HdB, ?HdC, ?HtA, ?HtB, ?HtC; discriminate. }
    rewrite (sort_dated view Hdated).
    assert (Hs : stable_sort compareFeaturedFirst view = [B; C; A]).
    { assert (cAB : negative (compareFeaturedFirst A B) = false)
        by (unfold compareFeaturedFirst; rewrite HfA, HfB; reflexivity).
      assert (cBA : negative (compareFeaturedFirst B A) = true)
        by (unfold compareFeaturedFirst; rewrite HfA, HfB; reflexivity).
      assert (cCB : negative (compareFeaturedFirst C B) = false)
        by (unfold compareFeaturedFirst; rewrite HfC, HfB; reflexivity).
      assert (cBC : negative (compareFeaturedFirst B C) = true)
        by (unfold compareFeaturedFirst; rewrite HfC, HfB; reflexivity).
      assert (cAC : negative (compareFeaturedFirst A C) = false)
        by (unfold compareFeaturedFirst;
            rewrite HfA, HfC, HdA, HdC, HtA, HtC; reflexivity).
      assert (cCA : negative (compareFeaturedFirst C A) = true)
        by (unfold compareFeaturedFirst;
            rewrite HfA, HfC, HdA, HdC, HtA, HtC; reflexivity).
      apply Permutation_three in Hp.
      destruct Hp as [-> | [-> | [-> | [-> | [-> | ->]]]]];
        unfold stable_sort; cbn [fold_left insert_sorted];
        repeat (rewrite ?cAB, ?cBA, ?cCB, ?cBC, ?cAC, ?cCA;
                cbn [insert_sorted]);
        reflexivity. }
    rewrite Hs. split; reflexivity.
Qed.

Definition project (i : string) (f : bool) (d : string) : Project :=
  {| id := i; name := i; description := ""; icon := None;
     technologies := []; github := "https://github.com/minngk/" ++ i;
     demo := None; featured := f; createdAt := d; status := "active";
     color := "#333"; language := None |}.

Definition page (l : list Project) (featuredFirst : bool) : World :=
  {| this := {| projects := l; filteredProjects := l;
                settings := {| showFeaturedFirst := Some featuredFirst |};
                isLoaded := true |};
     grid := Some Untouched; events := []; console := [];
     storage := None; storage_refuses := false |}.

(** *** Filters *)

Lemma reset_view (w : World) (rest : Eff World unit) :
  (do! (let! t := gets this in set_filteredProjects (projects t)) in rest) w
  = rest {| this := {| projects := projects (this w);
                       filteredProjects := projects (this w);
                       settings := settings (this w);
                       isLoaded := isLoaded (this w) |};
            grid := grid w; events := events w; console := console w;
            storage := storage w; storage_refuses := storage_refuses w |}.
Proof. reflexivity. Qed.

(** What a filter called with an absent or an empty argument does. *)
Lemma empty_filter_eq (w : World) (op : option string -> Eff World unit)
    (arg : option string) :
  In op [searchProjects; filterByTechnology; filterByLanguage] ->
  In arg [None; Some ""] ->
  op arg w
  = displayProjects None
      {| this := {| projects := projects (this w);
                    filteredProjects := projects (this w);
                    settings := settings (this w);
                    isLoaded := isLoaded (this w) |};
         grid := grid w; events := events w; console := console w;
         storage := storage w; storage_refuses := storage_refuses w |}.
Proof.
  intros Hop Harg. rewrite <- reset_view.
  destruct Hop as [<- | [<- | [<- | []]]];
    destruct Harg as [<- | [<- | []]]; reflexivity.
Qed.

(** C7 (amended): [searchProjects], [filterByTechnology] and
    [filterByLanguage], called with an absent or an empty argument,
    complete, leave the catalog as it is and make the view the whole
    catalog in its order.  Without the grid in the page nothing is
    displayed.  With it the cards written and the projects announced are
    the whole catalog: in its order when [showFeaturedFirst] is not set;
    rearranged when it is set, featured first and then newest first when
    the engine can read the creation dates.  [searchProjects("")]
    followed by [searchProjects()] displays the catalog twice, in the
    same way, and leaves the view the whole catalog. *)
Theorem empty_filter_resets_view :
  forall (w : World) (op : option string -> Eff World unit) (arg : option string),
    In op [searchProjects; filterByTechnology; filterByLanguage] ->
    In arg [None; Some ""] ->
    let catalog := projects (this w) in
    let flag := default false (showFeaturedFirst (settings (this w))) in
    let w' := snd (op arg w) in
    (fst (op arg w) = Normal tt
     /\ projects (this w') = catalog
     /\ filteredProjects (this w') = catalog
     /\ (grid w = None -> grid w' = None /\ events w' = events w)
     /\ (grid w <> None ->
         exists order,
           grid w' = Some (rendered order)
           /\ events w' = (events w ++ [projectsDisplayed order])%list
           /\ Permutation catalog order
           /\ (flag = false -> order = catalog)
           /\ (flag = true -> Forall dated catalog ->
               StronglySorted featured_first order)))
    /\ (let w1 := snd (searchProjects (Some "") w) in
        let w2 := snd (searchProjects None w1) in
        filteredProjects (this w1) = catalog
        /\ filteredProjects (this w2) = catalog
        /\ projects (this w2) = catalog
        /\ (grid w <> None ->
            exists order,
              grid w1 = Some (rendered order)
              /\ grid w2 = Some (rendered order)
              /\ events w2
                 = (events w ++ [projectsDisplayed order;
                                 projectsDisplayed order])%list)).
Proof.
  intros w op arg Hop Harg.
  assert (Hone : forall w op arg,
             In op [searchProjects; filterByTechnology; filterByLanguage] ->
             In arg [None; Some ""] ->
             fst (op arg w) = Normal tt
             /\ this (snd (op arg w))
                = {| projects := projects (this w);
                     filteredProjects := projects (this w);
                     settings := settings (this w);
                     isLoaded := isLoaded (this w) |}
             /\ (grid w = None ->
                 grid (snd (op arg w)) = None
                 /\ events (snd (op arg w)) = events w)
             /\ (grid w <> None ->
                 grid (snd (op arg w))
                 = Some (rendered (shown w (projects (this w))))
                 /\ events (snd (op arg w))
                    = (events w
                       ++ [projectsDisplayed (shown w (projects (this w)))])%list)).
  { clear. intros w op arg Hop Harg.
    rewrite (empty_filter_eq w op arg Hop Harg).
    match goal with |- context [displayProjects None ?w0] => set (w' := w0) end.
    destruct (grid w) as [g |] eqn:Hg.
    - rewrite (displayProjects_grid None w' g eq_refl). simpl.
      split; [reflexivity |]. split; [reflexivity |].
      split; [discriminate |]. intros _. split; reflexivity.
    - rewrite (displayProjects_no_grid None w' eq_refl). simpl.
      split; [reflexivity |]. split; [reflexivity |].
      split; [auto | congruence]. }
  cbv zeta. split.
  - destruct (Hone w op arg Hop Harg) as (Hr & Hthis & Hnone & Hsome).
    rewrite Hthis. simpl.
    split; [exact Hr |]. split; [reflexivity |]. split; [reflexivity |].
    split; [exact Hnone |].
    intros Hg. destruct (Hsome Hg) as [Hgrid Hev].
    exists (shown w (projects (this w))).
    split; [exact Hgrid |]. split; [exact Hev |].
    unfold shown.
    destruct (default false (showFeaturedFirst (settings (this w)))).
    + split; [apply sort_perm |]. split; [discriminate |].
      intros _ Hd. now apply sort_featured_first.
    + split; [reflexivity |]. split; [reflexivity | discriminate].
  - destruct (Hone w searchProjects (Some "")) as (_ & Hthis1 & _ & Hsome1);
      [now left | now right; left |].
    destruct (Hone (snd (searchProjects (Some "") w)) searchProjects None)
      as (_ & Hthis2 & _ & Hsome2); [now left | now left |].
    rewrite Hthis2, Hthis1. simpl.
    do 3 (split; [reflexivity |]).
    intros Hg. destruct (Hsome1 Hg) as [Hg1 Hev1].
    destruct Hsome2 as [Hg2 Hev2]; [rewrite Hg1; discriminate |].
    exists (shown w (projects (this w))).
    split; [exact Hg1 |].
    assert (Hshown : shown (snd (searchProjects (Some "") w))
                           (projects (this (snd (searchProjects (Some "") w))))
                     = shown w (projects (this w)))
      by (unfold shown; rewrite Hthis1; reflexivity).
    rewrite Hshown in Hg2, Hev2.
    split; [exact Hg2 |].
    rewrite Hev2, Hev1, <- app_assoc. reflexivity.
Qed.

(** *** Loading *)

(** The replies on which loading takes the [catch] branch: a rejected
    [fetch], a status outside 200-299, a body that is not JSON, the body
    [null]. *)
Definition load_fails (r : FetchReply) : Prop :=
  match r with
  | Rejected _ => True
  | Response status body =>
      ~ (200 <= status <= 299)
      \/ match body with
         | Malformed _ | ParsedNull => True
         | Parsed _ _ => False
         end
  end.

(** C9: [loadProjects] completes normally on every reply, returning the
    catalog, and the catalog is marked loaded afterwards; when the fetch
    or the parse fails the catalog and the view are the one built-in
    project. *)
Theorem loadProjects_never_raises :
  forall (w : World) (r : FetchReply),
    let w' := snd (loadProjects r w) in
    fst (loadProjects r w) = Normal (projects (this w'))
    /\ isLoaded (this w') = true
    /\ (load_fails r ->
        projects (this w') = [fallbackProject]
        /\ filteredProjects (this w') = [fallbackProject]
        /\ length (projects (this w')) = 1%nat).
Proof.
  intros w r. unfold loadProjects, fetch, json, loadFallbackData. run_eff.
  destruct r as [e | status body]; simpl.
  - auto.
  - unfold ok. destruct (Z.leb_spec 200 status), (Z.leb_spec status 299); simpl;
      auto.
    destruct body as [e | | ps ss]; simpl; auto.
    split; [reflexivity | split; [reflexivity |]].
    intros [Hs | []]. lia.
Qed.

(** *** Generated ids *)

(** The ids the loop of [generateId] tries, in turn. *)
Definition candidate (baseId : string) (k : nat) : string :=
  match k with
  | O => baseId
  | S _ => baseId ++ "-" ++ pretty k
  end.

Lemma append_inv_head (s a b : string) : s ++ a = s ++ b -> a = b.
Proof.
  induction s as [| c s IH]; simpl; intros H; [exact H |].
  injection H as H. auto.
Qed.

Lemma append_nonempty (s : string) c t : s <> s ++ String c t.
Proof.
  induction s as [| c' s IH]; simpl; [discriminate |].
  intros H. injection H as H. auto.
Qed.

Lemma candidate_inj baseId i j :
  candidate baseId i = candidate baseId j -> i = j.
Proof.
  destruct i as [| i], j as [| j]; cbn [candidate]; intros H; auto.
  - exfalso. revert H. apply append_nonempty.
  - exfalso. symmetry in H. revert H. apply append_nonempty.
  - apply append_inv_head in H. apply (append_inv_head "-") in H.
    now apply (inj pretty) in H.
Qed.

Lemma taken_In ps i : taken ps i = true <-> In i (map id ps).
Proof.
  unfold taken. rewrite existsb_exists, in_map_iff.
  split; intros (p & H1 & H2).
  - apply String.eqb_eq in H2. eauto.
  - exists p. split; [tauto |]. apply String.eqb_eq. tauto.
Qed.

(** What the loop started at candidate [i] does in [steps] steps. *)
Lemma generateId_loop_spec ps baseId steps : forall i,
  match generateId_loop steps ps baseId (candidate baseId i) (S i) with
  | Some id' =>
      exists k, (i <= k < i + steps)%nat
                /\ id' = candidate baseId k
                /\ taken ps id' = false
                /\ forall j, (i <= j < k)%nat ->
                             taken ps (candidate baseId j) = true
  | None =>
      forall j, (i <= j < i + steps)%nat ->
                taken ps (candidate baseId j) = true
  end.
Proof.
  induction steps as [| steps IH]; intros i; simpl.
  - intros j Hj. lia.
  - destruct (taken ps (candidate baseId i)) eqn:Ht.
    + specialize (IH (S i)). cbn [candidate] in IH.
      destruct (generateId_loop steps ps baseId _ (S (S i))) as [id' |].
      * destruct IH as (k & Hk & -> & Hfree & Hbelow).
        exists k. split; [lia |]. split; [reflexivity |].
        split; [exact Hfree |].
        intros j Hj. destruct (Nat.eq_dec j i) as [-> | Hne]; auto.
        apply Hbelow. lia.
      * intros j Hj. destruct (Nat.eq_dec j i) as [-> | Hne]; auto.
        apply IH. lia.
    + exists i. split; [lia |]. split; [reflexivity |].
      split; [exact Ht |].
      intros j Hj. lia.
Qed.

(** More candidates than projects cannot all be taken. *)
Lemma candidates_not_all_taken ps baseId :
  ~ (forall j, (j < S (length ps))%nat ->
               taken ps (candidate baseId j) = true).
Proof.
  intros Hall.
  assert (Hnd : List.NoDup (map (candidate baseId) (seq 0 (S (length ps))))).
  { apply Finite.Injective_map_NoDup; [| apply List.seq_NoDup].
    intros i j. apply candidate_inj. }
  assert (Hincl : incl (map (candidate baseId) (seq 0 (S (length ps))))
                       (map id ps)).
  { intros c Hc. apply in_map_iff in Hc as (j & <- & Hj).
    apply in_seq in Hj. apply taken_In. apply Hall. lia. }
  pose proof (List.NoDup_incl_length Hnd Hincl) as Hlen.
  rewrite !length_map, length_seq in Hlen. lia.
Qed.

(** The loop of [generateId] ends within the steps it is given, and more
    steps would not change its result. *)
Lemma generateId_steps_enough ps baseId :
  exists k,
    (forall extra,
        generateId_loop (S (length ps) + extra) ps baseId baseId 1
        = Some (candidate baseId k))
    /\ taken ps (candidate baseId k) = false
    /\ forall j, (j < k)%nat -> taken ps (candidate baseId j) = true.
Proof.
  pose proof (generateId_loop_spec ps baseId (S (length ps)) 0) as H.
  change (candidate baseId 0) with baseId in H.
  destruct (generateId_loop (S (length ps)) ps baseId baseId 1) as [id' |] eqn:E.
  - destruct H as (k & Hk & -> & Hfree & Hbelow).
    exists k. split; [| split]; auto.
    + intros extra.
      pose proof (generateId_loop_spec ps baseId (S (length ps) + extra) 0) as H'.
      change (candidate baseId 0) with baseId in H'.
      destruct (generateId_loop (S (length ps) + extra) ps baseId baseId 1)
        as [id'' |].
      * destruct H' as (k' & Hk' & -> & Hfree' & Hbelow').
        f_equal. f_equal.
        destruct (Nat.lt_trichotomy k k') as [Hlt | [-> | Hgt]]; auto.
        -- rewrite Hbelow' in Hfree by lia. discriminate.
        -- rewrite Hbelow in Hfree' by lia. discriminate.
      * rewrite H' in Hfree by lia. discriminate.
    + intros j Hj. apply Hbelow. lia.
  - exfalso. apply (candidates_not_all_taken ps baseId).
    intros j Hj. apply H. lia.
Qed.

Lemma generateId_ok name' w :
  exists k,
    generateId name' w = (Normal (candidate (baseId_of name') k), w)
    /\ taken (projects (this w)) (candidate (baseId_of name') k) = false
    /\ forall j, (j < k)%nat ->
                 taken (projects (this w)) (candidate (baseId_of name') j) = true.
Proof.
  destruct (generateId_steps_enough (projects (this w)) (baseId_of name'))
    as (k & Hloop & Hfree & Hbelow).
  exists k. split; [| split]; auto.
  unfold generateId, loop_result. run_eff.
  specialize (Hloop 0%nat). rewrite Nat.add_0_r in Hloop.
  now rewrite Hloop.
Qed.

(** *** Adding a project *)

Lemma bind_normal {S A B} (m : Eff S A) (k : A -> Eff S B) s a s' :
  m s = (Normal a, s') -> bind m k s = k a s'.
Proof. intros H. unfold bind. now rewrite H. Qed.

Lemma saveToLocalStorage_this clock w :
  exists w', saveToLocalStorage clock w = (Normal tt, w') /\ this w' = this w.
Proof.
  unfold saveToLocalStorage, setItem, console_log. run_eff.
  destruct (storage_refuses w); eexists; split; reflexivity.
Qed.

Definition rejection : JsError :=
  Error "必須フィールド（name, github）が不足しています".

Lemma addProject_rejects clock d w :
  truthy_ostring (ProjectData.name d) = false
  \/ truthy_ostring (ProjectData.github d) = false ->
  addProject clock d w = (Throw rejection, w).
Proof.
  intros H. unfold addProject.
  destruct H as [-> | ->]; rewrite ?orb_true_r; reflexivity.
Qed.

(** The id [addProject] gives the new project: the one asked for, or the
    first free candidate. *)
Definition assigned_id (d : ProjectData.t) (n : string) (ps : list Project)
    (id' : string) : Prop :=
  if truthy_ostring (ProjectData.id d) then ProjectData.id d = Some id'
  else exists k, id' = candidate (baseId_of n) k
                 /\ taken ps id' = false
                 /\ forall j, (j < k)%nat ->
                              taken ps (candidate (baseId_of n) j) = true.

Lemma addProject_accepts clock d w n g :
  ProjectData.name d = Some n -> n <> "" ->
  ProjectData.github d = Some g -> g <> "" ->
  exists id' w',
    let p :=
      {| id := id'; name := n;
         description := or_string (ProjectData.description d) "";
         icon := Some (or_string (ProjectData.icon d)
                         (getLanguageIcon (ProjectData.language d)));
         technologies := default [] (ProjectData.technologies d);
         github := g;
         demo := if truthy_ostring (ProjectData.demo d)
                 then ProjectData.demo d else None;
         featured := default false (ProjectData.featured d);
         createdAt := now_iso clock;
         status := "active";
         color := or_string (ProjectData.color d) "#333";
         language := Some (or_string (ProjectData.language d) "Other") |} in
    addProject clock d w
    = (Normal (p, if truthy_ostring (ProjectData.id d) then d
                  else ProjectData.set_id id' d), w')
    /\ assigned_id d n (projects (this w)) id'
    /\ this w' = {| projects := p :: projects (this w);
                    filteredProjects := p :: projects (this w);
                    settings := settings (this w);
                    isLoaded := isLoaded (this w) |}.
Proof.
  intros Hn Hn' Hg Hg'.
  assert (Tn : truthy_string n = true).
  { unfold truthy_string. apply negb_true_iff, String.eqb_neq. exact Hn'. }
  assert (Tg : truthy_string g = true).
  { unfold truthy_string. apply negb_true_iff, String.eqb_neq. exact Hg'. }
  unfold addProject, assigned_id. rewrite Hn, Hg. simpl. rewrite Tn, Tg. simpl.
  destruct (truthy_ostring (ProjectData.id d)) eqn:Tid; simpl.
  - destruct (ProjectData.id d) as [i |] eqn:Hid; [| discriminate Tid].
    rewrite (bind_normal _ _ w d w eq_refl).
    rewrite ?Hid, ?Hn, ?Hg. simpl.
    unfold set_projects, set_filteredProjects, set_this. run_eff. simpl.
    match goal with
    | |- context [displayProjects None ?w0] =>
        destruct (displayProjects_this None w0) as (w1 & -> & Hthis1 & _)
    end.
    destruct (saveToLocalStorage_this clock w1) as (w2 & -> & Hthis2).
    exists i, w2. cbv zeta. split; [reflexivity |]. split; [reflexivity |].
    rewrite Hthis2, Hthis1. reflexivity.
  - destruct (generateId_ok n w) as (k & Hgen & Hfree & Hbelow).
    rewrite (bind_normal _ _ w (ProjectData.set_id (candidate (baseId_of n) k) d) w);
      [| now rewrite (bind_normal _ _ _ _ _ Hgen)].
    simpl. rewrite ?Hn, ?Hg. simpl.
    unfold set_projects, set_filteredProjects, set_this. run_eff. simpl.
    match goal with
    | |- context [displayProjects None ?w0] =>
        destruct (displayProjects_this None w0) as (w1 & -> & Hthis1 & _)
    end.
    destruct (saveToLocalStorage_this clock w1) as (w2 & -> & Hthis2).
    exists (candidate (baseId_of n) k), w2. cbv zeta.
    split; [reflexivity |]. split; [eauto |].
    rewrite Hthis2, Hthis1. reflexivity.
Qed.

Lemma truthy_ostring_true o :
  truthy_ostring o = true -> exists s, o = Some s /\ s <> "".
Proof.
  destruct o as [s |]; simpl; [| discriminate].
  unfold truthy_string. rewrite negb_true_iff, String.eqb_neq. eauto.
Qed.

(** Whatever the argument, [addProject] throws and leaves the world as it
    was, or returns a project that is now the first of the catalog. *)
Lemma addProject_cases clock d w :
  addProject clock d w = (Throw rejection, w)
  \/ exists n p d' w',
      ProjectData.name d = Some n
      /\ addProject clock d w = (Normal (p, d'), w')
      /\ assigned_id d n (projects (this w)) (id p)
      /\ projects (this w') = p :: projects (this w).
Proof.
  destruct (truthy_ostring (ProjectData.name d)) eqn:Tn;
    [| left; apply addProject_rejects; auto].
  destruct (truthy_ostring (ProjectData.github d)) eqn:Tg;
    [| left; apply addProject_rejects; auto].
  right.
  apply truthy_ostring_true in Tn as (n & Hn & Hn').
  apply truthy_ostring_true in Tg as (g & Hg & Hg').
  destruct (addProject_accepts clock d w n g Hn Hn' Hg Hg')
    as (id' & w' & Hrun & Hid & Hthis).
  cbv zeta in Hrun. eexists n, _, _, w'.
  split; [exact Hn |]. split; [exact Hrun |]. split; [exact Hid |].
  rewrite Hthis. reflexivity.
Qed.

(** The candidate chosen is the first free one. *)
Lemma first_free ps baseId k k0 :
  taken ps (candidate baseId k) = false ->
  (forall j, (j < k)%nat -> taken ps (candidate baseId j) = true) ->
  taken ps (candidate baseId k0) = false ->
  (forall j, (j < k0)%nat -> taken ps (candidate baseId j) = true) ->
  k = k0.
Proof.
  intros Hf Hb Hf0 Hb0.
  destruct (Nat.lt_trichotomy k k0) as [Hlt | [-> | Hgt]]; auto.
  - rewrite Hb0 in Hf by lia. discriminate.
  - rewrite Hb in Hf0 by lia. discriminate.
Qed.

(** A run of calls of [addProject], each with an object of its own and on
    the world the call before left. *)
Fixpoint add_all (calls : list (Clock * ProjectData.t)) (w : World) : World :=
  match calls with
  | [] => w
  | (clock, d) :: rest => add_all rest (snd (addProject clock d w))
  end.

(** The project returned, if the call returns. *)
Definition added (r : Completion (Project * ProjectData.t) * World)
  : option Project :=
  match fst r with
  | Normal (p, _) => Some p
  | _ => None
  end.

Definition input (i n g : option string) : ProjectData.t :=
  {| ProjectData.id := i; ProjectData.name := n;
     ProjectData.description := None; ProjectData.icon := None;
     ProjectData.technologies := None; ProjectData.github := g;
     ProjectData.demo := None; ProjectData.featured := None;
     ProjectData.color := None; ProjectData.language := None |}.

Definition noon : Clock :=
  {| now_iso := "2025-03-09T12:00:00.000Z"; now_ms := 1741521600000 |}.

(** C6: [addProject({})], and every call whose [name] or [github] is
    missing or empty, throws to its caller and leaves the catalog, with
    everything else, as it was.  A call with a name and a repository
    returns the new project, which is then the first of the catalog and of
    the view; it has the name and the repository given, the creation time
    of the call and the status [active], and for each key left out the
    default: a free generated id, an empty description, the icon of the
    language, no technologies, no demo, not featured, the colour [#333],
    the language [Other]. *)
Theorem addProject_validation :
  forall (clock : Clock) (w : World) (d : ProjectData.t),
    addProject clock ProjectData.empty w
    = (Throw (Error "必須フィールド（name, github）が不足しています"), w)
    /\ (truthy_ostring (ProjectData.name d) = false
        \/ truthy_ostring (ProjectData.github d) = false ->
        exists e, addProject clock d w = (Throw e, w))
    /\ (forall n g,
          ProjectData.name d = Some n -> n <> "" ->
          ProjectData.github d = Some g -> g <> "" ->
          exists p,
            let w' := snd (addProject clock d w) in
            added (addProject clock d w) = Some p
            /\ projects (this w') = p :: projects (this w)
            /\ filteredProjects (this w') = p :: projects (this w)
            /\ name p = n /\ github p = g
            /\ createdAt p = now_iso clock /\ status p = "active"
            /\ (ProjectData.id d = None ->
                taken (projects (this w)) (id p) = false)
            /\ (ProjectData.description d = None -> description p = "")
            /\ (ProjectData.icon d = None ->
                icon p = Some (getLanguageIcon (ProjectData.language d)))
            /\ (ProjectData.technologies d = None -> technologies p = [])
            /\ (ProjectData.demo d = None -> demo p = None)
            /\ (ProjectData.featured d = None -> featured p = false)
            /\ (ProjectData.color d = None -> color p = "#333")
            /\ (ProjectData.language d = None -> language p = Some "Other")).
Proof.
  intros clock w d. split; [reflexivity |]. split.
  - intros H. exists rejection. now apply addProject_rejects.
  - intros n g Hn Hn' Hg Hg'.
    destruct (addProject_accepts clock d w n g Hn Hn' Hg Hg')
      as (id' & w' & Hrun & Hid & Hthis).
    cbv zeta in Hrun. eexists. cbv zeta. unfold added. rewrite Hrun. simpl.
    split; [reflexivity |].
    rewrite Hthis. simpl.
    repeat (split; [reflexivity |]).
    split.
    { intros Hnone. unfold assigned_id in Hid. rewrite Hnone in Hid.
      simpl in Hid. destruct Hid as (k & _ & Hfree & _). exact Hfree. }
    repeat split; intros ->; reflexivity.
Qed.

(** C3 (amended): on a catalog whose ids are pairwise distinct, after any
    sequence of calls of [addProject] whose argument holds no id the ids
    are still pairwise distinct.  Such a call, when it has a name and a
    repository, gives the project the id derived from the name if that is
    free, and otherwise that id with the suffix [-k] for the least
    [k >= 1] that makes it free; the loop that looks for it always ends.
    Two calls for ["My Project!"], the ids [my-project] and [my-project-1]
    being free, give these two ids, in this order. *)
Theorem generated_ids_stay_unique :
  (forall (calls : list (Clock * ProjectData.t)) (w : World),
      List.NoDup (map id (projects (this w))) ->
      Forall (fun call => truthy_ostring (ProjectData.id (snd call)) = false)
             calls ->
      List.NoDup (map id (projects (this (add_all calls w)))))
  /\ (forall clock d w, fst (addProject clock d w) <> Unfinished)
  /\ (forall clock d w n g,
        truthy_ostring (ProjectData.id d) = false ->
        ProjectData.name d = Some n -> n <> "" ->
        ProjectData.github d = Some g -> g <> "" ->
        exists p k,
          added (addProject clock d w) = Some p
          /\ id p = match k with
                    | O => baseId_of n
                    | S _ => baseId_of n ++ "-" ++ pretty k
                    end
          /\ taken (projects (this w)) (id p) = false
          /\ forall j, (j < k)%nat ->
                       taken (projects (this w)) (candidate (baseId_of n) j)
                       = true)
  /\ (forall clock1 clock2 g1 g2 w,
        g1 <> "" -> g2 <> "" ->
        taken (projects (this w)) "my-project" = false ->
        taken (projects (this w)) "my-project-1" = false ->
        let d1 := input None (Some "My Project!") (Some g1) in
        let d2 := input None (Some "My Project!") (Some g2) in
        exists p1 p2,
          added (addProject clock1 d1 w) = Some p1
          /\ added (addProject clock2 d2 (snd (addProject clock1 d1 w)))
             = Some p2
          /\ id p1 = "my-project"
          /\ id p2 = "my-project-1").
Proof.
  split; [| split; [| split]].
  - induction calls as [| [clock d] calls IH]; intros w Hnd Hcalls; simpl;
      [exact Hnd |].
    inversion Hcalls as [| ? ? Hd Hrest]; subst. simpl in Hd.
    apply IH; [| exact Hrest].
    destruct (addProject_cases clock d w)
      as [-> | (n & p & d' & w' & _ & -> & Hid & Hps)]; simpl; [exact Hnd |].
    rewrite Hps. simpl.
    unfold assigned_id in Hid. rewrite Hd in Hid.
    destruct Hid as (k & _ & Hfree & _).
    constructor; [| exact Hnd].
    rewrite <- taken_In. congruence.
  - intros clock d w.
    destruct (addProject_cases clock d w)
      as [-> | (n & p & d' & w' & _ & -> & _)]; discriminate.
  - intros clock d w n g Hd Hn Hn' Hg Hg'.
    destruct (addProject_accepts clock d w n g Hn Hn' Hg Hg')
      as (id' & w' & Hrun & Hid & _).
    cbv zeta in Hrun. unfold assigned_id in Hid. rewrite Hd in Hid.
    destruct Hid as (k & -> & Hfree & Hbelow).
    eexists _, k. unfold added. rewrite Hrun. simpl.
    split; [reflexivity |]. split; [reflexivity |]. auto.
  - intros clock1 clock2 g1 g2 w Hg1 Hg2 Hfree0 Hfree1 d1 d2.
    destruct (addProject_accepts clock1 d1 w "My Project!" g1
                eq_refl ltac:(discriminate) eq_refl Hg1)
      as (id1 & w1 & Hrun1 & Hid1 & Hthis1).
    cbv zeta in Hrun1. unfold added. rewrite Hrun1. simpl.
    destruct Hid1 as (k1 & -> & Hf1 & Hb1).
    assert (k1 = 0%nat) as ->.
    { apply (first_free (projects (this w)) (baseId_of "My Project!")); auto.
      intros j Hj. lia. }
    destruct (addProject_accepts clock2 d2 w1 "My Project!" g2
                eq_refl ltac:(discriminate) eq_refl Hg2)
      as (id2 & w2 & Hrun2 & Hid2 & _).
    cbv zeta in Hrun2. rewrite Hrun2. simpl.
    destruct Hid2 as (k2 & -> & Hf2 & Hb2).
    assert (k2 = 1%nat) as ->.
    { apply (first_free (projects (this w1)) (baseId_of "My Project!")); auto.
      - rewrite Hthis1. simpl. exact Hfree1.
      - intros j Hj. assert (j = 0%nat) as -> by lia.
        rewrite Hthis1. reflexivity. }
    eexists _, _. split; [reflexivity |]. split; [reflexivity |].
    split; reflexivity.
Qed.

End WithEngine.

(** *** Concrete cases *)

(** The cases are run on [insertion_engine]. *)
Section Cases.
#[local] Existing Instance insertion_engine.

Lemma featured_first_display_witness :
  let A := project "a" false "2024-01-01" in
  let B := project "b" true "2023-01-01" in
  let C := project "c" false "2024-06-01" in
  events (snd (displayProjects (Some [A; B; C]) (page [A; B; C] true)))
  = [projectsDisplayed [B; C; A]].
Proof.
  cbv zeta.
  refine (proj2 (proj2 featured_first_display
                   (page _ true) Untouched
                   (project "a" false "2024-01-01")
                   (project "b" true "2023-01-01")
                   (project "c" false "2024-06-01") _
                   eq_refl eq_refl eq_refl eq_refl eq_refl eq_refl eq_refl
                   eq_refl _)).
  reflexivity.
Defined.

(** C5, as the claim states it, fails on a view with a creation date
    that cannot be read: the comparator then gives [NaN], it is not
    consistent, and the order is what the engine makes of it.  An engine
    that sorts by straight insertion leaves A (2023-01-01), B (no date
    that can be read), C (2024-06-01), none of them featured, in this
    order, the newer C after the older A. *)
Lemma unreadable_date_is_not_sorted :
  let A := project "a" false "2023-01-01" in
  let B := project "b" false "soon" in
  let C := project "c" false "2024-06-01" in
  let w' := snd (displayProjects (Some [A; B; C]) (page [A; B; C] true)) in
  events w' = [projectsDisplayed [A; B; C]]
  /\ grid w' = Some (Cards (markup [A; B; C]))
  /\ featured A = featured C
  /\ Date_parse (createdAt A) = Some 1672531200000
  /\ Date_parse (createdAt C) = Some 1717200000000
  /\ ~ StronglySorted featured_first [A; B; C].
Proof.
  cbv zeta. split; [vm_compute; reflexivity |].
  split; [vm_compute; reflexivity |].
  split; [reflexivity |]. split; [vm_compute; reflexivity |].
  split; [vm_compute; reflexivity |].
  intros Hs. inversion Hs as [| ? ? _ Hall]; subst.
  inversion Hall as [| ? ? _ Hrest]; subst.
  inversion Hrest as [| ? ? HAC _]; subst.
  destruct HAC as [[Hf _] | [_ Ht]]; [discriminate |].
  vm_compute in Ht. apply Ht. reflexivity.
Qed.

Lemma empty_filter_resets_view_witness :
  let catalog := [project "a" false "2024-01-01";
                  project "b" true "2023-01-01"] in
  let w' := snd (filterByLanguage (Some "") (page catalog false)) in
  filteredProjects (this w') = catalog
  /\ events w' = [projectsDisplayed catalog]
  /\ grid w' = Some (Cards (markup catalog)).
Proof.
  cbv zeta.
  destruct (empty_filter_resets_view
              (page [project "a" false "2024-01-01";
                     project "b" true "2023-01-01"] false)
              filterByLanguage (Some ""))
    as [(_ & _ & Hview & _ & Hshown) _].
  - right. right. left. reflexivity.
  - right. left. reflexivity.
  - cbv zeta in Hview, Hshown.
    destruct Hshown as (order & Hgrid & Hev & _ & Horder & _);
      [discriminate |].
    rewrite (Horder eq_refl) in Hgrid, Hev.
    split; [exact Hview |]. split; [exact Hev | exact Hgrid].
Defined.

(** C7, as the claim states it, fails where [showFeaturedFirst] is set:
    [searchProjects("")] makes the view the catalog A, B, C in its order,
    and what it displays is B, C, A. *)
Lemma empty_search_displays_featured_first :
  let A := project "a" false "2024-01-01" in
  let B := project "b" true "2023-01-01" in
  let C := project "c" false "2024-06-01" in
  let w' := snd (searchProjects (Some "") (page [A; B; C] true)) in
  filteredProjects (this w') = [A; B; C]
  /\ events w' = [projectsDisplayed [B; C; A]]
  /\ grid w' = Some (Cards (markup [B; C; A]))
  /\ [B; C; A] <> [A; B; C]
  /\ markup [B; C; A] <> markup [A; B; C].
Proof.
  cbv zeta. split; [vm_compute; reflexivity |].
  split; [vm_compute; reflexivity |].
  split; [vm_compute; reflexivity |].
  split; [discriminate |].
  vm_compute. discriminate.
Qed.

Lemma loadProjects_never_raises_witness :
  projects (this (snd (loadProjects
                         (Response 200 (Malformed (SyntaxError "Unexpected end of JSON input")))
                         (page [] false))))
  = [fallbackProject].
Proof.
  refine (proj1 (proj2 (proj2 (loadProjects_never_raises (page [] false) _)) _)).
  simpl. right. exact I.
Defined.

(** C3, as the claim states it, fails when the caller names the id: two
    calls with the id ["demo"] on the empty catalog both succeed and leave
    two projects with that id. *)
Lemma explicit_ids_are_not_checked :
  let d := input (Some "demo") (Some "Demo")
                 (Some "https://github.com/minngk/demo") in
  let w0 := page [] false in
  let w1 := snd (addProject noon d w0) in
  let w2 := snd (addProject noon d w1) in
  List.NoDup (map id (projects (this w0)))
  /\ option_map id (added (addProject noon d w0)) = Some "demo"
  /\ option_map id (added (addProject noon d w1)) = Some "demo"
  /\ map id (projects (this w2)) = ["demo"; "demo"]
  /\ ~ List.NoDup (map id (projects (this w2))).
Proof.
  cbv zeta.
  set (d := input (Some "demo") (Some "Demo")
                  (Some "https://github.com/minngk/demo")).
  assert (H : map id (projects (this
                (snd (addProject noon d
                        (snd (addProject noon d (page [] false)))))))
              = ["demo"; "demo"]) by (vm_compute; reflexivity).
  split; [constructor |].
  split; [vm_compute; reflexivity |].
  split; [vm_compute; reflexivity |].
  split; [exact H |].
  rewrite H. intros Hnd. inversion Hnd as [| ? ? Hin _]; subst.
  apply Hin. now left.
Qed.

(** The id that a call generates is written into the caller's object: a
    second call with the same object finds that id in it and takes it. *)
Example same_object_twice :
  let d := input None (Some "My Project!")
                 (Some "https://github.com/minngk/my-project") in
  match addProject noon d (page [] false) with
  | (Normal (p1, d'), w1) =>
      ProjectData.id d' = Some "my-project"
      /\ map id (projects (this (snd (addProject noon d' w1))))
         = ["my-project"; "my-project"]
  | _ => False
  end.
Proof. vm_compute. split; reflexivity. Qed.

Lemma generated_ids_stay_unique_witness :
  let d := input None (Some "My Project!")
                 (Some "https://github.com/minngk/my-project") in
  List.NoDup
    (map id (projects (this (add_all [(noon, d); (noon, d)]
                                     (page [fallbackProject] false))))).
Proof.
  cbv zeta.
  apply (proj1 generated_ids_stay_unique).
  - simpl. constructor; [intros [] | constructor].
  - repeat constructor.
Defined.

Lemma addProject_validation_witness :
  exists p,
    added (addProject noon
             (input None (Some "x") (Some "https://github.com/minngk/x"))
             (page [fallbackProject] false)) = Some p
    /\ projects (this (snd (addProject noon
             (input None (Some "x") (Some "https://github.com/minngk/x"))
             (page [fallbackProject] false)))) = [p; fallbackProject].
Proof.
  destruct (proj2 (proj2 (addProject_validation noon
                            (page [fallbackProject] false)
                            (input None (Some "x")
                                   (Some "https://github.com/minngk/x"))))
              "x" "https://github.com/minngk/x"
              eq_refl ltac:(discriminate) eq_refl ltac:(discriminate))
    as (p & Hrun & Hps & _).
  exists p. split; [exact Hrun | exact Hps].
Defined.

End Cases.

End ProjectsFacts.

(** ** The theme controller *)

Module ThemeFacts.
Import Theme.

Section WithBrowser.
Variable css_value : string -> string -> option string.

(** *** Writing a colour mapping onto the page *)

(** What one [setProperty] does to the property [p]: nothing ([None]),
    or it leaves [p] removed or set. *)
Definition effect (property value p : string) : option (option string) :=
  if String.eqb p property then
    if negb (truthy_string value) then Some None
    else match css_value property value with
         | Some kept => Some (Some kept)
         | None => None
         end
  else None.

(** The last effect on [p] of a sequence of entries. *)
Fixpoint final (entries : list (string * string)) (p : string)
  : option (option string) :=
  match entries with
  | [] => None
  | entry :: rest =>
      match final rest p with
      | Some o => Some o
      | None => effect ("--" ++ fst entry) (snd entry) p
      end
  end.

Lemma setProperty_lookup property value (style : gmap string string) p :
  setProperty css_value property value style !! p
  = match effect property value p with
    | Some o => o
    | None => style !! p
    end.
Proof.
  unfold setProperty, effect.
  destruct (String.eqb_spec p property) as [-> | Hne].
  - destruct (negb (truthy_string value)).
    + apply lookup_delete_eq.
    + destruct (css_value property value); [apply lookup_insert_eq | reflexivity].
  - destruct (negb (truthy_string value)).
    + now apply lookup_delete_ne.
    + destruct (css_value property value); [now apply lookup_insert_ne | reflexivity].
Qed.

Lemma apply_colors_lookup entries : forall (style : gmap string string) p,
  apply_colors css_value entries style !! p
  = match final entries p with
    | Some o => o
    | None => style !! p
    end.
Proof.
  induction entries as [| entry rest IH]; intros style p; [reflexivity |].
  unfold apply_colors in *. simpl. rewrite IH.
  destruct (final rest p); [reflexivity |].
  apply setProperty_lookup.
Qed.

(** Writing the same mapping once more changes nothing. *)
Lemma apply_colors_twice entries (style : gmap string string) :
  apply_colors css_value entries (apply_colors css_value entries style)
  = apply_colors css_value entries style.
Proof.
  apply map_eq. intros p. rewrite !apply_colors_lookup.
  destruct (final entries p); reflexivity.
Qed.

(** *** Applying a registered theme *)

Lemma has_space_theme n : has_space ("theme-" ++ n) = has_space n.
Proof. reflexivity. Qed.

(** The class of the body once [classList.add(token)] is done. *)
Definition class_after (token className : string) : string :=
  let tokens := ordered_set [] (split_spaces "" className) in
  String.concat " "
    (if existsb (String.eqb token) tokens then tokens
     else (tokens ++ [token])%list).

Lemma classList_add_ok token w :
  truthy_string token = true ->
  has_space token = false ->
  classList_add token w
  = (Normal tt,
     {| this := this w; root_style := root_style w;
        body_className := class_after token (body_className w);
        selector := selector w; storage := storage w;
        storage_refuses := storage_refuses w;
        events := events w; console := console w |}).
Proof.
  intros Ht Hs. unfold classList_add. rewrite Ht, Hs. reflexivity.
Qed.

Lemma saveTheme_ok n w :
  saveTheme n w
  = (Normal tt,
     {| this := this w; root_style := root_style w;
        body_className := body_className w;
        selector := selector w;
        storage := if storage_refuses w then storage w else Some n;
        storage_refuses := storage_refuses w;
        events := events w;
        console :=
          if storage_refuses w
          then (console w
                ++ [Warn "Failed to save theme:"
                         (Some (StorageError "QuotaExceededError"))])%list
          else console w |}).
Proof.
  unfold saveTheme, setItem, console_log. run_eff.
  destruct w as [t rs bc sel st refuses ev co]. simpl.
  destruct refuses; reflexivity.
Qed.

(** Reads the fields of the worlds written out in the goal. *)
Ltac flatten_world :=
  cbn [this root_style body_className selector storage storage_refuses
       events console themes currentTheme systemPreference].

Lemma applyTheme_registered n theme w :
  themes (this w) !! n = Some theme ->
  has_space n = false ->
  exists w',
    applyTheme css_value n w = (Normal tt, w')
    /\ this w' = {| themes := themes (this w); currentTheme := n;
                    systemPreference := systemPreference (this w) |}
    /\ root_style w' = apply_colors css_value (colors theme) (root_style w)
    /\ events w' = (events w ++ [themeChanged n (colors theme)])%list
    /\ storage_refuses w' = storage_refuses w
    /\ storage w' = if storage_refuses w then storage w else Some n.
Proof.
  intros Hreg Hsp.
  unfold applyTheme, updateThemeSelector,
    set_root_style, set_currentTheme, set_body_className, set_selector,
    set_this, dispatchEvent.
  run_eff. rewrite Hreg. cbv beta iota. flatten_world.
  match goal with
  | |- context [classList_add ?t ?w0] =>
      rewrite (classList_add_ok t w0 eq_refl Hsp)
  end.
  cbv beta iota. flatten_world.
  match goal with
  | |- context [saveTheme n ?w0] => rewrite (saveTheme_ok n w0)
  end.
  cbv beta iota. flatten_world.
  eexists. split; [reflexivity |]. flatten_world.
  repeat split; reflexivity.
Qed.

Lemma builtin_iff n :
  builtin n = true <-> In n ["cafe"; "dark"; "ocean"; "forest"].
Proof.
  unfold builtin. rewrite existsb_exists. split.
  - intros (x & Hx & He). apply String.eqb_eq in He. now subst.
  - intros H. exists n. split; [exact H | apply String.eqb_refl].
Qed.

Lemma addCustomTheme_exists n cs theme w :
  themes (this w) !! n = Some theme ->
  addCustomTheme n cs w
  = (Normal false,
     {| this := this w; root_style := root_style w;
        body_className := body_className w;
        selector := selector w; storage := storage w;
        storage_refuses := storage_refuses w;
        events := events w;
        console :=
          console w
          ++ [Warn ("Theme " ++ quoted n ++ " already exists") None] |}).
Proof.
  intros Hreg. unfold addCustomTheme, console_log. run_eff.
  now rewrite Hreg.
Qed.

(** C8: [removeCustomTheme] of one of the four built-in names returns
    [false] and changes neither the registry nor the active theme, nor
    anything of the page or of the storage; it writes one warning. *)
Theorem builtin_themes_are_protected :
  forall (w : World) (n : string),
    In n ["cafe"; "dark"; "ocean"; "forest"] ->
    let w' := snd (removeCustomTheme css_value n w) in
    fst (removeCustomTheme css_value n w) = Normal false
    /\ themes (this w') = themes (this w)
    /\ currentTheme (this w') = currentTheme (this w)
    /\ this w' = this w
    /\ root_style w' = root_style w
    /\ body_className w' = body_className w
    /\ selector w' = selector w
    /\ storage w' = storage w
    /\ events w' = events w
    /\ console w'
       = (console w
          ++ [Warn ("Cannot remove built-in theme " ++ quoted n) None])%list.
Proof.
  intros w n Hn. apply builtin_iff in Hn.
  unfold removeCustomTheme. rewrite Hn.
  unfold console_log. run_eff. simpl. repeat split; reflexivity.
Qed.

(** C4 (amended): where the theme [dark] is registered, [applyTheme]
    of it completes, and [exportTheme] then returns the object with the
    name ["dark"], the colour mapping of that theme and the time of the
    call as [timestamp].  [importTheme] of that object returns [true];
    after it and one more [applyTheme("dark")] the custom properties of
    the page are the ones the first [applyTheme] had left, the active
    theme is [dark] and the registry is as it was. *)
Theorem theme_round_trip :
  forall (w : World) (theme : ThemeDef) (now : Z),
    themes (this w) !! "dark" = Some theme ->
    let w1 := snd (applyTheme css_value "dark" w) in
    let exported :=
      {| ThemeData.name := Some "dark";
         ThemeData.colors := Some (colors theme);
         ThemeData.timestamp := Some now |} in
    let w2 := snd (importTheme css_value exported w1) in
    let w3 := snd (applyTheme css_value "dark" w2) in
    fst (applyTheme css_value "dark" w) = Normal tt
    /\ root_style w1 = apply_colors css_value (colors theme) (root_style w)
    /\ exportTheme now w1 = (Normal exported, w1)
    /\ fst (importTheme css_value exported w1) = Normal true
    /\ fst (applyTheme css_value "dark" w2) = Normal tt
    /\ root_style w2 = root_style w1
    /\ root_style w3 = root_style w1
    /\ currentTheme (this w3) = "dark"
    /\ themes (this w3) = themes (this w).
Proof.
  intros w theme now Hreg w1 exported w2 w3.
  destruct (applyTheme_registered "dark" theme w Hreg eq_refl)
    as (w1' & Hrun1 & Hthis1 & Hstyle1 & _).
  assert (Hw1 : w1 = w1') by (unfold w1; now rewrite Hrun1).
  clearbody w1. subst w1'.
  assert (Hreg1 : themes (this w1) !! "dark" = Some theme)
    by (rewrite Hthis1; exact Hreg).
  assert (Hexp : exportTheme now w1 = (Normal exported, w1)).
  { unfold exportTheme. run_eff. rewrite Hthis1. simpl.
    rewrite Hreg. reflexivity. }
  (* the import: the theme is there already, and is applied again *)
  pose proof (addCustomTheme_exists "dark" (colors theme) theme w1 Hreg1)
    as Hadd.
  match type of Hadd with
  | _ = (_, ?w0) => set (w1a := w0) in Hadd
  end.
  destruct (applyTheme_registered "dark" theme w1a Hreg1 eq_refl)
    as (w2' & Hrun2 & Hthis2 & Hstyle2 & _).
  assert (Himp : importTheme css_value exported w1 = (Normal true, w2')).
  { unfold importTheme, exported. simpl. run_eff.
    rewrite Hadd, Hrun2. reflexivity. }
  assert (Hw2 : w2 = w2') by (unfold w2; now rewrite Himp).
  clearbody w2. subst w2'.
  simpl in Hthis2, Hstyle2.
  assert (Hreg2 : themes (this w2) !! "dark" = Some theme)
    by (rewrite Hthis2; exact Hreg1).
  destruct (applyTheme_registered "dark" theme w2 Hreg2 eq_refl)
    as (w3' & Hrun3 & Hthis3 & Hstyle3 & _).
  assert (Hw3 : w3 = w3') by (unfold w3; now rewrite Hrun3).
  clearbody w3. subst w3'.
  assert (Hs2 : root_style w2 = root_style w1).
  { rewrite Hstyle2, Hstyle1. apply apply_colors_twice. }
  split; [now rewrite Hrun1 |].
  split; [exact Hstyle1 |].
  split; [exact Hexp |].
  split; [now rewrite Himp |].
  split; [now rewrite Hrun3 |].
  split; [exact Hs2 |].
  split.
  { rewrite Hstyle3, Hs2, Hstyle1. apply apply_colors_twice. }
  rewrite Hthis3. simpl.
  split; [reflexivity |].
  rewrite Hthis2. simpl. rewrite Hthis1. reflexivity.
Qed.

End WithBrowser.

(** A browser that keeps every value as it is given. *)
Definition keeps (property value : string) : option string := Some value.

(** The page when the script starts, for the concrete cases. *)
Definition start : World :=
  {| this := constructor; root_style := ∅; body_className := "";
     selector := []; storage := None; storage_refuses := false;
     events := []; console := [] |}.

Lemma builtin_themes_are_protected_witness :
  fst (removeCustomTheme keeps "cafe" start) = Normal false
  /\ this (snd (removeCustomTheme keeps "cafe" start)) = this start.
Proof.
  pose proof (builtin_themes_are_protected keeps start "cafe"
                ltac:(left; reflexivity)) as H.
  cbv zeta in H. destruct H as (Hr & _ & _ & Hthis & _).
  split; [exact Hr | exact Hthis].
Defined.

(** C4, as the claim states it, fails: the object exported is not the one
    with the two keys [name] and [colors] only, it has a [timestamp]. *)
Lemma export_carries_a_timestamp :
  let w1 := snd (applyTheme keeps "dark" start) in
  fst (exportTheme 1741521600000 w1)
  = Normal {| ThemeData.name := Some "dark";
              ThemeData.colors := Some (colors dark);
              ThemeData.timestamp := Some 1741521600000 |}
  /\ fst (exportTheme 1741521600000 w1)
     <> Normal {| ThemeData.name := Some "dark";
                  ThemeData.colors := Some (colors dark);
                  ThemeData.timestamp := None |}.
Proof.
  cbv zeta.
  assert (H : fst (exportTheme 1741521600000
                     (snd (applyTheme keeps "dark" start)))
              = Normal {| ThemeData.name := Some "dark";
                          ThemeData.colors := Some (colors dark);
                          ThemeData.timestamp := Some 1741521600000 |})
    by (vm_compute; reflexivity).
  split; [exact H |]. rewrite H. discriminate.
Qed.

Lemma theme_round_trip_witness :
  let w1 := snd (applyTheme keeps "dark" start) in
  let exported :=
    {| ThemeData.name := Some "dark";
       ThemeData.colors := Some (colors dark);
       ThemeData.timestamp := Some 1741521600000 |} in
  root_style (snd (applyTheme keeps "dark"
                     (snd (importTheme keeps exported w1))))
  = root_style w1.
Proof.
  pose proof (theme_round_trip keeps start dark 1741521600000 eq_refl) as H.
  cbv zeta in H. cbv zeta.
  exact (proj1 (proj2 (proj2 (proj2 (proj2 (proj2 (proj2 H))))))).
Defined.

End ThemeFacts.

(** * Further properties *)

(** ** The profile statistics client: the other methods *)

Module GitHubMore.
Import GitHub GitHubFacts.

Local Abbreviation bind_normal := ProjectsFacts.bind_normal.

Definition nullish (v : JsValue) : bool :=
  match v with
  | JUndefined | JNull => true
  | _ => false
  end.

(** [v.k], for a value that has properties. *)
Definition property (k : string) (v : JsValue) : JsValue :=
  match v with
  | JObject fields => field k fields
  | _ => JUndefined
  end.

Lemma prop_defined v k (w : World) :
  nullish v = false -> prop v k w = (Normal (property k v), w).
Proof. destruct v; simpl; intros H; try discriminate; reflexivity. Qed.

(** A counter or a text of a snapshot is the value of the reply when that
    is truthy, and the default otherwise. *)
Definition or_default (v d : JsValue) : Prop := truthy v = true \/ v = d.

Lemma js_or_default v d : or_default (js_or v d) d.
Proof.
  unfold or_default, js_or. destruct (truthy v) eqn:E; auto.
Qed.

Definition no_gaps (d : ProfileSnapshot) : Prop :=
  or_default (public_repos d) (JNum 0)
  /\ or_default (followers d) (JNum 0)
  /\ or_default (following d) (JNum 0)
  /\ or_default (avatar_url d) (JStr "")
  /\ or_default (bio d) (JStr "")
  /\ or_default (location d) (JStr "")
  /\ or_default (company d) (JStr "")
  /\ or_default (blog d) (JStr "")
  /\ or_default (created_at d) (JStr "").

(** The snapshot the script builds from the parsed body [v] of a reply:
    each field is the property of that name, or its default when the
    property is missing or falsy. *)
Definition snapshot_of (v : JsValue) : ProfileSnapshot :=
  {| public_repos := js_or (property "public_repos" v) (JNum 0);
     followers := js_or (property "followers" v) (JNum 0);
     following := js_or (property "following" v) (JNum 0);
     avatar_url := js_or (property "avatar_url" v) (JStr "");
     bio := js_or (property "bio" v) (JStr "");
     location := js_or (property "location" v) (JStr "");
     company := js_or (property "company" v) (JStr "");
     blog := js_or (property "blog" v) (JStr "");
     created_at := js_or (property "created_at" v) (JStr "") |}.

(** The parsed body of a reply that has one. *)
Definition body_of (r : FetchReply) : JsValue :=
  match r with
  | Response _ (Parsed v) => v
  | _ => JUndefined
  end.

Lemma snapshot_of_no_gaps v : no_gaps (snapshot_of v).
Proof. unfold no_gaps. simpl. repeat split; apply js_or_default. Qed.

(** A miss answered by a reply that does not fail: the snapshot is built
    from the body and stored with the time at which the reply was read. *)
Lemma fetch_miss_builds env w :
  isCacheValid (now env) (this w) = false ->
  fails (reply env) = false ->
  fetchUserData env w
  = (Normal (Some (snapshot_of (body_of (reply env)))),
     {| this := {| username := username (this w);
                   apiUrl := apiUrl (this w);
                   cache := {| data := Some (snapshot_of (body_of (reply env)));
                               timestamp := Some (now_after env);
                               ttl := ttl (cache (this w)) |} |};
        requests := requested w;
        console := console w |}).
Proof.
  intros Hv Hf. unfold fetchUserData, fetch, json, requested.
  run_eff. rewrite Hv.
  destruct (reply env) as [e | status body]; simpl in *; [discriminate |].
  destruct (ok status); simpl in *; [| discriminate].
  destruct body as [e | v]; simpl in *; [discriminate |].
  destruct v; simpl in *; try discriminate; reflexivity.
Qed.

Lemma fetch_miss_succeeds env w :
  isCacheValid (now env) (this w) = false ->
  fails (reply env) = false ->
  exists d,
    no_gaps d
    /\ fetchUserData env w
       = (Normal (Some d),
          {| this := {| username := username (this w);
                        apiUrl := apiUrl (this w);
                        cache := {| data := Some d;
                                    timestamp := Some (now_after env);
                                    ttl := ttl (cache (this w)) |} |};
             requests := requested w;
             console := console w |}).
Proof.
  intros Hv Hf. exists (snapshot_of (body_of (reply env))).
  split; [apply snapshot_of_no_gaps | now apply fetch_miss_builds].
Qed.



(** Whatever the cache and the reply, the call returns a snapshot. *)
Lemma fetchUserData_some env w :
  exists d w', fetchUserData env w = (Normal (Some d), w').
Proof.
  destruct (isCacheValid (now env) (this w)) eqn:Hv.
  - rewrite (fetch_hit env w Hv). revert Hv. unfold isCacheValid.
    destruct (data (cache (this w))) as [d |]; [eauto | discriminate].
  - destruct (fails (reply env)) eqn:Hf.
    + destruct (fetch_miss_fails env w Hv Hf) as (e & ->). eauto.
    + destruct (fetch_miss_succeeds env w Hv Hf) as (d & _ & ->). eauto.
Qed.

(** X2: a call that goes to the network never returns a gap.  In the
    snapshot it returns every counter is a truthy value or the number 0,
    and every text is a truthy value or the empty string: nothing is
    [undefined], [null] or [false]. *)
Theorem no_gaps_after_a_miss :
  forall (w : World) (env : Env),
    isCacheValid (now env) (this w) = false ->
    exists d,
      fst (fetchUserData env w) = Normal (Some d)
      /\ no_gaps d
      /\ forall f,
          In f [public_repos; followers; following; avatar_url; bio;
                location; company; blog; created_at] ->
          f d <> JUndefined /\ f d <> JNull /\ f d <> JBool false.
Proof.
  intros w env Hv.
  assert (H : exists d, fst (fetchUserData env w) = Normal (Some d) /\ no_gaps d).
  { destruct (fails (reply env)) eqn:Hf.
    - destruct (fetch_miss_fails env w Hv Hf) as (e & ->).
      exists fallback. split; [reflexivity |].
      unfold no_gaps, or_default. simpl. tauto.
    - destruct (fetch_miss_succeeds env w Hv Hf) as (d & Hd & ->).
      exists d. split; [reflexivity | exact Hd]. }
  destruct H as (d & Hrun & Hd). exists d.
  split; [exact Hrun |]. split; [exact Hd |].
  assert (Hor : forall v dflt,
             or_default v dflt -> dflt = JNum 0 \/ dflt = JStr "" ->
             v <> JUndefined /\ v <> JNull /\ v <> JBool false).
  { intros v dflt [Ht | ->] Hdflt.
    - repeat split; intros ->; discriminate.
    - destruct Hdflt as [-> | ->]; repeat split; discriminate. }
  destruct Hd as (H1 & H2 & H3 & H4 & H5 & H6 & H7 & H8 & H9).
  intros f Hf. simpl in Hf.
  destruct Hf as [<- | [<- | [<- | [<- | [<- | [<- | [<- | [<- | [<- | []]]]]]]]]];
    eapply Hor; eauto.
Qed.

Lemma no_gaps_after_a_miss_witness :
  exists d,
    fst (fetchUserData (at_time 5 reply_ok) fresh) = Normal (Some d)
    /\ bio d <> JNull.
Proof.
  destruct (no_gaps_after_a_miss fresh (at_time 5 reply_ok) eq_refl)
    as (d & Hrun & _ & Hall).
  exists d. split; [exact Hrun |].
  apply (Hall bio). simpl. tauto.
Defined.

(** *** Repositories *)

Lemma summary_defined repo (w : World) :
  nullish repo = false ->
  exists r,
    summary repo w = (Normal r, w)
    /\ Repo.name r = property "name" repo
    /\ Repo.html_url r = property "html_url" repo
    /\ or_default (Repo.description r) (JStr "")
    /\ or_default (Repo.topics r) (JArray []).
Proof.
  intros H. unfold summary.
  repeat (erewrite bind_normal; [| now apply prop_defined]).
  eexists. split; [reflexivity |]. simpl.
  repeat split; try reflexivity; apply js_or_default.
Qed.

Lemma summary_nullish repo (w : World) :
  nullish repo = true -> exists e, summary repo w = (Throw e, w).
Proof.
  intros H. destruct repo; try discriminate; eexists; reflexivity.
Qed.

Lemma map_summary_defined items (w : World) :
  forallb (fun v => negb (nullish v)) items = true ->
  exists l,
    map_summary items w = (Normal l, w)
    /\ map Repo.name l = map (property "name") items
    /\ Forall (fun r => or_default (Repo.description r) (JStr "")) l.
Proof.
  induction items as [| repo rest IH]; simpl; intros H.
  - exists []. repeat split. constructor.
  - apply andb_true_iff in H as [Hrepo Hrest].
    apply negb_true_iff in Hrepo.
    destruct (summary_defined repo w Hrepo) as (r & Hr & Hname & _ & Hdesc & _).
    destruct (IH Hrest) as (l & Hl & Hnames & Hdescs).
    exists (r :: l).
    rewrite (bind_normal _ _ _ _ _ Hr), (bind_normal _ _ _ _ _ Hl).
    split; [reflexivity |]. simpl. rewrite Hname, Hnames.
    split; [reflexivity | now constructor].
Qed.

Lemma map_summary_nullish items (w : World) :
  forallb (fun v => negb (nullish v)) items = false ->
  exists e, map_summary items w = (Throw e, w).
Proof.
  induction items as [| repo rest IH]; simpl; intros H; [discriminate |].
  destruct (nullish repo) eqn:Hrepo; simpl in H.
  - destruct (summary_nullish repo w Hrepo) as (e & He).
    exists e. unfold bind. now rewrite He.
  - destruct (summary_defined repo w Hrepo) as (r & Hr & _).
    destruct (IH H) as (e & He). exists e.
    rewrite (bind_normal _ _ _ _ _ Hr). unfold bind. now rewrite He.
Qed.

(** The array of a reply that [getRepositories] can map: the status is
    in 200-299, the body is an array and none of its elements is [null]. *)
Definition listing (r : FetchReply) : option (list JsValue) :=
  match r with
  | Response status (Parsed (JArray items)) =>
      if ok status && forallb (fun v => negb (nullish v)) items
      then Some items else None
  | _ => None
  end.

(** X3: [getRepositories] never raises and always sends one request, for
    the page and page size asked (1 and 30 by default).  On an array of
    repositories it returns one summary for each, in the order of the
    reply, with its name, and a description that is never missing; on any
    other reply (transport, status, parse, a body that is no array, a
    [null] element) it returns the empty array after one warning.  The
    client itself is left as it was. *)
Theorem getRepositories_best_effort :
  forall (w : World) (page perPage : option Z) (r : FetchReply),
    let w' := snd (getRepositories page perPage r w) in
    this w' = this w
    /\ requests w'
       = (requests w
          ++ [repos_url (username (this w)) (default 1 page)
                        (default 30 perPage)])%list
    /\ match listing r with
       | Some items =>
           exists l,
             fst (getRepositories page perPage r w) = Normal l
             /\ map Repo.name l = map (property "name") items
             /\ Forall (fun s => or_default (Repo.description s) (JStr "")) l
             /\ console w' = console w
       | None =>
           fst (getRepositories page perPage r w) = Normal []
           /\ exists e,
               console w'
               = (console w
                  ++ [Warn "Failed to fetch repositories:" (Some e)])%list
       end.
Proof.
  intros w page perPage r. cbv zeta.
  unfold getRepositories, fetch, json, console_warn, listing. run_eff.
  destruct r as [e | status [e | v]]; simpl;
    try (repeat split; eexists; reflexivity);
    try (destruct (ok status); simpl; repeat split; eexists; reflexivity).
  destruct (ok status); simpl.
  2: { destruct v; repeat split; eexists; reflexivity. }
  destruct v; simpl; try (repeat split; eexists; reflexivity).
  destruct (forallb (fun v => negb (nullish v)) items) eqn:Hall.
  - match goal with
    | |- context [map_summary items ?w0] =>
        destruct (map_summary_defined items w0 Hall) as (l & -> & Hn & Hd)
    end.
    simpl. split; [reflexivity |]. split; [reflexivity |].
    exists l. auto.
  - match goal with
    | |- context [map_summary items ?w0] =>
        destruct (map_summary_nullish items w0 Hall) as (e & ->)
    end.
    simpl. repeat split. eexists; reflexivity.
Qed.

(** X4: [checkRateLimit] never raises and sends one request.  It does
    not look at the status: whatever it is, a body that parses to a value
    other than [null] gives the [rate] of that value and no warning.  A
    rejected request, a body that does not parse and the body [null] give
    [null] after one warning. *)
Theorem checkRateLimit_best_effort :
  forall (w : World) (r : FetchReply),
    let w' := snd (checkRateLimit r w) in
    this w' = this w
    /\ requests w'
       = (requests w ++ ["https://api.github.com/rate_limit"])%list
    /\ match r with
       | Response _ (Parsed v) =>
           if nullish v then
             fst (checkRateLimit r w) = Normal JNull
             /\ length (console w') = S (length (console w))
           else
             fst (checkRateLimit r w) = Normal (property "rate" v)
             /\ console w' = console w
       | _ =>
           fst (checkRateLimit r w) = Normal JNull
           /\ length (console w') = S (length (console w))
       end.
Proof.
  intros w r. cbv zeta.
  unfold checkRateLimit, fetch, json, console_warn. run_eff.
  destruct r as [e | status body]; simpl.
  - rewrite length_app. simpl. repeat split; lia.
  - destruct body as [e | v]; simpl.
    + rewrite length_app. simpl. repeat split; lia.
    + destruct v; simpl; rewrite ?length_app; simpl; repeat split; lia.
Qed.

(** *** The statistics on the page *)

(** The counter [updateStats] shows in a slot, and the start of its
    count-up. *)
Definition counter (slot : Slot) (d : ProfileSnapshot) : JsValue :=
  match slot with
  | repos_count => public_repos d
  | followers_count => followers d
  | following_count => following d
  end.

Definition start (slot : Slot) (env : StatsEnv) : Z :=
  match slot with
  | repos_count => repos_start env
  | followers_count => followers_start env
  | following_count => following_start env
  end.

(** The count-up started for a slot: one when the page has the element
    and the counter is a number. *)
Definition count_up (p : Page) (d : ProfileSnapshot) (env : StatsEnv)
    (slot : Slot) : list (Slot * Z * Z) :=
  match textContent p slot, counter slot d with
  | Some _, JNum target => [(slot, target, start slot env)]
  | _, _ => []
  end.

(** What a slot shows once [updateStats] is done with the snapshot [d]. *)
Definition shows (p : Page) (d : ProfileSnapshot) (slot : Slot)
  : option JsValue :=
  match textContent p slot with
  | None => None
  | Some _ =>
      match counter slot d with
      | JNum _ => Some (JStr "...")
      | v => Some v
      end
  end.

(** The steps of [updateStats], as functions of the page. *)
Definition write (slot : Slot) (v : JsValue) (p : Page) : Page :=
  {| world := world p;
     textContent := fun s => if slot_eqb s slot then Some v else textContent p s;
     counting := counting p; dispatched := dispatched p |}.

Definition shown_in (slot : Slot) (v : JsValue) (p : Page) : Page :=
  match textContent p slot with
  | Some _ => write slot v p
  | None => p
  end.

Definition animated (slot : Slot) (v : JsValue) (t : Z) (p : Page) : Page :=
  match textContent p slot with
  | Some _ =>
      match v with
      | JNum target =>
          {| world := world p; textContent := textContent p;
             counting := counting p ++ [(slot, target, t)];
             dispatched := dispatched p |}
      | _ => write slot v p
      end
  | None => p
  end.

Lemma show_if_present_eq slot v p :
  show_if_present slot v p = (Normal tt, shown_in slot v p).
Proof.
  unfold show_if_present, shown_in, set_textContent, write. run_eff.
  destruct (textContent p slot); reflexivity.
Qed.

Lemma animate_if_present_eq slot d f t p :
  animate_if_present slot (Some d) f t p = (Normal tt, animated slot (f d) t p).
Proof.
  unfold animate_if_present, animated, animateNumber, set_textContent, write.
  run_eff. destruct (textContent p slot); [| reflexivity].
  destruct (f d); reflexivity.
Qed.

Lemma slot_eqb_eq a b : slot_eqb a b = true -> a = b.
Proof. destruct a, b; simpl; intros H; try discriminate; reflexivity. Qed.

Lemma world_shown_in slot v p : world (shown_in slot v p) = world p.
Proof. unfold shown_in. destruct (textContent p slot); reflexivity. Qed.

Lemma counting_shown_in slot v p : counting (shown_in slot v p) = counting p.
Proof. unfold shown_in. destruct (textContent p slot); reflexivity. Qed.

Lemma dispatched_shown_in slot v p :
  dispatched (shown_in slot v p) = dispatched p.
Proof. unfold shown_in. destruct (textContent p slot); reflexivity. Qed.

Lemma text_shown_in slot v p s :
  textContent (shown_in slot v p) s
  = if slot_eqb s slot
    then match textContent p slot with Some _ => Some v | None => None end
    else textContent p s.
Proof.
  unfold shown_in, write.
  destruct (textContent p slot) eqn:E; simpl; [reflexivity |].
  destruct (slot_eqb s slot) eqn:Es; [| reflexivity].
  apply slot_eqb_eq in Es. now subst.
Qed.

Lemma world_animated slot v t p : world (animated slot v t p) = world p.
Proof.
  unfold animated. destruct (textContent p slot); [| reflexivity].
  destruct v; reflexivity.
Qed.

Lemma dispatched_animated slot v t p :
  dispatched (animated slot v t p) = dispatched p.
Proof.
  unfold animated. destruct (textContent p slot); [| reflexivity].
  destruct v; reflexivity.
Qed.

Lemma counting_animated slot v t p :
  counting (animated slot v t p)
  = (counting p
     ++ match textContent p slot, v with
        | Some _, JNum target => [(slot, target, t)]
        | _, _ => []
        end)%list.
Proof.
  unfold animated. destruct (textContent p slot); [| now rewrite app_nil_r].
  destruct v; simpl; rewrite ?app_nil_r; reflexivity.
Qed.

Lemma text_animated slot v t p s :
  textContent (animated slot v t p) s
  = if slot_eqb s slot
    then match textContent p slot with
         | Some old => match v with JNum _ => Some old | _ => Some v end
         | None => None
         end
    else textContent p s.
Proof.
  unfold animated, write.
  destruct (textContent p slot) eqn:E.
  - destruct (slot_eqb s slot) eqn:Es.
    + apply slot_eqb_eq in Es. subst.
      destruct v; simpl; rewrite ?E;
        try reflexivity; destruct slot; reflexivity.
    + destruct v; simpl; rewrite ?Es; reflexivity.
  - destruct (slot_eqb s slot) eqn:Es; [| reflexivity].
    apply slot_eqb_eq in Es. now subst.
Qed.

Lemma on_world_eq {A} (m : Eff World A) p r w' :
  m (world p) = (r, w') ->
  on_world m p
  = (r, {| world := w'; textContent := textContent p;
           counting := counting p; dispatched := dispatched p |}).
Proof. intros H. unfold on_world. now rewrite H. Qed.

Lemma updateStats_with p env d w' :
  fetchUserData (fetch_env env) (world p) = (Normal (Some d), w') ->
  exists p',
    updateStats env p = (Normal tt, p')
    /\ world p' = w'
    /\ dispatched p' = (dispatched p ++ [Some d])%list
    /\ counting p'
       = (counting p ++ count_up p d env repos_count
          ++ count_up p d env followers_count
          ++ count_up p d env following_count)%list
    /\ forall slot, textContent p' slot = shows p d slot.
Proof.
  intros Hrun. unfold updateStats.
  rewrite (bind_normal _ _ _ _ _ (show_if_present_eq _ _ _)).
  rewrite (bind_normal _ _ _ _ _ (show_if_present_eq _ _ _)).
  rewrite (bind_normal _ _ _ _ _ (show_if_present_eq _ _ _)).
  set (p3 := shown_in following_count (JStr "...")
               (shown_in followers_count (JStr "...")
                  (shown_in repos_count (JStr "...") p))).
  assert (Hw3 : world p3 = world p).
  { unfold p3. now rewrite !world_shown_in. }
  assert (Hc3 : counting p3 = counting p).
  { unfold p3. now rewrite !counting_shown_in. }
  assert (Hd3 : dispatched p3 = dispatched p).
  { unfold p3. now rewrite !dispatched_shown_in. }
  assert (Ht3 : forall s,
             textContent p3 s
             = match textContent p s with
               | Some _ => Some (JStr "...")
               | None => None
               end).
  { intros s. unfold p3. rewrite !text_shown_in.
    destruct s; cbn [slot_eqb]; rewrite ?text_shown_in; cbn [slot_eqb];
      rewrite ?text_shown_in; cbn [slot_eqb]; reflexivity. }
  clearbody p3.
  unfold try_catch.
  rewrite (bind_normal _ _ _ _ _
             (on_world_eq (fetchUserData (fetch_env env)) p3 _ w'
                ltac:(rewrite Hw3; exact Hrun))).
  set (p4 := {| world := w'; textContent := textContent p3;
                counting := counting p3; dispatched := dispatched p3 |}).
  rewrite (bind_normal _ _ _ _ _ (animate_if_present_eq _ _ _ _ _)).
  rewrite (bind_normal _ _ _ _ _ (animate_if_present_eq _ _ _ _ _)).
  rewrite (bind_normal _ _ _ _ _ (animate_if_present_eq _ _ _ _ _)).
  unfold modify. eexists. split; [reflexivity |].
  cbn [world textContent counting dispatched].
  rewrite !world_animated, !dispatched_animated, !counting_animated.
  unfold p4. cbn [world textContent counting dispatched].
  rewrite Hc3, Hd3.
  split; [reflexivity |]. split; [reflexivity |].
  split.
  - rewrite !text_animated. cbn [slot_eqb textContent].
    rewrite !Ht3. unfold count_up, counter, start.
    rewrite <- !app_assoc.
    destruct (textContent p repos_count), (textContent p followers_count),
      (textContent p following_count);
      destruct (public_repos d), (followers d), (following d); reflexivity.
  - intros slot. rewrite !text_animated. cbn [textContent].
    unfold shows, counter.
    destruct slot; cbn [slot_eqb]; rewrite !Ht3;
      match goal with
      | |- context [textContent p ?s] => destruct (textContent p s)
      end;
      try reflexivity;
      match goal with
      | |- context [match ?f d with _ => _ end] => destruct (f d)
      end; reflexivity.
Qed.

(** X5: [updateStats] never raises and announces what it shows.  It
    dispatches exactly one [githubDataLoaded] event, with the snapshot
    [fetchUserData] returned, and does to the client what that call does.
    A slot the page lacks stays absent; a slot whose counter is a number
    is left showing ["..."] with one count-up started towards the number;
    a slot whose counter is not a number shows the counter itself. *)
Theorem updateStats_reports :
  forall (p : Page) (env : StatsEnv),
    let p' := snd (updateStats env p) in
    exists d,
      fst (fetchUserData (fetch_env env) (world p)) = Normal (Some d)
      /\ fst (updateStats env p) = Normal tt
      /\ world p' = snd (fetchUserData (fetch_env env) (world p))
      /\ dispatched p' = (dispatched p ++ [Some d])%list
      /\ counting p'
         = (counting p ++ count_up p d env repos_count
            ++ count_up p d env followers_count
            ++ count_up p d env following_count)%list
      /\ forall slot,
          textContent p' slot
          = match textContent p slot with
            | None => None
            | Some _ =>
                match counter slot d with
                | JNum _ => Some (JStr "...")
                | shown => Some shown
                end
            end.
Proof.
  intros p env. cbv zeta.
  destruct (fetchUserData_some (fetch_env env) (world p)) as (d & w' & Hrun).
  destruct (updateStats_with p env d w' Hrun)
    as (p' & -> & Hw & Hd & Hc & Ht).
  exists d. rewrite Hrun. simpl. auto 7.
Qed.

(** X6: a failed fetch is shown as question marks.  When the call goes
    to the network and the reply fails, every slot of the page shows
    ["?"], no count-up is started, the event carries the sentinel
    snapshot, and the only console output is the warning of
    [fetchUserData]. *)
Theorem updateStats_shows_question_marks :
  forall (p : Page) (env : StatsEnv),
    isCacheValid (now (fetch_env env)) (this (world p)) = false ->
    fails (reply (fetch_env env)) = true ->
    let p' := snd (updateStats env p) in
    fst (updateStats env p) = Normal tt
    /\ (forall slot,
          textContent p slot <> None ->
          textContent p' slot = Some (JStr "?"))
    /\ (forall slot, textContent p slot = None -> textContent p' slot = None)
    /\ counting p' = counting p
    /\ dispatched p' = (dispatched p ++ [Some fallback])%list
    /\ length (console (world p')) = S (length (console (world p))).
Proof.
  intros p env Hv Hf. cbv zeta.
  destruct (fetch_miss_fails (fetch_env env) (world p) Hv Hf) as (e & Hrun).
  destruct (updateStats_with p env fallback _ Hrun)
    as (p' & -> & Hw & Hd & Hc & Ht).
  simpl. split; [reflexivity |].
  split.
  { intros slot Hs. rewrite Ht. unfold shows.
    destruct (textContent p slot); [| contradiction].
    destruct slot; reflexivity. }
  split.
  { intros slot Hs. rewrite Ht. unfold shows. now rewrite Hs. }
  split.
  { rewrite Hc. unfold count_up.
    destruct (textContent p repos_count), (textContent p followers_count),
      (textContent p following_count); simpl; now rewrite app_nil_r. }
  split; [exact Hd |].
  rewrite Hw. simpl. rewrite length_app. simpl. lia.
Qed.

(** A page with its three slots, showing nothing yet. *)
Definition blank_page (w : World) : Page :=
  {| world := w; textContent := fun _ => Some (JStr "");
     counting := []; dispatched := [] |}.

Definition stats_at (t : Z) (r : FetchReply) : StatsEnv :=
  {| fetch_env := at_time t r; repos_start := t + 41;
     followers_start := t + 41; following_start := t + 42 |}.

Lemma updateStats_shows_question_marks_witness :
  textContent
    (snd (updateStats (stats_at 7 (Rejected (NetworkError "offline")))
                      (blank_page fresh)))
    followers_count
  = Some (JStr "?").
Proof.
  refine (proj1 (proj2 (updateStats_shows_question_marks
                          (blank_page fresh)
                          (stats_at 7 (Rejected (NetworkError "offline")))
                          eq_refl eq_refl))
            followers_count _).
  discriminate.
Defined.

End GitHubMore.

(** ** The project catalog: further properties *)

Module ProjectsMore.
Import Projects ProjectsFacts.

Local Arguments Ascii.eqb : simpl never.
Local Arguments is_lower_or_digit : simpl never.

(** *** The shape of a generated id *)

Fixpoint string_forallb (P : ascii -> bool) (s : string) : bool :=
  match s with
  | EmptyString => true
  | String c s' => P c && string_forallb P s'
  end.

(** A lower-case letter, a digit or a dash. *)
Definition slug_char (c : ascii) : bool := is_lower_or_digit c || Ascii.eqb c "-".

Definition starts_with_dash (s : string) : bool :=
  match s with
  | String c _ => Ascii.eqb c "-"
  | EmptyString => false
  end.

Fixpoint ends_with_dash (s : string) : bool :=
  match s with
  | EmptyString => false
  | String c EmptyString => Ascii.eqb c "-"
  | String _ s' => ends_with_dash s'
  end.

Fixpoint has_double_dash (s : string) : bool :=
  match s with
  | EmptyString => false
  | String c s' => (Ascii.eqb c "-" && starts_with_dash s') || has_double_dash s'
  end.

(** Only slug characters, no dash at either end, no two dashes in a row. *)
Definition is_slug (s : string) : bool :=
  string_forallb slug_char s
  && negb (starts_with_dash s)
  && negb (ends_with_dash s)
  && negb (has_double_dash s).

Lemma forallb_cons P c s :
  string_forallb P (String c s) = P c && string_forallb P s.
Proof. reflexivity. Qed.

Lemma double_cons c s :
  has_double_dash (String c s)
  = (Ascii.eqb c "-" && starts_with_dash s) || has_double_dash s.
Proof. reflexivity. Qed.

Lemma collapse_cons c s :
  collapse_dashes (String c s)
  = if Ascii.eqb c "-" && starts_with_dash s then collapse_dashes s
    else String c (collapse_dashes s).
Proof.
  destruct s as [| c' s']; simpl.
  - rewrite andb_false_r. now destruct (Ascii.eqb c "-").
  - destruct (Ascii.eqb c "-"), (Ascii.eqb c' "-"); reflexivity.
Qed.

Lemma drop_trailing_cons c s :
  drop_trailing_dash (String c s)
  = match s with
    | EmptyString => if Ascii.eqb c "-" then EmptyString else String c EmptyString
    | _ => String c (drop_trailing_dash s)
    end.
Proof. destruct s; reflexivity. Qed.

Lemma ends_cons c s :
  ends_with_dash (String c s)
  = match s with
    | EmptyString => Ascii.eqb c "-"
    | _ => ends_with_dash s
    end.
Proof. destruct s; reflexivity. Qed.

Local Arguments collapse_dashes : simpl never.
Local Arguments drop_trailing_dash : simpl never.
Local Arguments ends_with_dash : simpl never.
Local Arguments has_double_dash : simpl never.
Local Arguments string_forallb : simpl never.

Lemma dash_others_chars s : string_forallb slug_char (dash_others s) = true.
Proof.
  induction s as [| c s IH]; [reflexivity |].
  simpl dash_others. rewrite forallb_cons, IH, andb_true_r. unfold slug_char.
  destruct (is_lower_or_digit c) eqn:E; [now rewrite E | reflexivity].
Qed.

Lemma collapse_head s :
  starts_with_dash (collapse_dashes s) = starts_with_dash s.
Proof.
  induction s as [| c s IH]; [reflexivity |].
  rewrite collapse_cons.
  destruct (Ascii.eqb c "-") eqn:Ec, (starts_with_dash s) eqn:Es; simpl;
    rewrite ?IH, ?Ec; auto.
Qed.

Lemma collapse_chars s :
  string_forallb slug_char s = true ->
  string_forallb slug_char (collapse_dashes s) = true.
Proof.
  induction s as [| c s IH]; [reflexivity |].
  rewrite collapse_cons, forallb_cons. intros H.
  apply andb_true_iff in H as [Hc Hs].
  destruct (Ascii.eqb c "-" && starts_with_dash s); [now apply IH |].
  rewrite forallb_cons, Hc. now apply IH.
Qed.

Lemma collapse_no_double s : has_double_dash (collapse_dashes s) = false.
Proof.
  induction s as [| c s IH]; [reflexivity |].
  rewrite collapse_cons.
  destruct (Ascii.eqb c "-" && starts_with_dash s) eqn:E; [exact IH |].
  now rewrite double_cons, IH, collapse_head, E.
Qed.

Lemma drop_leading_chars s :
  string_forallb slug_char s = true ->
  string_forallb slug_char (drop_leading_dash s) = true.
Proof.
  destruct s as [| c s]; [reflexivity |].
  simpl drop_leading_dash. rewrite forallb_cons. intros H.
  destruct (Ascii.eqb c "-"); [| now rewrite forallb_cons].
  now apply andb_true_iff in H as [_ H].
Qed.

Lemma drop_leading_no_double s :
  has_double_dash s = false -> has_double_dash (drop_leading_dash s) = false.
Proof.
  destruct s as [| c s]; [reflexivity |].
  simpl drop_leading_dash. rewrite double_cons. intros H.
  destruct (Ascii.eqb c "-") eqn:Ec; [| now rewrite double_cons, Ec].
  now apply orb_false_iff in H as [_ H].
Qed.

Lemma drop_leading_head s :
  has_double_dash s = false -> starts_with_dash (drop_leading_dash s) = false.
Proof.
  destruct s as [| c s]; [reflexivity |].
  simpl drop_leading_dash. rewrite double_cons. intros H.
  destruct (Ascii.eqb c "-") eqn:Ec.
  - now apply orb_false_iff in H as [H _].
  - simpl. exact Ec.
Qed.

Lemma drop_trailing_chars s :
  string_forallb slug_char s = true ->
  string_forallb slug_char (drop_trailing_dash s) = true.
Proof.
  induction s as [| c s IH]; [reflexivity |].
  rewrite drop_trailing_cons, forallb_cons. intros H.
  apply andb_true_iff in H as [Hc Hs].
  destruct s as [| c' s'].
  - destruct (Ascii.eqb c "-"); [reflexivity |].
    now rewrite forallb_cons, Hc.
  - rewrite forallb_cons, Hc. now apply IH.
Qed.

Lemma drop_trailing_head s :
  starts_with_dash s = false -> starts_with_dash (drop_trailing_dash s) = false.
Proof.
  destruct s as [| c s]; [reflexivity |].
  rewrite drop_trailing_cons. simpl. intros H.
  destruct s; [now rewrite H |]. exact H.
Qed.

Lemma drop_trailing_no_double s :
  has_double_dash s = false -> has_double_dash (drop_trailing_dash s) = false.
Proof.
  induction s as [| c s IH]; [reflexivity |].
  rewrite drop_trailing_cons, double_cons. intros H.
  apply orb_false_iff in H as [Hc Hs].
  destruct s as [| c' s'].
  - destruct (Ascii.eqb c "-") eqn:Ec; [reflexivity |].
    now rewrite double_cons, Ec.
  - rewrite double_cons, (IH Hs), orb_false_r.
    destruct (Ascii.eqb c "-"); [| reflexivity].
    simpl in Hc. now apply drop_trailing_head.
Qed.

Lemma drop_trailing_end s :
  has_double_dash s = false -> ends_with_dash (drop_trailing_dash s) = false.
Proof.
  induction s as [| c s IH]; [reflexivity |].
  rewrite drop_trailing_cons, double_cons. intros H.
  apply orb_false_iff in H as [Hc Hs].
  destruct s as [| c' s'].
  - destruct (Ascii.eqb c "-") eqn:Ec; [reflexivity |].
    now rewrite ends_cons, Ec.
  - specialize (IH Hs). rewrite ends_cons.
    destruct (drop_trailing_dash (String c' s')) as [| d rest] eqn:E;
      [| exact IH].
    (* what is left of the rest is empty: the rest was one dash *)
    rewrite drop_trailing_cons in E.
    destruct s'; [| discriminate].
    destruct (Ascii.eqb c' "-") eqn:Ec'; [| discriminate].
    simpl in Hc. now rewrite Ec', andb_true_r in Hc.
Qed.

(** Stripping the dashes at the ends of a string of slug characters
    without two dashes in a row. *)
Lemma strip_dashes_shape c :
  string_forallb slug_char c = true ->
  has_double_dash c = false ->
  string_forallb slug_char (strip_dashes c) = true
  /\ starts_with_dash (strip_dashes c) = false
  /\ ends_with_dash (strip_dashes c) = false
  /\ has_double_dash (strip_dashes c) = false.
Proof.
  intros Hchars Hdouble. unfold strip_dashes.
  split; [now apply drop_trailing_chars, drop_leading_chars |].
  split; [now apply drop_trailing_head, drop_leading_head |].
  split; [now apply drop_trailing_end, drop_leading_no_double |].
  now apply drop_trailing_no_double, drop_leading_no_double.
Qed.

(** X7: the id derived from a name is a slug, whatever the name: it is
    made of lower-case letters, digits and dashes only, it neither starts
    nor ends with a dash, and it has no two dashes in a row. *)
Theorem baseId_is_slug :
  forall name' : string,
    let s := baseId_of name' in
    string_forallb slug_char s = true
    /\ starts_with_dash s = false
    /\ ends_with_dash s = false
    /\ has_double_dash s = false.
Proof.
  intros name'. cbv zeta. unfold baseId_of.
  apply strip_dashes_shape.
  - apply collapse_chars, dash_others_chars.
  - apply collapse_no_double.
Qed.

Lemma slug_char_lower c : slug_char c = true -> lower_char c = c.
Proof.
  unfold slug_char, lower_char. intros H.
  assert (Hup : is_upper c = false).
  { apply orb_true_iff in H as [H | H].
    - revert H. unfold is_lower_or_digit, is_upper.
      set (n := nat_of_ascii c).
      destruct (Nat.leb_spec 97 n), (Nat.leb_spec n 122),
        (Nat.leb_spec 48 n), (Nat.leb_spec n 57),
        (Nat.leb_spec 65 n), (Nat.leb_spec n 90);
        simpl; intros; try reflexivity; try discriminate; lia.
    - apply Ascii.eqb_eq in H. now subst. }
  now rewrite Hup.
Qed.

Lemma slug_char_kept c :
  slug_char c = true -> (if is_lower_or_digit c then c else "-"%char) = c.
Proof.
  unfold slug_char. destruct (is_lower_or_digit c); [reflexivity |].
  simpl. intros H. apply Ascii.eqb_eq in H. now subst.
Qed.

Lemma toLowerCase_slug s :
  string_forallb slug_char s = true -> toLowerCase s = s.
Proof.
  induction s as [| c s IH]; [reflexivity |].
  rewrite forallb_cons. intros H. apply andb_true_iff in H as [Hc Hs].
  simpl. now rewrite (slug_char_lower c Hc), IH.
Qed.

Lemma dash_others_slug s :
  string_forallb slug_char s = true -> dash_others s = s.
Proof.
  induction s as [| c s IH]; [reflexivity |].
  rewrite forallb_cons. intros H. apply andb_true_iff in H as [Hc Hs].
  simpl. now rewrite (slug_char_kept c Hc), IH.
Qed.

Lemma collapse_slug s : has_double_dash s = false -> collapse_dashes s = s.
Proof.
  induction s as [| c s IH]; [reflexivity |].
  rewrite double_cons, collapse_cons. intros H.
  apply orb_false_iff in H as [-> Hs]. now rewrite IH.
Qed.

Lemma drop_trailing_slug s :
  ends_with_dash s = false -> drop_trailing_dash s = s.
Proof.
  induction s as [| c s IH]; [reflexivity |].
  rewrite ends_cons, drop_trailing_cons.
  destruct s as [| c' s']; [now intros -> |].
  intros H. now rewrite IH.
Qed.

(** X8: a slug is its own id.  The id derived from a name that is a slug
    already is that name; hence deriving the id of a derived id changes
    nothing. *)
Theorem baseId_of_slug :
  (forall s : string, is_slug s = true -> baseId_of s = s)
  /\ (forall name' : string,
        baseId_of (baseId_of name') = baseId_of name').
Proof.
  assert (H : forall s,
             string_forallb slug_char s = true ->
             starts_with_dash s = false ->
             ends_with_dash s = false ->
             has_double_dash s = false ->
             baseId_of s = s).
  { intros s Hc Hs He Hd. unfold baseId_of, strip_dashes.
    rewrite (toLowerCase_slug s Hc), (dash_others_slug s Hc),
      (collapse_slug s Hd).
    assert (Hl : drop_leading_dash s = s).
    { destruct s as [| c s']; [reflexivity |]. simpl in *. now rewrite Hs. }
    rewrite Hl. now apply drop_trailing_slug. }
  split.
  - intros s Hs. unfold is_slug in Hs.
    repeat (apply andb_true_iff in Hs as [Hs ?]).
    apply H; auto; now apply negb_true_iff.
  - intros name'.
    destruct (strip_dashes_shape
                (collapse_dashes (dash_others (toLowerCase name'))))
      as (Hc & Hs & He & Hd).
    + apply collapse_chars, dash_others_chars.
    + apply collapse_no_double.
    + now apply H.
Qed.

Lemma baseId_of_slug_witness : baseId_of "my-project-2" = "my-project-2".
Proof. apply (proj1 baseId_of_slug). vm_compute. reflexivity. Defined.

(** What follows holds on every engine. *)
Section WithEngine.
Context {engine : Engine}.

(** *** Looking a project up *)

(** X9: an added project is the one found under its id.  After a call of
    [addProject] that returns, [getProject] of the id of the new project
    gives that project, also when an older project has the same id, and
    every other id is found as before. *)
Theorem getProject_after_addProject :
  forall (clock : Clock) (d : ProjectData.t) (w : World) (p : Project),
    added (addProject clock d w) = Some p ->
    let w' := snd (addProject clock d w) in
    getProject (id p) (this w') = Some p
    /\ forall i, i <> id p -> getProject i (this w') = getProject i (this w).
Proof.
  intros clock d w p Hadd. cbv zeta. unfold added in Hadd.
  destruct (addProject_cases clock d w)
    as [Hrej | (n & q & d' & w' & _ & Hrun & _ & Hps)].
  - rewrite Hrej in Hadd. discriminate.
  - rewrite Hrun in Hadd. simpl in Hadd. injection Hadd as ->.
    rewrite Hrun. simpl. unfold getProject. rewrite Hps. simpl.
    rewrite String.eqb_refl. split; [reflexivity |].
    intros i Hi. destruct (String.eqb_spec (id p) i); congruence.
Qed.

(** *** Saving and restoring *)

Lemma saveToLocalStorage_eq clock w :
  saveToLocalStorage clock w
  = (Normal tt,
     {| this := this w; grid := grid w; events := events w;
        console :=
          if storage_refuses w
          then (console w
                ++ [Warn "Failed to save to localStorage:"
                         (Some (StorageError "QuotaExceededError"))])%list
          else console w;
        storage :=
          if storage_refuses w then storage w
          else Some (StoredData (projects (this w)) (settings (this w))
                                (now_ms clock));
        storage_refuses := storage_refuses w |}).
Proof.
  unfold saveToLocalStorage, setItem, console_log. run_eff.
  destruct w as [t g ev co st refuses]. simpl.
  destruct refuses; reflexivity.
Qed.

(** The projects of [l] whose id is not among those of [saved]. *)
Definition not_saved (saved l : list Project) : list Project :=
  List.filter (fun p => negb (existsb (String.eqb (id p)) (map id saved))) l.

Lemma loadFromLocalStorage_data w saved ss ts :
  storage w = Some (StoredData saved ss ts) ->
  loadFromLocalStorage w
  = (Normal true,
     {| this := {| projects := saved ++ not_saved saved (projects (this w));
                   filteredProjects :=
                     saved ++ not_saved saved (projects (this w));
                   settings := settings (this w);
                   isLoaded := isLoaded (this w) |};
        grid := grid w; events := events w; console := console w;
        storage := storage w; storage_refuses := storage_refuses w |}).
Proof.
  intros Hst. destruct w as [t g ev co st refuses]. simpl in Hst. subst st.
  reflexivity.
Qed.

Lemma existsb_id_In (i : string) (l : list Project) :
  existsb (String.eqb i) (map id l) = true <-> In i (map id l).
Proof.
  rewrite existsb_exists. split.
  - intros (x & Hx & He). apply String.eqb_eq in He. now subst.
  - intros H. exists i. split; [exact H | apply String.eqb_refl].
Qed.

Lemma not_saved_self l : not_saved l l = [].
Proof.
  unfold not_saved.
  assert (H : forall l', (forall p, In p l' -> In (id p) (map id l)) ->
              List.filter
                (fun p => negb (existsb (String.eqb (id p)) (map id l))) l'
              = []).
  { induction l' as [| p l' IH]; intros Hin; [reflexivity |]. simpl.
    assert (E : existsb (String.eqb (id p)) (map id l) = true).
    { apply existsb_id_In, Hin. now left. }
    rewrite E. simpl. apply IH. intros q Hq. apply Hin. now right. }
  apply H. intros p Hp. now apply in_map.
Qed.

(** X10: what is saved is what is restored.  When the storage takes the
    write, [saveToLocalStorage] stores the catalog with the settings and
    the time, and a [loadFromLocalStorage] that follows returns [true] and
    leaves the catalog as it is, with the whole catalog as the view.
    When the storage refuses, saving changes nothing but the console. *)
Theorem save_then_load :
  forall (clock : Clock) (w : World),
    let w1 := snd (saveToLocalStorage clock w) in
    let w2 := snd (loadFromLocalStorage w1) in
    fst (saveToLocalStorage clock w) = Normal tt
    /\ this w1 = this w
    /\ (storage_refuses w = false ->
        storage w1
        = Some (StoredData (projects (this w)) (settings (this w))
                           (now_ms clock))
        /\ fst (loadFromLocalStorage w1) = Normal true
        /\ projects (this w2) = projects (this w)
        /\ filteredProjects (this w2) = projects (this w)
        /\ console w2 = console w)
    /\ (storage_refuses w = true ->
        storage w1 = storage w
        /\ length (console w1) = S (length (console w))).
Proof.
  intros clock w. cbv zeta. rewrite saveToLocalStorage_eq. simpl.
  split; [reflexivity |]. split; [reflexivity |]. split.
  - intros Hr. rewrite Hr.
    erewrite loadFromLocalStorage_data by reflexivity. simpl.
    rewrite not_saved_self, app_nil_r. auto.
  - intros Hr. rewrite Hr. rewrite length_app. simpl.
    split; [reflexivity | lia].
Qed.

Lemma not_saved_ids saved l :
  forall p, In p (not_saved saved l) ->
            In p l /\ ~ In (id p) (map id saved).
Proof.
  intros p Hp. unfold not_saved in Hp. apply filter_In in Hp as [Hin Hf].
  split; [exact Hin |]. apply negb_true_iff in Hf.
  intros Hid. apply existsb_id_In in Hid. congruence.
Qed.

Lemma NoDup_not_saved saved l :
  List.NoDup (map id l) -> List.NoDup (map id (not_saved saved l)).
Proof.
  unfold not_saved. induction l as [| p l IH]; simpl; intros H; [constructor |].
  inversion H as [| ? ? Hnotin Hnd]; subst.
  destruct (negb (existsb (String.eqb (id p)) (map id saved))); [| now apply IH].
  simpl. constructor; [| now apply IH].
  intros Hin. apply Hnotin. apply in_map_iff in Hin as (q & Hq & Hin).
  apply filter_In in Hin as [Hin _]. rewrite <- Hq. now apply in_map.
Qed.

(** X11: restoring merges, the saved projects first.  With a saved
    catalog in the storage, [loadFromLocalStorage] returns [true]; the
    catalog becomes the saved projects followed by those of the loaded
    catalog whose id is not saved, the view is that catalog, the settings
    stay those loaded.  Every id that was loaded or saved is in the
    catalog, and if the ids were pairwise distinct in both they still
    are.  With nothing saved the call returns [false] and changes
    nothing. *)
Theorem restore_merges :
  forall (w : World),
    let w' := snd (loadFromLocalStorage w) in
    (forall saved ss ts,
        storage w = Some (StoredData saved ss ts) ->
        fst (loadFromLocalStorage w) = Normal true
        /\ projects (this w')
           = (saved ++ not_saved saved (projects (this w)))%list
        /\ filteredProjects (this w') = projects (this w')
        /\ settings (this w') = settings (this w)
        /\ (forall i, In i (map id (projects (this w'))) <->
                      In i (map id saved) \/ In i (map id (projects (this w))))
        /\ (List.NoDup (map id saved) ->
            List.NoDup (map id (projects (this w))) ->
            List.NoDup (map id (projects (this w')))))
    /\ (storage w = None ->
        loadFromLocalStorage w = (Normal false, w)).
Proof.
  intros w. cbv zeta. split.
  - intros saved ss ts Hst.
    rewrite (loadFromLocalStorage_data w saved ss ts Hst). simpl.
    split; [reflexivity |]. split; [reflexivity |].
    split; [reflexivity |]. split; [reflexivity |]. split.
    + intros i. rewrite map_app, in_app_iff. split.
      * intros [H | H]; [now left |]. right.
        apply in_map_iff in H as (p & <- & Hp).
        apply not_saved_ids in Hp as [Hp _]. now apply in_map.
      * intros [H | H]; [now left |].
        destruct (in_dec string_dec i (map id saved)) as [Hs | Hs];
          [now left |].
        right. apply in_map_iff in H as (p & <- & Hp).
        apply in_map. unfold not_saved. apply filter_In.
        split; [exact Hp |]. apply negb_true_iff.
        destruct (existsb (String.eqb (id p)) (map id saved)) eqn:E;
          [| reflexivity].
        apply existsb_id_In in E. contradiction.
    + intros Hs Hl. rewrite map_app. apply List.NoDup_app; auto.
      * now apply NoDup_not_saved.
      * intros i Hi Hin. apply in_map_iff in Hin as (p & <- & Hp).
        apply not_saved_ids in Hp as [_ Hp]. contradiction.
  - intros Hst. unfold loadFromLocalStorage. run_eff. rewrite Hst.
    destruct w; reflexivity.
Qed.

(** *** What a successful [addProject] leaves *)

(** The world once the new project is in the catalog and the view, before
    it is displayed and saved. *)
Definition with_project (p : Project) (w : World) : World :=
  {| this := {| projects := p :: projects (this w);
                filteredProjects := p :: projects (this w);
                settings := settings (this w);
                isLoaded := isLoaded (this w) |};
     grid := grid w; events := events w; console := console w;
     storage := storage w; storage_refuses := storage_refuses w |}.

Lemma addProject_tail clock (d1 : ProjectData.t) (w0 : World) q :
  (let! t := gets this in
   do! set_projects (q :: projects t) in
   let! t := gets this in
   do! set_filteredProjects (projects t) in
   do! displayProjects None in
   do! saveToLocalStorage clock in
   ret (q, d1)) w0
  = (Normal (q, d1),
     snd (saveToLocalStorage clock
            (snd (displayProjects None (with_project q w0))))).
Proof.
  unfold set_projects, set_filteredProjects, set_this. run_eff.
  cbn [this projects filteredProjects settings isLoaded grid events console
       storage storage_refuses].
  fold (with_project q w0).
  destruct (displayProjects_this None (with_project q w0)) as (w1 & -> & _).
  cbn [fst snd]. rewrite !saveToLocalStorage_eq. reflexivity.
Qed.

Lemma addProject_world clock d w p d' w' :
  addProject clock d w = (Normal (p, d'), w') ->
  w' = snd (saveToLocalStorage clock
              (snd (displayProjects None (with_project p w)))).
Proof.
  intros Hrun.
  destruct (truthy_ostring (ProjectData.name d)) eqn:Tn.
  2: { rewrite addProject_rejects in Hrun by auto. discriminate. }
  destruct (truthy_ostring (ProjectData.github d)) eqn:Tg.
  2: { rewrite addProject_rejects in Hrun by auto. discriminate. }
  unfold addProject in Hrun. rewrite Tn, Tg in Hrun. cbn [negb orb] in Hrun.
  destruct (truthy_ostring (ProjectData.id d)) eqn:Tid; cbn [negb] in Hrun.
  - rewrite (bind_normal _ _ w d w eq_refl) in Hrun.
    rewrite addProject_tail in Hrun. injection Hrun as <- _ <-. reflexivity.
  - destruct (generateId_ok (default "" (ProjectData.name d)) w)
      as (k & Hgen & _).
    rewrite (bind_normal _ _ w
               (ProjectData.set_id
                  (candidate (baseId_of (default "" (ProjectData.name d))) k) d)
               w) in Hrun
      by now rewrite (bind_normal _ _ _ _ _ Hgen).
    rewrite addProject_tail in Hrun. injection Hrun as <- _ <-. reflexivity.
Qed.

(** X12: an added project is saved, and survives a reload.  When the
    storage takes the write, a call of [addProject] that returns leaves
    in the storage the catalog with the new project at its head, the
    settings and the time of the call; a page that then loads any
    catalog and restores from that storage has the new project first,
    followed by the catalog of the first page.  When the storage refuses
    the write the call still returns, the storage is as before and one
    warning is written. *)
Theorem addProject_is_saved :
  forall (clock : Clock) (d : ProjectData.t) (w : World) (p : Project),
    added (addProject clock d w) = Some p ->
    let w' := snd (addProject clock d w) in
    storage_refuses w' = storage_refuses w
    /\ (storage_refuses w = false ->
        storage w'
        = Some (StoredData (p :: projects (this w)) (settings (this w))
                           (now_ms clock))
        /\ forall reloaded : World,
            storage reloaded = storage w' ->
            exists rest,
              projects (this (snd (loadFromLocalStorage reloaded)))
              = (p :: projects (this w) ++ rest)%list)
    /\ (storage_refuses w = true ->
        storage w' = storage w
        /\ exists e,
            In (Warn "Failed to save to localStorage:" (Some e)) (console w')).
Proof.
  intros clock d w p Hadd. cbv zeta. unfold added in Hadd.
  destruct (addProject clock d w) as [[[q d'] | e |] w'] eqn:Hrun;
    try discriminate.
  simpl in Hadd. injection Hadd as ->. simpl.
  rewrite (addProject_world clock d w p d' w' Hrun).
  destruct (displayProjects_this None (with_project p w))
    as (w1 & -> & Hthis & Hst & Href).
  rewrite saveToLocalStorage_eq. simpl in *. rewrite Href, Hst, Hthis. simpl.
  split; [reflexivity |]. split.
  - intros Hr. rewrite Hr. split; [reflexivity |].
    intros reloaded Hsame.
    erewrite loadFromLocalStorage_data by exact Hsame. simpl.
    eexists. reflexivity.
  - intros Hr. rewrite Hr. split; [reflexivity |].
    eexists. apply in_app_iff. right. now left.
Qed.

(** *** Filters *)

(** The tests of the three filters, for an argument that is not empty. *)
Definition matches_technology (tech : string) (project : Project) : bool :=
  existsb (fun t => includes (toLowerCase t) (toLowerCase tech))
          (technologies project).

Definition matches_language (wanted : string) (project : Project) : bool :=
  match language project with
  | Some l => truthy_string l && String.eqb (toLowerCase l) (toLowerCase wanted)
  | None => false
  end.

Definition matches_search (query : string) (project : Project) : bool :=
  includes (toLowerCase (name project)) (toLowerCase query)
  || includes (toLowerCase (description project)) (toLowerCase query)
  || existsb (fun tech => includes (toLowerCase tech) (toLowerCase query))
             (technologies project).

(** The view a filter computes from the catalog. *)
Definition selected (test : string -> Project -> bool) (arg : option string)
    (catalog : list Project) : list Project :=
  if truthy_ostring arg then List.filter (test (default "" arg)) catalog
  else catalog.

Definition with_view (l : list Project) (w : World) : World :=
  {| this := {| projects := projects (this w); filteredProjects := l;
                settings := settings (this w); isLoaded := isLoaded (this w) |};
     grid := grid w; events := events w; console := console w;
     storage := storage w; storage_refuses := storage_refuses w |}.

Lemma filterByTechnology_eq arg w :
  filterByTechnology arg w
  = displayProjects None
      (with_view (selected matches_technology arg (projects (this w))) w).
Proof.
  unfold filterByTechnology, selected.
  destruct (truthy_ostring arg); reflexivity.
Qed.

Lemma filterByLanguage_eq arg w :
  filterByLanguage arg w
  = displayProjects None
      (with_view (selected matches_language arg (projects (this w))) w).
Proof.
  unfold filterByLanguage, selected.
  destruct (truthy_ostring arg); reflexivity.
Qed.

Lemma searchProjects_eq arg w :
  searchProjects arg w
  = displayProjects None
      (with_view (selected matches_search arg (projects (this w))) w).
Proof.
  unfold searchProjects, selected.
  destruct (truthy_ostring arg); reflexivity.
Qed.

(** The three filters with their tests. *)
Definition filters
  : list ((option string -> Eff World unit) * (string -> Project -> bool)) :=
  [ (filterByTechnology, matches_technology);
    (filterByLanguage, matches_language);
    (searchProjects, matches_search) ].

Lemma filter_this op test arg w :
  In (op, test) filters ->
  fst (op arg w) = Normal tt
  /\ this (snd (op arg w))
     = this (with_view (selected test arg (projects (this w))) w).
Proof.
  intros Hin.
  assert (Heq : op arg w
                = displayProjects None
                    (with_view (selected test arg (projects (this w))) w)).
  { destruct Hin as [E | [E | [E | []]]]; injection E as <- <-.
    - apply filterByTechnology_eq.
    - apply filterByLanguage_eq.
    - apply searchProjects_eq. }
  rewrite Heq.
  destruct (displayProjects_this None
              (with_view (selected test arg (projects (this w))) w))
    as (w1 & -> & Hthis & _).
  split; [reflexivity | exact Hthis].
Qed.

Lemma sublist_filter {A} (f : A -> bool) (l : list A) :
  sublist (List.filter f l) l.
Proof.
  induction l as [| x l IH]; simpl; [constructor |].
  destruct (f x); now constructor.
Qed.

Lemma toLowerCase_empty s : toLowerCase s = "" -> s = "".
Proof. destruct s; [reflexivity | discriminate]. Qed.

(** X13: the filters do not tell upper case from lower case.  Two
    arguments that are equal once put in lower case give, for each of
    [filterByTechnology], [filterByLanguage] and [searchProjects], the
    same result on the same state. *)
Theorem filters_ignore_case :
  forall (w : World) (a b : string) op test,
    In (op, test) filters ->
    toLowerCase a = toLowerCase b ->
    op (Some a) w = op (Some b) w.
Proof.
  intros w a b op test Hin Hab.
  assert (Ht : truthy_ostring (Some a) = truthy_ostring (Some b)).
  { simpl. unfold truthy_string.
    destruct (String.eqb_spec a ""), (String.eqb_spec b ""); try reflexivity;
      subst; exfalso.
    - symmetry in Hab. apply toLowerCase_empty in Hab. auto.
    - apply toLowerCase_empty in Hab. auto. }
  destruct Hin as [E | [E | [E | []]]]; injection E as <- <-.
  - rewrite !filterByTechnology_eq. unfold selected, matches_technology.
    rewrite Ht. simpl. now rewrite Hab.
  - rewrite !filterByLanguage_eq. unfold selected, matches_language.
    rewrite Ht. simpl. now rewrite Hab.
  - rewrite !searchProjects_eq. unfold selected, matches_search.
    rewrite Ht. simpl. now rewrite Hab.
Qed.

(** X14: a filter replaces the view, it does not refine it.  Each of the
    three filters completes, leaves the catalog as it is and makes the
    view a sublist of the catalog, in the order of the catalog; and the
    view it computes is the same whatever filter was applied before. *)
Theorem filters_start_from_the_catalog :
  forall (w : World) op test arg op0 test0 arg0,
    In (op, test) filters ->
    In (op0, test0) filters ->
    let w' := snd (op arg w) in
    fst (op arg w) = Normal tt
    /\ projects (this w') = projects (this w)
    /\ sublist (filteredProjects (this w')) (projects (this w))
    /\ this (snd (op arg (snd (op0 arg0 w)))) = this w'.
Proof.
  intros w op test arg op0 test0 arg0 Hin Hin0. cbv zeta.
  destruct (filter_this op test arg w Hin) as [Hr Hthis].
  destruct (filter_this op0 test0 arg0 w Hin0) as [_ Hthis0].
  destruct (filter_this op test arg (snd (op0 arg0 w)) Hin) as [_ Hthis1].
  rewrite Hr, Hthis, Hthis1. simpl. rewrite !Hthis0. simpl.
  split; [reflexivity |]. split; [reflexivity |]. split; [| reflexivity].
  unfold selected. destruct (truthy_ostring arg); [apply sublist_filter |].
  reflexivity.
Qed.

(** X15: searching finds whatever the technology filter finds.  For the
    same argument, every project in the view of [filterByTechnology] is
    in the view of [searchProjects]. *)
Theorem search_covers_technology :
  forall (w : World) (arg : option string) (p : Project),
    In p (filteredProjects (this (snd (filterByTechnology arg w)))) ->
    In p (filteredProjects (this (snd (searchProjects arg w)))).
Proof.
  intros w arg p.
  destruct (filter_this filterByTechnology matches_technology arg w
              ltac:(left; reflexivity)) as [_ ->].
  destruct (filter_this searchProjects matches_search arg w
              ltac:(right; right; left; reflexivity)) as [_ ->].
  simpl. unfold selected. destruct (truthy_ostring arg); [| auto].
  rewrite !filter_In. intros [Hin Hm]. split; [exact Hin |].
  unfold matches_search. unfold matches_technology in Hm.
  rewrite Hm. apply orb_true_r.
Qed.

(** *** The display *)

Lemma shown_perm w view : Permutation view (shown w view).
Proof.
  unfold shown.
  destruct (default false (showFeaturedFirst (settings (this w))));
    [apply sort_perm | reflexivity].
Qed.

(** X16: what [displayProjects] does to the page.  It always returns
    and never changes the manager.  Without the grid element it writes
    one error to the console and nothing else: no event.  With it,
    exactly one [projectsDisplayed] event is dispatched, carrying the
    projects in the order displayed, which is a rearrangement of the
    view, and the view itself when [showFeaturedFirst] is not set; an
    empty view shows the placeholder, and otherwise the grid is given
    the markup of the cards of these projects, in that order, one after
    the other. *)
Theorem display_in_full :
  forall (w : World) (arg : option (list Project)),
    let view := default (filteredProjects (this w)) arg in
    let w' := snd (displayProjects arg w) in
    fst (displayProjects arg w) = Normal tt
    /\ this w' = this w
    /\ (grid w = None ->
        grid w' = None /\ events w' = events w
        /\ console w'
           = (console w
              ++ [ErrorLog "Projects grid element not found" None])%list)
    /\ (grid w <> None ->
        exists order,
          Permutation view order
          /\ (default false (showFeaturedFirst (settings (this w))) = false ->
              order = view)
          /\ events w' = (events w ++ [projectsDisplayed order])%list
          /\ console w' = console w
          /\ grid w'
             = Some match order with
                    | [] => EmptyNotice
                    | _ => Cards (String.concat "" (map createProjectCard order))
                    end
          /\ (order = [] <-> view = [])).
Proof.
  intros w arg. cbv zeta.
  destruct (grid w) as [g |] eqn:Hg.
  - rewrite (displayProjects_grid arg w g Hg). simpl.
    split; [reflexivity |]. split; [reflexivity |].
    split; [discriminate |]. intros _.
    set (view := default (filteredProjects (this w)) arg).
    exists (shown w view).
    split; [apply shown_perm |].
    split; [intros Hflag; unfold shown; now rewrite Hflag |].
    split; [reflexivity |]. split; [reflexivity |].
    split; [reflexivity |].
    pose proof (shown_perm w view) as Hperm. split; intros Hnil.
    + rewrite Hnil in Hperm. now apply Permutation_nil, Permutation_sym.
    + rewrite Hnil in *. now apply Permutation_nil.
  - rewrite (displayProjects_no_grid arg w Hg). simpl.
    split; [reflexivity |]. split; [reflexivity |].
    split; [auto | congruence].
Qed.

(** *** Displaying what was displayed *)

Lemma compare_sorted x y :
  dated x -> dated y -> featured_first y x ->
  negative (compareFeaturedFirst x y) = false.
Proof.
  unfold dated, featured_first, time, compareFeaturedFirst.
  intros Hx Hy.
  destruct (featured x), (featured y); simpl;
    destruct (Date_parse (createdAt x)), (Date_parse (createdAt y));
    simpl; try congruence; intros [[? ?] | [? ?]];
    try discriminate; try reflexivity; apply Z.ltb_ge; lia.
Qed.

Lemma insert_sorted_last x : forall sorted,
  Forall (fun y => negative (compareFeaturedFirst x y) = false) sorted ->
  insert_sorted compareFeaturedFirst x sorted = (sorted ++ [x])%list.
Proof.
  induction sorted as [| y sorted IH]; intros H; simpl; [reflexivity |].
  inversion H as [| ? ? Hy Hrest]; subst. rewrite Hy. now rewrite IH.
Qed.

Lemma sorted_before (sorted : list Project) x rest :
  StronglySorted featured_first (sorted ++ x :: rest) ->
  Forall (fun y => featured_first y x) sorted.
Proof.
  induction sorted as [| y sorted IH]; simpl; intros H; [constructor |].
  inversion H as [| ? ? Hs Hall]; subst.
  constructor; [| now apply IH].
  rewrite List.Forall_forall in Hall. apply Hall.
  apply in_app_iff. right. now left.
Qed.

Lemma sort_from_sorted rest : forall sorted,
  StronglySorted featured_first (sorted ++ rest) ->
  Forall dated (sorted ++ rest) ->
  fold_left (fun sorted x => insert_sorted compareFeaturedFirst x sorted)
            rest sorted
  = (sorted ++ rest)%list.
Proof.
  induction rest as [| x rest IH]; intros sorted Hs Hd; simpl;
    [now rewrite app_nil_r |].
  rewrite insert_sorted_last.
  - rewrite IH; rewrite <- app_assoc; simpl; auto.
  - pose proof (sorted_before sorted x rest Hs) as Hb.
    rewrite List.Forall_forall in *. intros y Hy.
    apply compare_sorted; auto.
    + apply Hd. apply in_app_iff. right. now left.
    + apply Hd. apply in_app_iff. now left.
Qed.

(** X17: displaying what was displayed changes nothing.  For projects
    with dates the script can read, displaying the list in the order in
    which [displayProjects] has displayed it gives the same order, the
    same cards and the same event: sorting is not repeated into a
    different order. *)
Theorem display_is_stable :
  forall (w : World) (view : list Project),
    Forall dated view ->
    forall g order,
      grid w = Some g ->
      events (snd (displayProjects (Some view) w))
      = (events w ++ [projectsDisplayed order])%list ->
      displayProjects (Some order) w = displayProjects (Some view) w.
Proof.
  intros w view Hd g order Hg Hev.
  rewrite (displayProjects_grid (Some view) w g Hg) in Hev. simpl in Hev.
  apply app_inv_head in Hev. injection Hev as <-.
  rewrite (displayProjects_grid (Some view) w g Hg).
  rewrite (displayProjects_grid (Some (shown w view)) w g Hg). simpl.
  assert (Hsame : shown w (shown w view) = shown w view).
  { unfold shown.
    destruct (default false (showFeaturedFirst (settings (this w))));
      [| reflexivity].
    destruct (sort_featured_first view Hd) as [Hperm Hsorted].
    assert (Hd' : Forall dated (sort compareFeaturedFirst view)).
    { rewrite List.Forall_forall in *. intros p Hp. apply Hd.
      eapply Permutation_in; [symmetry; exact Hperm | exact Hp]. }
    rewrite (sort_dated _ Hd'). unfold stable_sort.
    apply (sort_from_sorted _ []); simpl; assumption. }
  now rewrite Hsame.
Qed.

(** *** Start-up *)

(** The catalog a reply gives: the projects of the file (none when the
    file has no [projects]), and the built-in project whenever the reply
    cannot be used. *)
Definition fetched (r : FetchReply) : list Project :=
  match r with
  | Response status (Parsed ps _) =>
      if ok status then default [] ps else [fallbackProject]
  | _ => [fallbackProject]
  end.

Definition restored (w : World) (l : list Project) : list Project :=
  match storage w with
  | Some (StoredData saved _ _) => (saved ++ not_saved saved l)%list
  | _ => l
  end.

Lemma loadProjects_eq r w :
  exists w',
    loadProjects r w = (Normal (fetched r), w')
    /\ projects (this w') = fetched r
    /\ filteredProjects (this w') = fetched r
    /\ isLoaded (this w') = true
    /\ grid w' = grid w /\ events w' = events w
    /\ storage w' = storage w.
Proof.
  unfold loadProjects, fetch, json, loadFallbackData, console_log,
    set_projects, set_settings, set_filteredProjects, set_isLoaded, set_this.
  destruct r as [e | status [e | | ps ss]]; run_eff; simpl;
    try destruct (ok status); simpl; eexists; repeat split.
Qed.

Lemma loadFromLocalStorage_any w :
  filteredProjects (this w) = projects (this w) ->
  exists b w',
    loadFromLocalStorage w = (Normal b, w')
    /\ projects (this w') = restored w (projects (this w))
    /\ filteredProjects (this w') = projects (this w')
    /\ isLoaded (this w') = isLoaded (this w)
    /\ grid w' = grid w /\ events w' = events w
    /\ storage w' = storage w.
Proof.
  intros Hview. unfold restored.
  destruct (storage w) as [[saved ss ts | raw] |] eqn:Hst.
  - rewrite (loadFromLocalStorage_data w saved ss ts Hst).
    do 2 eexists. simpl. repeat split. exact Hst.
  - unfold loadFromLocalStorage, console_log. run_eff. rewrite Hst.
    destruct (truthy_string raw); do 2 eexists; simpl; repeat split; auto.
  - unfold loadFromLocalStorage. run_eff. rewrite Hst.
    do 2 eexists; simpl; repeat split; auto.
Qed.

(** X18: start-up ends with a displayed catalog.  Here the projects of
    a reply and of a saved catalog are complete project records, every
    field present and of its type.  On every such reply of the fetch,
    whatever such storage holds and whether or not the grid element
    exists, [init] completes normally; afterwards the catalog is marked
    loaded, the view is the whole catalog, the catalog is what the reply
    gives (the built-in project when the reply cannot be used), preceded
    by the saved projects when the storage holds a saved catalog, the
    storage itself is not written, and with a grid element exactly one
    [projectsDisplayed] event is dispatched, for that catalog. *)
Theorem init_displays_the_catalog :
  forall (r : FetchReply) (w : World),
    let w' := snd (init r w) in
    fst (init r w) = Normal tt
    /\ isLoaded (this w') = true
    /\ projects (this w') = restored w (fetched r)
    /\ filteredProjects (this w') = projects (this w')
    /\ storage w' = storage w
    /\ (grid w = None -> events w' = events w)
    /\ (grid w <> None ->
        events w'
        = (events w ++ [projectsDisplayed (shown w' (projects (this w')))])%list).
Proof.
  intros r w. cbv zeta.
  destruct (loadProjects_eq r w)
    as (w1 & Hload & Hp1 & Hf1 & Hl1 & Hg1 & He1 & Hs1).
  destruct (loadFromLocalStorage_any w1 ltac:(congruence))
    as (b & w2 & Hrest & Hp2 & Hf2 & Hl2 & Hg2 & He2 & Hs2).
  assert (Hinit : init r w = displayProjects None w2).
  { unfold init, try_catch.
    rewrite (bind_normal _ _ _ _ _ Hload), (bind_normal _ _ _ _ _ Hrest).
    destruct (grid w2) as [g |] eqn:Hg.
    - now rewrite (displayProjects_grid None w2 g Hg).
    - now rewrite (displayProjects_no_grid None w2 Hg). }
  rewrite Hinit.
  assert (Hcat : projects (this w2) = restored w (fetched r)).
  { rewrite Hp2, Hp1. unfold restored. now rewrite Hs1. }
  destruct (grid w2) as [g |] eqn:Hg.
  - rewrite (displayProjects_grid None w2 g Hg). simpl.
    unfold shown. simpl. rewrite Hf2.
    repeat split; congruence.
  - rewrite (displayProjects_no_grid None w2 Hg). simpl.
    repeat split; congruence.
Qed.

(** *** An added project on the page *)

(** X29: an added project is on the page.  When the grid element
    exists, a call of [addProject] that returns makes the view the whole
    catalog, whatever filter was in force, and displays it: the event
    lists the catalog with the new project, in the order displayed, which
    is the order of the catalog, the new project first, when
    [showFeaturedFirst] is not set; and the grid is given the markup of
    the cards of these projects in that order.  The new project has the
    repository given, which is not empty, and as its icon the icon given,
    or else, when none or an empty one is given, the icon that
    [getLanguageIcon] has for the language given. *)
Theorem added_project_is_displayed :
  forall (clock : Clock) (d : ProjectData.t) (w : World) (p : Project)
         (g : Grid),
    added (addProject clock d w) = Some p ->
    grid w = Some g ->
    let w' := snd (addProject clock d w) in
    let catalog := p :: projects (this w) in
    projects (this w') = catalog
    /\ filteredProjects (this w') = catalog
    /\ Some (github p) = ProjectData.github d
    /\ github p <> ""
    /\ icon p = Some match ProjectData.icon d with
                     | Some given =>
                         if String.eqb given ""
                         then getLanguageIcon (ProjectData.language d)
                         else given
                     | None => getLanguageIcon (ProjectData.language d)
                     end
    /\ exists order,
        Permutation catalog order
        /\ (default false (showFeaturedFirst (settings (this w))) = false ->
            order = catalog)
        /\ events w' = (events w ++ [projectsDisplayed order])%list
        /\ grid w'
           = Some (Cards (String.concat "" (map createProjectCard order))).
Proof.
  intros clock d w p g Hadded Hg. cbv zeta.
  assert (Hp : Some (github p) = ProjectData.github d
               /\ github p <> ""
               /\ icon p = Some (or_string (ProjectData.icon d)
                                   (getLanguageIcon (ProjectData.language d)))).
  { destruct (truthy_ostring (ProjectData.name d)) eqn:Tn.
    2: { unfold added in Hadded.
         rewrite addProject_rejects in Hadded by auto. discriminate. }
    destruct (truthy_ostring (ProjectData.github d)) eqn:Tg.
    2: { unfold added in Hadded.
         rewrite addProject_rejects in Hadded by auto. discriminate. }
    apply truthy_ostring_true in Tn as (n & Hn & Hn').
    apply truthy_ostring_true in Tg as (g' & Hg' & Hg'').
    destruct (addProject_accepts clock d w n g' Hn Hn' Hg' Hg'')
      as (id' & w1 & Hrun & _).
    cbv zeta in Hrun. unfold added in Hadded. rewrite Hrun in Hadded.
    cbn [fst] in Hadded. injection Hadded as <-. cbn [github icon].
    split; [now rewrite Hg' |]. split; [exact Hg'' | reflexivity]. }
  destruct Hp as (Hgit & Hgit' & Hicon).
  unfold added in Hadded.
  destruct (addProject clock d w) as [[[p' d'] | e |] w1] eqn:Hrun;
    cbn [fst] in Hadded; try discriminate.
  injection Hadded as ->.
  rewrite (addProject_world clock d w p d' w1 Hrun).
  rewrite saveToLocalStorage_eq. cbn [snd this grid events].
  assert (Hg1 : grid (with_project p w) = Some g) by exact Hg.
  rewrite (displayProjects_grid None (with_project p w) g Hg1).
  cbn [snd grid events this filteredProjects projects with_project default].
  split; [reflexivity |]. split; [reflexivity |].
  split; [exact Hgit |]. split; [exact Hgit' |].
  split.
  { rewrite Hicon. unfold or_string, truthy_string.
    destruct (ProjectData.icon d) as [given |]; [| reflexivity].
    destruct (String.eqb given ""); reflexivity. }
  set (catalog := p :: projects (this w)).
  pose proof (shown_perm (with_project p w) catalog) as Hperm.
  exists (shown (with_project p w) catalog).
  split; [exact Hperm |].
  split; [intros Hflag; unfold shown; cbn [this settings with_project];
          now rewrite Hflag |].
  split; [reflexivity |].
  unfold rendered, markup.
  destruct (shown (with_project p w) catalog) as [| q order];
    [| reflexivity].
  apply Permutation_sym, Permutation_nil in Hperm. discriminate.
Qed.

End WithEngine.

(** *** Concrete cases *)

(** The cases are run on [insertion_engine]. *)
Section Cases.
#[local] Existing Instance insertion_engine.

Lemma getProject_after_addProject_witness :
  exists p,
    let run := addProject noon
                 (input None (Some "Gominage") (Some "https://example.org"))
                 (page [fallbackProject] false) in
    added run = Some p
    /\ id p = "gominage-1"
    /\ getProject "gominage-1" (this (snd run)) = Some p
    /\ getProject "gominage" (this (snd run)) = Some fallbackProject.
Proof.
  eexists. cbv zeta.
  assert (Hadd : added (addProject noon
                          (input None (Some "Gominage")
                                 (Some "https://example.org"))
                          (page [fallbackProject] false)) = Some _)
    by (vm_compute; reflexivity).
  split; [exact Hadd |]. split; [reflexivity |].
  destruct (getProject_after_addProject _ _ _ _ Hadd) as [Hfound Hother].
  split; [exact Hfound |].
  rewrite Hother; [reflexivity | discriminate].
Defined.

Lemma save_then_load_witness :
  let w := page [fallbackProject] false in
  projects (this (snd (loadFromLocalStorage
                         (snd (saveToLocalStorage noon w)))))
  = [fallbackProject].
Proof.
  cbv zeta.
  destruct (save_then_load noon (page [fallbackProject] false))
    as (_ & _ & Hok & _).
  destruct (Hok eq_refl) as (_ & _ & Hp & _). exact Hp.
Defined.

Lemma restore_merges_witness :
  let w := {| this := {| projects := [fallbackProject];
                         filteredProjects := [fallbackProject];
                         settings := no_settings; isLoaded := true |};
              grid := None; events := []; console := [];
              storage := Some (StoredData [project "x" false "2024-01-01"]
                                          no_settings 0);
              storage_refuses := false |} in
  map id (projects (this (snd (loadFromLocalStorage w)))) = ["x"; "gominage"].
Proof.
  cbv zeta.
  match goal with
  | |- context [loadFromLocalStorage ?w0] =>
      destruct (proj1 (restore_merges w0) _ _ _ eq_refl) as (_ & -> & _)
  end.
  reflexivity.
Defined.

Lemma addProject_is_saved_witness :
  exists p,
    let run := addProject noon
                 (input None (Some "x") (Some "https://example.org"))
                 (page [fallbackProject] false) in
    added run = Some p
    /\ storage (snd run)
       = Some (StoredData [p; fallbackProject]
                          {| showFeaturedFirst := Some false |}
                          1741521600000).
Proof.
  eexists. cbv zeta.
  assert (Hadd : added (addProject noon
                          (input None (Some "x") (Some "https://example.org"))
                          (page [fallbackProject] false)) = Some _)
    by (vm_compute; reflexivity).
  split; [exact Hadd |].
  destruct (addProject_is_saved _ _ _ _ Hadd) as (_ & Hok & _).
  destruct (Hok eq_refl) as [Hst _]. exact Hst.
Defined.

Lemma filters_ignore_case_witness :
  filterByLanguage (Some "JAVASCRIPT") (page [fallbackProject] false)
  = filterByLanguage (Some "javascript") (page [fallbackProject] false).
Proof.
  apply (filters_ignore_case _ _ _ filterByLanguage matches_language).
  - right. left. reflexivity.
  - reflexivity.
Defined.

Lemma filters_start_from_the_catalog_witness :
  let w := page [project "a" false "2024-01-01"; fallbackProject] false in
  filteredProjects
    (this (snd (filterByTechnology (Some "canvas")
                  (snd (searchProjects (Some "nothing like it") w)))))
  = [fallbackProject].
Proof.
  cbv zeta.
  match goal with
  | |- context [searchProjects ?q ?w0] =>
      destruct (filters_start_from_the_catalog w0
                  filterByTechnology matches_technology (Some "canvas")
                  searchProjects matches_search q
                  ltac:(left; reflexivity)
                  ltac:(right; right; left; reflexivity))
        as (_ & _ & _ & ->)
  end.
  vm_compute. reflexivity.
Defined.

Lemma search_covers_technology_witness :
  In fallbackProject
     (filteredProjects
        (this (snd (searchProjects (Some "html5")
                      (page [fallbackProject] false))))).
Proof.
  apply search_covers_technology. vm_compute. left. reflexivity.
Defined.

Lemma display_in_full_witness :
  let catalog := [project "a" false "2024-01-01";
                  project "b" true "2023-01-01"] in
  let w' := snd (displayProjects None (page catalog false)) in
  events w' = [projectsDisplayed catalog]
  /\ grid w' = Some (Cards (String.concat "" (map createProjectCard catalog))).
Proof.
  cbv zeta.
  match goal with
  | |- context [displayProjects None ?w0] =>
      destruct (display_in_full w0 None) as (_ & _ & _ & H)
  end.
  cbv zeta in H.
  destruct H as (order & _ & Horder & Hev & _ & Hgrid & _); [discriminate |].
  rewrite (Horder eq_refl) in Hev, Hgrid.
  split; [exact Hev | exact Hgrid].
Defined.

Lemma display_is_stable_witness :
  let A := project "a" false "2024-01-01" in
  let B := project "b" true "2023-01-01" in
  displayProjects (Some [B; A]) (page [A; B] true)
  = displayProjects (Some [A; B]) (page [A; B] true).
Proof.
  cbv zeta.
  apply (display_is_stable
           (page [project "a" false "2024-01-01";
                  project "b" true "2023-01-01"] true)
           [project "a" false "2024-01-01"; project "b" true "2023-01-01"]
           ltac:(repeat constructor; discriminate)
           Untouched).
  - reflexivity.
  - vm_compute. reflexivity.
Defined.

Lemma added_project_is_displayed_witness :
  let run := addProject noon
               (input None (Some "Gominage") (Some "https://example.org"))
               (page [fallbackProject] false) in
  exists p,
    added run = Some p
    /\ id p = "gominage-1"
    /\ icon p = Some "fas fa-code"
    /\ events (snd run) = [projectsDisplayed [p; fallbackProject]]
    /\ grid (snd run)
       = Some (Cards (String.concat ""
                        (map createProjectCard [p; fallbackProject]))).
Proof.
  cbv zeta. eexists.
  assert (Hadd : added (addProject noon
                          (input None (Some "Gominage")
                                 (Some "https://example.org"))
                          (page [fallbackProject] false)) = Some _)
    by (vm_compute; reflexivity).
  split; [exact Hadd |]. split; [reflexivity |].
  destruct (added_project_is_displayed noon _ _ _ Untouched Hadd eq_refl)
    as (_ & _ & _ & _ & Hicon & order & _ & Horder & Hev & Hgrid).
  rewrite (Horder eq_refl) in Hev, Hgrid.
  split; [exact Hicon |]. split; [exact Hev | exact Hgrid].
Defined.

End Cases.

End ProjectsMore.

(** ** The theme controller: start-up, rotation, custom themes *)

Module ThemeMore.
Import Theme ThemeFacts.
Local Abbreviation bind_normal := ProjectsFacts.bind_normal.

(** The names every object inherits from [Object.prototype].  The
    registry as a finite map does not hold them, so the facts below are
    about the other names. *)
Definition inherited (n : string) : bool :=
  existsb (String.eqb n)
    ["constructor"; "__proto__"; "hasOwnProperty"; "isPrototypeOf";
     "propertyIsEnumerable"; "toLocaleString"; "toString"; "valueOf";
     "__defineGetter__"; "__defineSetter__"; "__lookupGetter__";
     "__lookupSetter__"].

(** The custom property a colour entry is written to. *)
Definition property_of (entry : string * string) : string :=
  "--" ++ fst entry.

(** The object once [themeName] is made the current theme. *)
Definition with_current (n : string) (t : ThemeManager) : ThemeManager :=
  {| themes := themes t; currentTheme := n;
     systemPreference := systemPreference t |}.

Definition with_preference (p : string) (t : ThemeManager) : ThemeManager :=
  {| themes := themes t; currentTheme := currentTheme t;
     systemPreference := p |}.

Definition with_themes (m : gmap string ThemeDef) (t : ThemeManager)
  : ThemeManager :=
  {| themes := m; currentTheme := currentTheme t;
     systemPreference := systemPreference t |}.

Definition with_this (t : ThemeManager) (w : World) : World :=
  {| this := t; root_style := root_style w;
     body_className := body_className w; selector := selector w;
     storage := storage w; storage_refuses := storage_refuses w;
     events := events w; console := console w |}.

Definition with_console (l : LogEntry) (w : World) : World :=
  {| this := this w; root_style := root_style w;
     body_className := body_className w; selector := selector w;
     storage := storage w; storage_refuses := storage_refuses w;
     events := events w; console := console w ++ [l] |}.

(** The theme [switchTheme] goes to from [current]. *)
Definition successor (themeNames : list string) (current : string) : string :=
  match themeNames with
  | [] => "undefined"
  | _ =>
      nth (Z.to_nat ((indexOf current themeNames 0 + 1)
                     mod Z.of_nat (length themeNames)))
          themeNames "undefined"
  end.

(** The calls the page and its listeners make on the object once it is
    built. *)
Inductive Call : Type :=
| ApplyTheme (themeName : string)
| SwitchTheme (themeNames : list string)
| AddCustomTheme (name' : string) (colors' : list (string * string))
| RemoveCustomTheme (name' : string)
| ImportTheme (themeData : ThemeData.t)
| PreferenceChange (denied : option JsError) (matches : bool).

(** No name the call gives is an inherited one. *)
Definition plain_names (c : Call) : bool :=
  match c with
  | ApplyTheme n | AddCustomTheme n _ | RemoveCustomTheme n =>
      negb (inherited n)
  | SwitchTheme themeNames => forallb (fun n => negb (inherited n)) themeNames
  | ImportTheme themeData =>
      match ThemeData.name themeData with
      | Some n => negb (inherited n)
      | None => true
      end
  | PreferenceChange _ _ => true
  end.

(** The built-in themes are registered as the constructor registers
    them, and the current theme is a registered one. *)
Definition sound (t : ThemeManager) : Prop :=
  (forall b, builtin b = true -> themes t !! b = themes constructor !! b)
  /\ is_Some (themes t !! currentTheme t).

Section WithBrowser.
Variable css_value : string -> string -> option string.

(** The state after a call, whether it returns or throws. *)
Definition call (c : Call) (w : World) : World :=
  match c with
  | ApplyTheme n => snd (applyTheme css_value n w)
  | SwitchTheme themeNames => snd (switchTheme css_value themeNames w)
  | AddCustomTheme n cs => snd (addCustomTheme n cs w)
  | RemoveCustomTheme n => snd (removeCustomTheme css_value n w)
  | ImportTheme themeData => snd (importTheme css_value themeData w)
  | PreferenceChange denied matches =>
      snd (on_preference_change css_value denied matches w)
  end.

Definition run (calls : list Call) (w : World) : World :=
  fold_left (fun w c => call c w) calls w.

(** Reads the fields of the worlds written out in the goal. *)
Ltac flatten_world :=
  cbn [this root_style body_className selector storage storage_refuses
       events console themes currentTheme systemPreference
       with_current with_preference with_themes with_this with_console].

(** *** [applyTheme], case by case *)

Lemma applyTheme_unregistered n w :
  themes (this w) !! n = None ->
  applyTheme css_value n w
  = (Normal tt,
     with_console (Warn ("Theme " ++ quoted n ++ " not found") None) w).
Proof.
  intros Hreg. unfold applyTheme, console_log. run_eff. now rewrite Hreg.
Qed.

Lemma classList_add_spaced token w :
  truthy_string token = true ->
  has_space token = true ->
  classList_add token w = (Throw (Error "InvalidCharacterError"), w).
Proof.
  intros Ht Hs. unfold classList_add. rewrite Ht, Hs. reflexivity.
Qed.

Lemma applyTheme_spaced n theme w :
  themes (this w) !! n = Some theme ->
  has_space n = true ->
  applyTheme css_value n w
  = (Throw (Error "InvalidCharacterError"),
     {| this := with_current n (this w);
        root_style := apply_colors css_value (colors theme) (root_style w);
        body_className := strip_theme_classes 0 (body_className w);
        selector := selector w; storage := storage w;
        storage_refuses := storage_refuses w;
        events := events w; console := console w |}).
Proof.
  intros Hreg Hsp.
  unfold applyTheme, set_root_style, set_currentTheme, set_body_className,
    set_this.
  run_eff. rewrite Hreg. cbv beta iota. flatten_world.
  match goal with
  | |- context [classList_add ?t ?w0] =>
      rewrite (classList_add_spaced t w0 eq_refl Hsp)
  end.
  reflexivity.
Qed.

(** What [applyTheme] leaves in the object, in all three cases. *)
Lemma applyTheme_this n w :
  this (snd (applyTheme css_value n w))
  = match themes (this w) !! n with
    | Some _ => with_current n (this w)
    | None => this w
    end.
Proof.
  destruct (themes (this w) !! n) as [theme |] eqn:Hreg.
  - destruct (has_space n) eqn:Hsp.
    + now rewrite (applyTheme_spaced n theme w Hreg Hsp).
    + destruct (applyTheme_registered css_value n theme w Hreg Hsp)
        as (w' & Hrun & Hthis & _).
      now rewrite Hrun.
  - now rewrite (applyTheme_unregistered n w Hreg).
Qed.

Lemma applyTheme_completion n w :
  fst (applyTheme css_value n w)
  = match themes (this w) !! n with
    | Some _ =>
        if has_space n then Throw (Error "InvalidCharacterError")
        else Normal tt
    | None => Normal tt
    end.
Proof.
  destruct (themes (this w) !! n) as [theme |] eqn:Hreg.
  - destruct (has_space n) eqn:Hsp.
    + now rewrite (applyTheme_spaced n theme w Hreg Hsp).
    + destruct (applyTheme_registered css_value n theme w Hreg Hsp)
        as (w' & Hrun & _).
      now rewrite Hrun.
  - now rewrite (applyTheme_unregistered n w Hreg).
Qed.

Lemma applyTheme_style n theme w :
  themes (this w) !! n = Some theme ->
  root_style (snd (applyTheme css_value n w))
  = apply_colors css_value (colors theme) (root_style w).
Proof.
  intros Hreg. destruct (has_space n) eqn:Hsp.
  - now rewrite (applyTheme_spaced n theme w Hreg Hsp).
  - destruct (applyTheme_registered css_value n theme w Hreg Hsp)
      as (w' & Hrun & _ & Hstyle & _).
    now rewrite Hrun.
Qed.

Lemma final_none entries p :
  ~ In p (map property_of entries) ->
  final css_value entries p = None.
Proof.
  induction entries as [| entry rest IH]; intros Hp; [reflexivity |].
  simpl in *. rewrite IH by tauto.
  unfold effect. destruct (String.eqb_spec p ("--" ++ fst entry)) as [-> | _];
    [| reflexivity].
  exfalso. apply Hp. now left.
Qed.

(** X19: what [applyTheme] touches.  For a name that is not registered
    the call returns after one warning and changes nothing else.  For a
    registered name the theme becomes the current one and its colours
    are written, no custom property other than those of its entries
    being changed; if the name has white space in it, the call then
    throws at [classList.add], before the theme is saved and before the
    event is dispatched, and otherwise it returns, with the event
    dispatched.  The registry is never changed. *)
Theorem applyTheme_footprint :
  forall (w : World) (n : string),
    inherited n = false ->
    let w' := snd (applyTheme css_value n w) in
    themes (this w') = themes (this w)
    /\ systemPreference (this w') = systemPreference (this w)
    /\ match themes (this w) !! n with
       | None =>
           applyTheme css_value n w
           = (Normal tt,
              with_console (Warn ("Theme " ++ quoted n ++ " not found") None)
                           w)
       | Some theme =>
           currentTheme (this w') = n
           /\ (forall p, ~ In p (map property_of (colors theme)) ->
                         root_style w' !! p = root_style w !! p)
           /\ if has_space n then
                fst (applyTheme css_value n w)
                = Throw (Error "InvalidCharacterError")
                /\ storage w' = storage w
                /\ events w' = events w
              else
                fst (applyTheme css_value n w) = Normal tt
                /\ events w'
                   = (events w ++ [themeChanged n (colors theme)])%list
                /\ storage w'
                   = if storage_refuses w then storage w else Some n
       end.
Proof.
  intros w n _. cbv zeta. rewrite applyTheme_this.
  destruct (themes (this w) !! n) as [theme |] eqn:Hreg.
  - split; [reflexivity |]. split; [reflexivity |].
    split; [reflexivity |]. split.
    + intros p Hp. rewrite (applyTheme_style n theme w Hreg).
      rewrite apply_colors_lookup. now rewrite final_none.
    + destruct (has_space n) eqn:Hsp.
      * rewrite (applyTheme_spaced n theme w Hreg Hsp). simpl. auto.
      * destruct (applyTheme_registered css_value n theme w Hreg Hsp)
          as (w' & Hrun & _ & _ & Hev & _ & Hst).
        rewrite Hrun. simpl. auto.
  - split; [reflexivity |]. split; [reflexivity |].
    apply (applyTheme_unregistered n w Hreg).
Qed.

(** *** The other methods, case by case *)

Lemma switchTheme_eq themeNames w :
  switchTheme css_value themeNames w
  = applyTheme css_value (successor themeNames (currentTheme (this w))) w.
Proof. reflexivity. Qed.

Lemma addCustomTheme_fresh n cs w :
  themes (this w) !! n = None ->
  addCustomTheme n cs w
  = (Normal true,
     with_this
       (with_themes (<[n := {| name := capitalize n; colors := cs |}]>
                       (themes (this w)))
                    (this w)) w).
Proof.
  intros Hreg. unfold addCustomTheme, set_themes, set_this. run_eff.
  now rewrite Hreg.
Qed.

Lemma removeCustomTheme_unregistered n w :
  builtin n = false ->
  themes (this w) !! n = None ->
  removeCustomTheme css_value n w
  = (Normal false,
     with_console (Warn ("Theme " ++ quoted n ++ " not found") None) w).
Proof.
  intros Hb Hreg. unfold removeCustomTheme, console_log. rewrite Hb.
  run_eff. now rewrite Hreg.
Qed.

Lemma removeCustomTheme_registered n d w :
  builtin n = false ->
  themes (this w) !! n = Some d ->
  removeCustomTheme css_value n w
  = let w1 := with_this (with_themes (delete n (themes (this w))) (this w)) w in
    if String.eqb (currentTheme (this w)) n
    then bind (applyTheme css_value "cafe") (fun _ => ret true) w1
    else (Normal true, w1).
Proof.
  intros Hb Hreg. unfold removeCustomTheme, set_themes, set_this.
  rewrite Hb. cbv [bind gets modify]. rewrite Hreg. cbv beta iota zeta.
  flatten_world.
  destruct (String.eqb (currentTheme (this w)) n); reflexivity.
Qed.

Lemma snd_bind_ret {A B} (m : Eff World A) (b : B) w :
  snd (bind m (fun _ => ret b) w) = snd (m w).
Proof. unfold bind, ret. destruct (m w) as [[a | e |] w']; reflexivity. Qed.

Definition invalid_format : JsError := Error "Invalid theme data format".

Definition valid (themeData : ThemeData.t) : option string :=
  match ThemeData.name themeData, ThemeData.colors themeData with
  | Some n, Some _ => if truthy_string n then Some n else None
  | _, _ => None
  end.

Lemma importTheme_invalid themeData w :
  valid themeData = None ->
  importTheme css_value themeData w
  = (Normal false,
     with_console (ErrorLog "Failed to import theme:" (Some invalid_format))
                  w).
Proof.
  unfold valid, importTheme, console_log. intros Hv.
  destruct (ThemeData.name themeData) as [n |];
    destruct (ThemeData.colors themeData) as [cs |];
    try destruct (truthy_string n); try discriminate; reflexivity.
Qed.

Lemma importTheme_valid themeData n w :
  valid themeData = Some n ->
  importTheme css_value themeData w
  = let w1 := snd (addCustomTheme n (default [] (ThemeData.colors themeData))
                                  w) in
    match applyTheme css_value n w1 with
    | (Normal _, w2) => (Normal true, w2)
    | (Throw e, w2) =>
        (Normal false,
         with_console (ErrorLog "Failed to import theme:" (Some e)) w2)
    | (Unfinished, w2) => (Unfinished, w2)
    end.
Proof.
  unfold valid, importTheme, console_log. intros Hv.
  destruct (ThemeData.name themeData) as [n' |]; [| discriminate].
  destruct (ThemeData.colors themeData) as [cs |]; [| discriminate].
  destruct (truthy_string n'); [| discriminate]. injection Hv as ->.
  cbv zeta. change (default [] (Some cs)) with cs.
  destruct (themes (this w) !! n) as [d |] eqn:Hreg.
  - unfold try_catch at 1.
    rewrite (bind_normal _ _ _ _ _ (addCustomTheme_exists n cs d w Hreg)).
    rewrite (addCustomTheme_exists n cs d w Hreg). cbn [snd].
    unfold bind, ret, modify.
    match goal with
    | |- context [applyTheme css_value n ?w0] =>
        destruct (applyTheme css_value n w0) as [[[] | e |] w2]
    end; reflexivity.
  - unfold try_catch at 1.
    rewrite (bind_normal _ _ _ _ _ (addCustomTheme_fresh n cs w Hreg)).
    rewrite (addCustomTheme_fresh n cs w Hreg). cbn [snd].
    unfold bind, ret, modify.
    match goal with
    | |- context [applyTheme css_value n ?w0] =>
        destruct (applyTheme css_value n w0) as [[[] | e |] w2]
    end; reflexivity.
Qed.

Lemma on_preference_change_eq denied matches w :
  on_preference_change css_value denied matches w
  = let w1 := with_this
                (with_preference (if matches then "dark" else "light")
                                 (this w)) w in
    match denied with
    | Some e => (Throw e, w1)
    | None =>
        if truthy_ostring (storage w) then (Normal tt, w1)
        else applyTheme css_value (if matches then "dark" else "cafe") w1
    end.
Proof.
  unfold on_preference_change, handleSystemPreferenceChange, getItem,
    set_systemPreference, set_this.
  destruct denied as [e |]; [reflexivity |].
  cbv [bind gets modify ret]. flatten_world.
  destruct (truthy_ostring (storage w)); [reflexivity |].
  destruct matches; reflexivity.
Qed.

(** *** The registry under any sequence of calls *)

Lemma builtin_registered b :
  builtin b = true -> is_Some (themes constructor !! b).
Proof.
  intros Hb. apply builtin_iff in Hb.
  destruct Hb as [<- | [<- | [<- | [<- | []]]]]; eexists; reflexivity.
Qed.

Lemma sound_builtin t b : sound t -> builtin b = true -> is_Some (themes t !! b).
Proof.
  intros [Hbuilt _] Hb. rewrite (Hbuilt b Hb). now apply builtin_registered.
Qed.

Lemma sound_current n t :
  sound t -> is_Some (themes t !! n) -> sound (with_current n t).
Proof. intros [Hbuilt _] Hn. split; [exact Hbuilt | exact Hn]. Qed.

Lemma sound_preference p t : sound t -> sound (with_preference p t).
Proof. intros [Hbuilt Hcur]. split; [exact Hbuilt | exact Hcur]. Qed.

Lemma sound_insert n d t :
  sound t -> themes t !! n = None ->
  sound (with_themes (<[n := d]> (themes t)) t).
Proof.
  intros Hs Hn. pose proof Hs as [Hbuilt Hcur].
  split; cbn [themes currentTheme with_themes].
  - intros b Hb. rewrite <- (Hbuilt b Hb). apply lookup_insert_ne.
    intros ->. destruct (sound_builtin t b Hs Hb) as [x Hx]. congruence.
  - rewrite lookup_insert_ne; [exact Hcur |].
    intros ->. destruct Hcur as [x Hx]. congruence.
Qed.

Lemma sound_applyTheme n w :
  sound (this w) -> sound (this (snd (applyTheme css_value n w))).
Proof.
  intros Hs. rewrite applyTheme_this.
  destruct (themes (this w) !! n) as [theme |] eqn:Hreg; [| exact Hs].
  apply sound_current; [exact Hs | rewrite Hreg; eauto].
Qed.

Lemma sound_removeCustomTheme n w :
  sound (this w) -> sound (this (snd (removeCustomTheme css_value n w))).
Proof.
  intros Hs. destruct (builtin n) eqn:Hb.
  - unfold removeCustomTheme. rewrite Hb. exact Hs.
  - destruct (themes (this w) !! n) as [d |] eqn:Hreg.
    + rewrite (removeCustomTheme_registered n d w Hb Hreg). cbv zeta.
      pose proof Hs as [Hbuilt Hcur].
      assert (Hkept : forall b, builtin b = true ->
                delete n (themes (this w)) !! b = themes constructor !! b).
      { intros b Hb'. rewrite <- (Hbuilt b Hb'). apply lookup_delete_ne.
        intros ->. congruence. }
      destruct (String.eqb_spec (currentTheme (this w)) n) as [Heq | Hne].
      * rewrite snd_bind_ret, applyTheme_this. flatten_world.
        rewrite (Hkept "cafe" eq_refl).
        change (themes constructor !! "cafe") with (Some cafe).
        cbv beta iota.
        split; [exact Hkept |]. flatten_world.
        rewrite (Hkept "cafe" eq_refl). eexists; reflexivity.
      * split; [exact Hkept |]. cbn [snd]. flatten_world.
        rewrite lookup_delete_ne by congruence. exact Hcur.
    + now rewrite (removeCustomTheme_unregistered n w Hb Hreg).
Qed.

Lemma sound_addCustomTheme n cs w :
  sound (this w) -> sound (this (snd (addCustomTheme n cs w))).
Proof.
  intros Hs. destruct (themes (this w) !! n) as [d |] eqn:Hreg.
  - now rewrite (addCustomTheme_exists n cs d w Hreg).
  - rewrite (addCustomTheme_fresh n cs w Hreg). now apply sound_insert.
Qed.

Lemma sound_importTheme themeData w :
  sound (this w) -> sound (this (snd (importTheme css_value themeData w))).
Proof.
  intros Hs. destruct (valid themeData) as [n |] eqn:Hv.
  - rewrite (importTheme_valid themeData n w Hv). cbv zeta.
    pose proof (sound_addCustomTheme n
                  (default [] (ThemeData.colors themeData)) w Hs) as Hs1.
    pose proof (sound_applyTheme n _ Hs1) as Hs2.
    destruct (applyTheme css_value n _) as [[[] | e |] w2]; exact Hs2.
  - now rewrite (importTheme_invalid themeData w Hv).
Qed.

Lemma sound_on_preference_change denied matches w :
  sound (this w) ->
  sound (this (snd (on_preference_change css_value denied matches w))).
Proof.
  intros Hs. rewrite on_preference_change_eq. cbv zeta.
  pose proof (sound_preference (if matches then "dark" else "light")
                               (this w) Hs) as Hs1.
  destruct denied as [e |]; [exact Hs1 |].
  destruct (truthy_ostring (storage w)); [exact Hs1 |].
  apply sound_applyTheme. exact Hs1.
Qed.

Lemma sound_call c w : sound (this w) -> sound (this (call c w)).
Proof.
  intros Hs. destruct c as [n | names | n cs | n | themeData | denied matches];
    unfold call.
  - now apply sound_applyTheme.
  - rewrite switchTheme_eq. now apply sound_applyTheme.
  - now apply sound_addCustomTheme.
  - now apply sound_removeCustomTheme.
  - now apply sound_importTheme.
  - now apply sound_on_preference_change.
Qed.

(** X20: the current theme is always a registered one.  Starting from
    an object whose built-in themes are registered as the constructor
    registers them and whose current theme is registered, after any
    sequence of calls of [applyTheme], [switchTheme], [addCustomTheme],
    [removeCustomTheme], [importTheme] and of the system preference
    listener, returning or throwing, this still holds; so
    [getCurrentTheme] and [exportTheme] return, never reading a theme
    that is not there, and the four built-in themes are there with their
    own colours. *)
Theorem current_theme_stays_registered :
  forall (calls : list Call) (w : World) (now : Z),
    sound (this w) ->
    forallb plain_names calls = true ->
    let w' := run calls w in
    sound (this w')
    /\ themes (this w') !! "cafe" = Some cafe
    /\ themes (this w') !! "dark" = Some dark
    /\ themes (this w') !! "ocean" = Some ocean
    /\ themes (this w') !! "forest" = Some forest
    /\ (exists info,
          getCurrentTheme w' = (Normal info, w')
          /\ ThemeInfo.name info = currentTheme (this w')
          /\ themes (this w') !! currentTheme (this w')
             = Some {| name := ThemeInfo.displayName info;
                       colors := ThemeInfo.colors info |})
    /\ (exists theme,
          themes (this w') !! currentTheme (this w') = Some theme
          /\ exportTheme now w'
             = (Normal {| ThemeData.name := Some (currentTheme (this w'));
                          ThemeData.colors := Some (colors theme);
                          ThemeData.timestamp := Some now |}, w')).
Proof.
  intros calls w now Hs _. cbv zeta.
  assert (Hrun : sound (this (run calls w))).
  { revert w Hs. unfold run.
    induction calls as [| c calls IH]; intros w Hs; [exact Hs |].
    simpl. apply IH. now apply sound_call. }
  pose proof Hrun as [Hbuilt [theme Hcur]].
  split; [exact Hrun |].
  rewrite !Hbuilt by reflexivity.
  do 4 (split; [reflexivity |]).
  split.
  - unfold getCurrentTheme. run_eff. rewrite Hcur.
    eexists. split; [reflexivity |]. split; [reflexivity |].
    destruct theme; reflexivity.
  - exists theme. split; [exact Hcur |].
    unfold exportTheme. run_eff. now rewrite Hcur.
Qed.

(** *** Custom themes *)

Lemma not_builtin_cafe n : builtin n = false -> n <> "cafe".
Proof. intros Hb ->. discriminate. Qed.

(** X21: registering a theme and removing it again.  For a name that
    is not registered, not built in, not the current theme and not the
    name of a property that every object inherits ([toString],
    [constructor], ...), [addCustomTheme] returns [true] and registers
    under that name a theme with the colours given, every other name
    being looked up as before; [removeCustomTheme] of the name then
    returns [true] and leaves everything exactly as it was before the
    two calls. *)
Theorem add_then_remove :
  forall (w : World) (n : string) (cs : list (string * string)),
    inherited n = false ->
    builtin n = false ->
    themes (this w) !! n = None ->
    currentTheme (this w) <> n ->
    let w1 := snd (addCustomTheme n cs w) in
    fst (addCustomTheme n cs w) = Normal true
    /\ (exists d, themes (this w1) !! n = Some d /\ colors d = cs)
    /\ (forall m, m <> n -> themes (this w1) !! m = themes (this w) !! m)
    /\ removeCustomTheme css_value n w1 = (Normal true, w).
Proof.
  intros w n cs _ Hb Hreg Hcur. cbv zeta.
  rewrite (addCustomTheme_fresh n cs w Hreg). cbn [fst snd]. flatten_world.
  split; [reflexivity |].
  split; [eexists; split; [apply lookup_insert_eq | reflexivity] |].
  split; [intros m Hm; apply lookup_insert_ne; congruence |].
  erewrite removeCustomTheme_registered;
    [| exact Hb | flatten_world; apply lookup_insert_eq].
  cbv zeta. flatten_world.
  destruct (String.eqb_spec (currentTheme (this w)) n) as [Heq | _];
    [contradiction |].
  rewrite delete_insert_eq, (delete_id _ _ Hreg).
  destruct w as [[th cur pref] rs bc sel st refuses ev co]. reflexivity.
Qed.

(** X22: removing a custom theme.  [removeCustomTheme] of a registered
    name that is not built in returns [true] and takes the name out of
    the registry.  If the theme was the current one, [cafe] is applied:
    it becomes current, its colours are written, the event is dispatched
    and [cafe] is stored; otherwise nothing but the registry changes. *)
Theorem removing_the_current_theme_falls_back :
  forall (w : World) (n : string) (d theme : ThemeDef),
    builtin n = false ->
    themes (this w) !! n = Some d ->
    themes (this w) !! "cafe" = Some theme ->
    let w' := snd (removeCustomTheme css_value n w) in
    fst (removeCustomTheme css_value n w) = Normal true
    /\ themes (this w') = delete n (themes (this w))
    /\ themes (this w') !! n = None
    /\ if String.eqb (currentTheme (this w)) n then
         currentTheme (this w') = "cafe"
         /\ root_style w'
            = apply_colors css_value (colors theme) (root_style w)
         /\ events w' = (events w ++ [themeChanged "cafe" (colors theme)])%list
         /\ storage w' = if storage_refuses w then storage w else Some "cafe"
       else
         w' = with_this (with_themes (delete n (themes (this w))) (this w)) w.
Proof.
  intros w n d theme Hb Hreg Hcafe. cbv zeta.
  rewrite (removeCustomTheme_registered n d w Hb Hreg). cbv zeta.
  destruct (String.eqb (currentTheme (this w)) n).
  - set (w1 := with_this (with_themes (delete n (themes (this w))) (this w)) w).
    assert (Hcafe1 : themes (this w1) !! "cafe" = Some theme).
    { unfold w1. flatten_world. rewrite lookup_delete_ne; [exact Hcafe |].
      apply not_builtin_cafe in Hb. congruence. }
    destruct (applyTheme_registered css_value "cafe" theme w1 Hcafe1 eq_refl)
      as (w2 & Hrun & Hthis & Hstyle & Hev & _ & Hst).
    rewrite (bind_normal _ _ _ _ _ Hrun). unfold ret. cbn [fst snd].
    rewrite Hthis, Hstyle, Hev, Hst. unfold w1. flatten_world.
    split; [reflexivity |]. split; [reflexivity |].
    split; [apply lookup_delete_eq |]. auto.
  - cbn [fst snd]. flatten_world.
    split; [reflexivity |]. split; [reflexivity |].
    split; [apply lookup_delete_eq | reflexivity].
Qed.

(** X23: what an import does, the name imported not being the name of
    a property that every object inherits ([toString], [constructor],
    ...).  [importTheme] never throws and never replaces a registered
    theme: importing under a registered name applies the theme that is
    there, not the colours imported.  Without a name, with the empty name
    or without colours it returns [false] after one error line and
    changes nothing else.  Otherwise the theme is registered with the
    colours imported (if the name was free) and becomes the current one;
    the call returns [true] with the event dispatched, unless the name
    has white space in it: then it returns [false] with the theme
    registered and current all the same, nothing stored and no event. *)
Theorem importTheme_outcome :
  forall (w : World) (themeData : ThemeData.t),
    (forall n, ThemeData.name themeData = Some n -> inherited n = false) ->
    let w' := snd (importTheme css_value themeData w) in
    (forall m d, themes (this w) !! m = Some d ->
                 themes (this w') !! m = Some d)
    /\ match valid themeData with
       | None =>
           importTheme css_value themeData w
           = (Normal false,
              with_console
                (ErrorLog "Failed to import theme:" (Some invalid_format)) w)
       | Some n =>
           fst (importTheme css_value themeData w)
           = Normal (negb (has_space n))
           /\ currentTheme (this w') = n
           /\ (themes (this w) !! n = None ->
               exists d,
                 themes (this w') !! n = Some d
                 /\ Some (colors d) = ThemeData.colors themeData)
           /\ exists theme,
               themes (this w') !! n = Some theme
               /\ if has_space n then
                    events w' = events w /\ storage w' = storage w
                  else
                    events w'
                    = (events w ++ [themeChanged n (colors theme)])%list
                    /\ storage w'
                       = if storage_refuses w then storage w else Some n
       end.
Proof.
  intros w themeData _. cbv zeta.
  destruct (valid themeData) as [n |] eqn:Hv.
  2: { rewrite (importTheme_invalid themeData w Hv). cbn [snd]. auto. }
  rewrite (importTheme_valid themeData n w Hv). cbv zeta.
  set (cs := default [] (ThemeData.colors themeData)).
  set (w1 := snd (addCustomTheme n cs w)).
  assert (H1 : (forall m d, themes (this w) !! m = Some d ->
                            themes (this w1) !! m = Some d)
               /\ (exists theme, themes (this w1) !! n = Some theme)
               /\ (themes (this w) !! n = None ->
                   themes (this w1) !! n
                   = Some {| name := capitalize n; colors := cs |})
               /\ events w1 = events w /\ storage w1 = storage w
               /\ storage_refuses w1 = storage_refuses w).
  { unfold w1. destruct (themes (this w) !! n) as [d |] eqn:Hreg.
    - rewrite (addCustomTheme_exists n cs d w Hreg). cbn [snd]. flatten_world.
      split; [auto |]. split; [eauto |]. split; [discriminate | auto].
    - rewrite (addCustomTheme_fresh n cs w Hreg). cbn [snd]. flatten_world.
      split.
      { intros m d Hm. rewrite lookup_insert_ne; [exact Hm | congruence]. }
      split; [eexists; apply lookup_insert_eq |].
      split; [intros _; apply lookup_insert_eq | auto]. }
  destruct H1 as (Hkeep & [theme Hn] & Hfresh & Hev1 & Hst1 & Href1).
  assert (Hcs : Some cs = ThemeData.colors themeData).
  { unfold cs. unfold valid in Hv.
    destruct (ThemeData.name themeData); [| discriminate].
    destruct (ThemeData.colors themeData); [reflexivity | discriminate]. }
  assert (Hnew : themes (this w) !! n = None ->
                 exists d, themes (this w1) !! n = Some d
                           /\ Some (colors d) = ThemeData.colors themeData).
  { intros Hfree. eexists. split; [exact (Hfresh Hfree) | exact Hcs]. }
  clearbody w1.
  destruct (has_space n) eqn:Hsp.
  - rewrite (applyTheme_spaced n theme w1 Hn Hsp). cbn [fst snd].
    flatten_world.
    split; [exact Hkeep |]. split; [reflexivity |]. split; [reflexivity |].
    split; [exact Hnew |]. exists theme. auto.
  - destruct (applyTheme_registered css_value n theme w1 Hn Hsp)
      as (w2 & Hrun & Hthis & _ & Hev & _ & Hst).
    rewrite Hrun. cbn [fst snd]. rewrite Hthis, Hev, Hst. flatten_world.
    split; [exact Hkeep |]. split; [reflexivity |]. split; [reflexivity |].
    split; [exact Hnew |]. exists theme. rewrite Hev1, Hst1, Href1. auto.
Qed.

(** *** Start-up and the system preference *)

(** The preference [detectSystemPreference] records. *)
Definition preference (media : option bool) : string :=
  if default false media then "dark" else "light".

(** The theme [loadSavedTheme] makes current. *)
Definition chosen (t : ThemeManager) (denied : option JsError)
    (saved : option string) : string :=
  let auto :=
    if String.eqb (systemPreference t) "dark" then "dark"
    else currentTheme t in
  match denied, saved with
  | None, Some s =>
      if truthy_string s
         && match themes t !! s with Some _ => true | None => false end
      then s else auto
  | None, None => auto
  | Some _, _ => currentTheme t
  end.

Lemma loadSavedTheme_eq denied w :
  loadSavedTheme denied w
  = (Normal tt,
     let w1 := with_this (with_current (chosen (this w) denied (storage w))
                                       (this w)) w in
     match denied with
     | Some e => with_console (Warn "Failed to load saved theme:" (Some e)) w1
     | None => w1
     end).
Proof.
  unfold loadSavedTheme, getItem, chosen, set_currentTheme, set_this,
    console_log.
  destruct w as [[th cur pref] rs bc sel st refuses ev co].
  destruct denied as [e |]; [reflexivity |].
  cbv [bind gets modify ret try_catch]. flatten_world.
  destruct st as [s |]; cbn [default].
  - destruct (truthy_string s && match th !! s with
                                 | Some _ => true
                                 | None => false
                                 end); [reflexivity |].
    destruct (String.eqb pref "dark"); reflexivity.
  - cbv beta iota. destruct (String.eqb pref "dark"); reflexivity.
Qed.

Lemma init_eq media denied w :
  init css_value media denied w
  = let t1 := with_preference (preference media) (this w) in
    let c := chosen t1 denied (storage w) in
    let w2 := with_this (with_current c t1) w in
    applyTheme css_value c
      match denied with
      | Some e => with_console (Warn "Failed to load saved theme:" (Some e)) w2
      | None => w2
      end.
Proof.
  unfold init, detectSystemPreference, set_systemPreference, set_this.
  cbv [bind modify gets]. rewrite loadSavedTheme_eq. cbv zeta.
  flatten_world. destruct denied as [e |]; reflexivity.
Qed.

Lemma constructor_lookup s :
  match themes constructor !! s with Some _ => true | None => false end
  = builtin s.
Proof.
  destruct (builtin s) eqn:Hb.
  - destruct (builtin_registered s Hb) as [x ->]. reflexivity.
  - unfold constructor. cbn [themes].
    rewrite !lookup_insert_ne, lookup_empty;
      [reflexivity | ..]; intros <-; discriminate.
Qed.

Lemma builtin_plain s :
  builtin s = true -> truthy_string s = true /\ has_space s = false.
Proof.
  intros Hb. apply builtin_iff in Hb.
  destruct Hb as [<- | [<- | [<- | [<- | []]]]]; split; reflexivity.
Qed.

(** The theme a page starts with: the saved one if the storage can be
    read and the name is the one of a built-in theme; else, if the storage
    can be read, [dark] or [cafe] by the system preference; [cafe] if the
    storage cannot be read. *)
Definition starts_with (media : option bool) (denied : option JsError)
    (saved : option string) : string :=
  let auto := if default false media then "dark" else "cafe" in
  match denied, saved with
  | Some _, _ => "cafe"
  | None, Some s => if builtin s then s else auto
  | None, None => auto
  end.

Lemma starts_with_builtin media denied saved :
  builtin (starts_with media denied saved) = true.
Proof.
  unfold starts_with.
  destruct denied; [reflexivity |].
  destruct saved as [s |]; [| destruct (default false media); reflexivity].
  destruct (builtin s) eqn:Hb; [exact Hb |].
  destruct (default false media); reflexivity.
Qed.

Lemma chosen_constructor media denied saved :
  chosen (with_preference (preference media) constructor) denied saved
  = starts_with media denied saved.
Proof.
  unfold chosen, starts_with, preference.
  cbn [with_preference themes systemPreference currentTheme].
  destruct denied as [e |]; [reflexivity |].
  destruct saved as [s |].
  - rewrite constructor_lookup.
    destruct (builtin s) eqn:Hb.
    + destruct (builtin_plain s Hb) as [-> _]. reflexivity.
    + rewrite andb_false_r. destruct (default false media); reflexivity.
  - destruct (default false media); reflexivity.
Qed.

(** The state in which a newly built object starts [init]. *)
Lemma init_constructor media denied w :
  this w = constructor ->
  let c := starts_with media denied (storage w) in
  exists theme w',
    init css_value media denied w = (Normal tt, w')
    /\ themes constructor !! c = Some theme
    /\ this w'
       = {| themes := themes constructor; currentTheme := c;
            systemPreference := preference media |}
    /\ root_style w' = apply_colors css_value (colors theme) (root_style w)
    /\ events w' = (events w ++ [themeChanged c (colors theme)])%list
    /\ storage_refuses w' = storage_refuses w
    /\ storage w' = if storage_refuses w then storage w else Some c.
Proof.
  intros Hthis. cbv zeta. rewrite init_eq. cbv zeta. rewrite Hthis.
  rewrite chosen_constructor.
  set (c := starts_with media denied (storage w)).
  pose proof (starts_with_builtin media denied (storage w)) as Hb.
  fold c in Hb.
  destruct (builtin_registered c Hb) as [theme Hreg].
  destruct (builtin_plain c Hb) as [_ Hsp].
  exists theme.
  match goal with
  | |- context [applyTheme css_value c ?w0] =>
      destruct (applyTheme_registered css_value c theme w0) as
        (w' & Hrun & Ht & Hstyle & Hev & Href & Hst);
      [destruct denied; exact Hreg | exact Hsp |]
  end.
  exists w'. rewrite Hrun, Ht, Hstyle, Hev, Href, Hst.
  split; [reflexivity |]. split; [exact Hreg |].
  destruct denied; flatten_world; repeat split; reflexivity.
Qed.

(** X24: the theme a page starts with.  [init], run on the object as
    the constructor builds it and with a storage that does not hold the
    name of a property that every object inherits ([toString],
    [constructor], ...), returns.  The current theme is then the
    saved one if the storage can be read and holds the name of a
    built-in theme; else, if the storage can be read, [dark] or [cafe]
    by what the system prefers; and [cafe] if reading the storage
    throws, whatever the system prefers.  The colours of that theme are
    written, one event is dispatched for it, and its name is stored
    unless the storage refuses the write. *)
Theorem init_chooses :
  forall (w : World) (media : option bool) (denied : option JsError),
    this w = constructor ->
    (forall s, storage w = Some s -> inherited s = false) ->
    let c := starts_with media denied (storage w) in
    let w' := snd (init css_value media denied w) in
    fst (init css_value media denied w) = Normal tt
    /\ In c ["cafe"; "dark"; "ocean"; "forest"]
    /\ currentTheme (this w') = c
    /\ themes (this w') = themes constructor
    /\ systemPreference (this w')
       = (if default false media then "dark" else "light")
    /\ exists theme,
        themes constructor !! c = Some theme
        /\ root_style w'
           = apply_colors css_value (colors theme) (root_style w)
        /\ events w' = (events w ++ [themeChanged c (colors theme)])%list
        /\ storage w' = if storage_refuses w then storage w else Some c.
Proof.
  intros w media denied Hthis _. cbv zeta.
  destruct (init_constructor media denied w Hthis)
    as (theme & w' & Hrun & Hreg & Ht & Hstyle & Hev & _ & Hst).
  rewrite Hrun. cbn [fst snd]. rewrite Ht. flatten_world.
  split; [reflexivity |].
  split; [apply builtin_iff, starts_with_builtin |].
  do 3 (split; [reflexivity |]).
  exists theme. auto.
Qed.

(** X25: a choice made by hand wins over the system.  Once
    [applyTheme] of a registered name (not empty, without white space)
    has returned and the storage has taken the name, a change of the
    system preference is recorded and nothing else happens: the current
    theme, the page, the storage and the events stay as they are. *)
Theorem manual_choice_wins :
  forall (w : World) (n : string) (theme : ThemeDef) (matches : bool),
    themes (this w) !! n = Some theme ->
    has_space n = false ->
    truthy_string n = true ->
    storage_refuses w = false ->
    let w1 := snd (applyTheme css_value n w) in
    storage w1 = Some n
    /\ on_preference_change css_value None matches w1
       = (Normal tt,
          with_this
            (with_preference (if matches then "dark" else "light") (this w1))
            w1).
Proof.
  intros w n theme matches Hreg Hsp Hn Href. cbv zeta.
  destruct (applyTheme_registered css_value n theme w Hreg Hsp)
    as (w1 & Hrun & _ & _ & _ & _ & Hst).
  rewrite Hrun. cbn [snd]. rewrite Href in Hst.
  split; [exact Hst |].
  rewrite on_preference_change_eq. cbv zeta. rewrite Hst.
  cbn [truthy_ostring]. now rewrite Hn.
Qed.

(** X26: the system preference is followed once.  With nothing stored,
    a storage that takes writes and [dark] and [cafe] registered, the
    first change of the system preference applies [dark] or [cafe] and
    stores its name; so the next change, whatever it is, is recorded and
    changes nothing else.  When the storage refuses every write, each
    change is followed. *)
Theorem preference_is_followed_once :
  forall (w : World) (first second : bool),
    sound (this w) ->
    truthy_ostring (storage w) = false ->
    let auto (matches : bool) := if matches then "dark" else "cafe" in
    let w1 := snd (on_preference_change css_value None first w) in
    let w2 := snd (on_preference_change css_value None second w1) in
    fst (on_preference_change css_value None first w) = Normal tt
    /\ currentTheme (this w1) = auto first
    /\ fst (on_preference_change css_value None second w1) = Normal tt
    /\ if storage_refuses w then currentTheme (this w2) = auto second
       else
         storage w1 = Some (auto first)
         /\ w2 = with_this
                   (with_preference (if second then "dark" else "light")
                                    (this w1))
                   w1.
Proof.
  intros w first second Hs Hst. cbv zeta.
  assert (Hstep : forall w0 (matches : bool),
            sound (this w0) -> truthy_ostring (storage w0) = false ->
            exists w',
              on_preference_change css_value None matches w0 = (Normal tt, w')
              /\ sound (this w')
              /\ currentTheme (this w') = (if matches then "dark" else "cafe")
              /\ storage_refuses w' = storage_refuses w0
              /\ storage w'
                 = if storage_refuses w0 then storage w0
                   else Some (if matches then "dark" else "cafe")).
  { intros w0 matches Hs0 Hst0.
    pose proof (sound_on_preference_change None matches w0 Hs0) as Hs'.
    rewrite on_preference_change_eq in *. cbv zeta in *. rewrite Hst0 in *.
    set (w1 := with_this _ w0) in *.
    set (n := if matches then "dark" else "cafe") in *.
    assert (Hb : builtin n = true) by (unfold n; destruct matches; reflexivity).
    destruct (sound_builtin (this w0) n Hs0 Hb) as [theme Hreg].
    destruct (builtin_plain n Hb) as [_ Hsp].
    destruct (applyTheme_registered css_value n theme w1 Hreg Hsp)
      as (w' & Hrun & Ht & _ & _ & Href & Hst').
    exists w'. rewrite Hrun in *. cbn [snd] in Hs'.
    split; [reflexivity |]. split; [exact Hs' |].
    rewrite Ht. auto. }
  destruct (Hstep w first Hs Hst) as (w1 & Hrun1 & Hs1 & Hc1 & Href1 & Hst1).
  rewrite Hrun1. cbn [fst snd].
  split; [reflexivity |]. split; [exact Hc1 |].
  destruct (storage_refuses w) eqn:Href.
  - assert (Hst1' : truthy_ostring (storage w1) = false) by now rewrite Hst1.
    destruct (Hstep w1 second Hs1 Hst1') as (w2 & Hrun2 & _ & Hc2 & _).
    rewrite Hrun2. cbn [fst snd]. auto.
  - rewrite on_preference_change_eq. cbv zeta. rewrite Hst1.
    assert (Ht : truthy_ostring (Some (if first then "dark" else "cafe"))
                 = true) by (destruct first; reflexivity).
    rewrite Ht. cbn [fst snd]. auto.
Qed.

(** *** Rotation *)

Lemma indexOf_nth x : forall themeNames i j,
  List.NoDup themeNames ->
  nth_error themeNames i = Some x ->
  indexOf x themeNames j = j + Z.of_nat i.
Proof.
  induction themeNames as [| y rest IH]; intros i j Hnd Hi.
  - destruct i; discriminate.
  - inversion Hnd as [| ? ? Hy Hrest]; subst. destruct i as [| i]; simpl in *.
    + injection Hi as ->. rewrite String.eqb_refl. lia.
    + destruct (String.eqb_spec y x) as [-> | _].
      * exfalso. apply Hy. eapply nth_error_In; eauto.
      * rewrite (IH i (j + 1) Hrest Hi). lia.
Qed.

Lemma successor_nth themeNames i x :
  List.NoDup themeNames ->
  nth_error themeNames i = Some x ->
  nth_error themeNames (S i mod length themeNames)
  = Some (successor themeNames x).
Proof.
  intros Hnd Hi.
  assert (Hlen : (i < length themeNames)%nat)
    by (apply nth_error_Some; congruence).
  unfold successor. destruct themeNames as [| y rest] eqn:E; [simpl in Hlen; lia |].
  rewrite <- E in *. rewrite (indexOf_nth x themeNames i 0 Hnd Hi).
  replace (0 + Z.of_nat i + 1) with (Z.of_nat (S i)) by lia.
  rewrite <- Nat2Z.inj_mod, Nat2Z.id.
  apply nth_error_nth'. apply Nat.mod_upper_bound. lia.
Qed.

(** X27: [switchTheme] goes round the themes.  When the names listed
    are pairwise distinct, all registered and without white space, and
    the current theme is the one at place [i], then after [k] calls of
    [switchTheme] the current theme is the one at place [i + k], counted
    round the list; after as many calls as there are names it is the
    theme it was.  Each call returns. *)
Theorem switchTheme_goes_round :
  forall (themeNames : list string) (w : World) (i k : nat),
    List.NoDup themeNames ->
    (forall n, In n themeNames ->
               is_Some (themes (this w) !! n) /\ has_space n = false) ->
    nth_error themeNames i = Some (currentTheme (this w)) ->
    let switch (w : World) := snd (switchTheme css_value themeNames w) in
    nth_error themeNames ((i + k) mod length themeNames)
    = Some (currentTheme (this (Nat.iter k switch w)))
    /\ themes (this (Nat.iter k switch w)) = themes (this w)
    /\ fst (switchTheme css_value themeNames (Nat.iter k switch w)) = Normal tt
    /\ currentTheme (this (Nat.iter (length themeNames) switch w))
       = currentTheme (this w).
Proof.
  intros themeNames w i k Hnd Hreg Hi. cbv zeta.
  set (switch := fun w => snd (switchTheme css_value themeNames w)).
  assert (Hlen : (i < length themeNames)%nat)
    by (apply nth_error_Some; congruence).
  assert (Hiter : forall j,
            nth_error themeNames ((i + j) mod length themeNames)
            = Some (currentTheme (this (Nat.iter j switch w)))
            /\ themes (this (Nat.iter j switch w)) = themes (this w)).
  { induction j as [| j [IHc IHt]].
    - simpl. rewrite Nat.add_0_r, Nat.mod_small by exact Hlen. auto.
    - rewrite !Nat.iter_succ.
      set (wj := Nat.iter j switch w) in *. unfold switch.
      rewrite switchTheme_eq, applyTheme_this.
      pose proof (successor_nth themeNames _ _ Hnd IHc) as Hnext.
      destruct (Hreg _ (nth_error_In _ _ Hnext)) as [[theme Hs] _].
      rewrite IHt, Hs. flatten_world. split; [| exact IHt].
      rewrite <- Hnext. f_equal.
      replace (S ((i + j) mod length themeNames))
        with (1 + (i + j) mod length themeNames)%nat by lia.
      rewrite Nat.Div0.add_mod_idemp_r. f_equal. lia. }
  destruct (Hiter k) as [Hc Ht].
  split; [exact Hc |]. split; [exact Ht |]. split.
  - rewrite switchTheme_eq, applyTheme_completion.
    pose proof (successor_nth themeNames _ _ Hnd Hc) as Hnext.
    destruct (Hreg _ (nth_error_In _ _ Hnext)) as [[theme Hs] Hsp].
    now rewrite Ht, Hs, Hsp.
  - destruct (Hiter (length themeNames)) as [Hc' _].
    replace ((i + length themeNames) mod length themeNames)%nat with i in Hc'.
    + congruence.
    + rewrite <- Nat.Div0.add_mod_idemp_r, Nat.Div0.mod_same, Nat.add_0_r.
      symmetry. now apply Nat.mod_small.
Qed.

(** X28: which choice survives a reload.  After [applyTheme] of a
    registered name without white space has returned and the storage has
    taken the name, a page built anew on that storage starts with that
    theme if it is a built-in one, whatever the system prefers;
    a custom theme is not known to the new page, which starts with
    [dark] or [cafe] by the system preference. *)
Theorem choice_survives_reload :
  forall (w : World) (n : string) (theme : ThemeDef)
         (reloaded : World) (media : option bool),
    themes (this w) !! n = Some theme ->
    has_space n = false ->
    inherited n = false ->
    storage_refuses w = false ->
    this reloaded = constructor ->
    storage reloaded = storage (snd (applyTheme css_value n w)) ->
    let w' := snd (init css_value media None reloaded) in
    fst (init css_value media None reloaded) = Normal tt
    /\ currentTheme (this w')
       = if builtin n then n
         else if default false media then "dark" else "cafe".
Proof.
  intros w n theme reloaded media Hreg Hsp _ Href Hthis Hst. cbv zeta.
  destruct (applyTheme_registered css_value n theme w Hreg Hsp)
    as (w1 & Hrun & _ & _ & _ & _ & Hst1).
  rewrite Hrun in Hst. cbn [snd] in Hst. rewrite Href in Hst1.
  destruct (init_constructor media None reloaded Hthis)
    as (theme' & w' & Hinit & _ & Ht & _).
  rewrite Hinit. cbn [fst snd]. rewrite Ht. flatten_world.
  split; [reflexivity |]. now rewrite Hst, Hst1.
Qed.

End WithBrowser.

Lemma applyTheme_footprint_witness :
  currentTheme (this (snd (applyTheme keeps "ocean" start))) = "ocean"
  /\ root_style (snd (applyTheme keeps "ocean" start)) !! "--font"
     = root_style start !! "--font".
Proof.
  pose proof (applyTheme_footprint keeps start "ocean" eq_refl) as H.
  cbv zeta in H. destruct H as (_ & _ & H).
  change (themes (this start) !! "ocean") with (Some ocean) in H.
  destruct H as (Hc & Hp & _). split; [exact Hc |].
  apply Hp. vm_compute. intuition discriminate.
Defined.

(** A custom theme for the concrete cases, and the page with it as the
    current theme. *)
Definition rose : list (string * string) :=
  [("text-primary", "#c2185b"); ("accent-primary", "#f06292")].

Definition rose_page : World :=
  {| this := {| themes := <["rose" := {| name := "Rose"; colors := rose |}]>
                            (themes constructor);
                currentTheme := "rose"; systemPreference := "light" |};
     root_style := ∅; body_className := "theme-rose";
     selector := []; storage := Some "rose"; storage_refuses := false;
     events := []; console := [] |}.

(** The page of a visitor who had chosen [ocean]. *)
Definition returning : World :=
  {| this := constructor; root_style := ∅; body_className := "";
     selector := []; storage := Some "ocean"; storage_refuses := false;
     events := []; console := [] |}.

Lemma sound_start : sound (this start).
Proof. split; [intros b _; reflexivity | eexists; reflexivity]. Defined.

Lemma current_theme_stays_registered_witness :
  let w' := run keeps [AddCustomTheme "rose" rose; ApplyTheme "rose";
                       RemoveCustomTheme "rose"; ApplyTheme "rose"] start in
  themes (this w') !! "cafe" = Some cafe
  /\ exists info, getCurrentTheme w' = (Normal info, w').
Proof.
  pose proof (current_theme_stays_registered keeps
                [AddCustomTheme "rose" rose; ApplyTheme "rose";
                 RemoveCustomTheme "rose"; ApplyTheme "rose"]
                start 0 sound_start eq_refl) as H.
  cbv zeta in *. destruct H as (_ & Hcafe & _ & _ & _ & Hinfo & _).
  split; [exact Hcafe |].
  destruct Hinfo as (info & Hi & _). exists info. exact Hi.
Defined.

Lemma add_then_remove_witness :
  removeCustomTheme keeps "rose" (snd (addCustomTheme "rose" rose start))
  = (Normal true, start).
Proof.
  pose proof (add_then_remove keeps start "rose" rose eq_refl eq_refl eq_refl
                ltac:(discriminate)) as H.
  cbv zeta in H. exact (proj2 (proj2 (proj2 H))).
Defined.

Lemma removing_the_current_theme_falls_back_witness :
  let w' := snd (removeCustomTheme keeps "rose" rose_page) in
  themes (this w') !! "rose" = None /\ currentTheme (this w') = "cafe".
Proof.
  pose proof (removing_the_current_theme_falls_back keeps rose_page "rose"
                {| name := "Rose"; colors := rose |} cafe
                eq_refl eq_refl eq_refl) as H.
  cbv zeta in *. destruct H as (_ & _ & Hgone & Hcur).
  split; [exact Hgone |].
  change (String.eqb (currentTheme (this rose_page)) "rose") with true in Hcur.
  exact (proj1 Hcur).
Defined.

Lemma importTheme_outcome_witness :
  let themeData := {| ThemeData.name := Some "my rose";
                      ThemeData.colors := Some rose;
                      ThemeData.timestamp := None |} in
  let w' := snd (importTheme keeps themeData start) in
  fst (importTheme keeps themeData start) = Normal false
  /\ currentTheme (this w') = "my rose"
  /\ themes (this w') !! "cafe" = Some cafe.
Proof.
  pose proof (importTheme_outcome keeps start
                {| ThemeData.name := Some "my rose";
                   ThemeData.colors := Some rose;
                   ThemeData.timestamp := None |}) as H.
  cbv zeta in *.
  destruct H as (Hkeep & Hr & Hcur & _).
  { intros n [= <-]. reflexivity. }
  split; [exact Hr |]. split; [exact Hcur |].
  apply Hkeep. reflexivity.
Defined.

Lemma init_chooses_witness :
  currentTheme (this (snd (init keeps (Some true) None returning))) = "ocean"
  /\ storage (snd (init keeps (Some true) None returning)) = Some "ocean".
Proof.
  pose proof (init_chooses keeps returning (Some true) None eq_refl) as H.
  cbv zeta in H.
  destruct H as (_ & _ & Hcur & _ & _ & theme & _ & _ & _ & Hst).
  { intros s [= <-]. reflexivity. }
  split; [exact Hcur | exact Hst].
Defined.

Lemma manual_choice_wins_witness :
  currentTheme
    (this (snd (on_preference_change keeps None true
                  (snd (applyTheme keeps "forest" start)))))
  = "forest".
Proof.
  pose proof (manual_choice_wins keeps start "forest" forest true
                eq_refl eq_refl eq_refl eq_refl) as H.
  cbv zeta in H. destruct H as [_ H]. rewrite H.
  vm_compute. reflexivity.
Defined.

Lemma preference_is_followed_once_witness :
  let w1 := snd (on_preference_change keeps None true start) in
  currentTheme (this w1) = "dark"
  /\ currentTheme (this (snd (on_preference_change keeps None false w1)))
     = "dark".
Proof.
  pose proof (preference_is_followed_once keeps start true false
                sound_start eq_refl) as H.
  cbv zeta in *. destruct H as (_ & Hc & _ & H).
  split; [exact Hc |].
  change (storage_refuses start) with false in H. cbv iota in H.
  destruct H as [_ ->]. exact Hc.
Defined.

Lemma switchTheme_goes_round_witness :
  let names := ["cafe"; "dark"; "ocean"; "forest"] in
  let switch (w : World) := snd (switchTheme keeps names w) in
  currentTheme (this (switch (switch (switch start)))) = "forest"
  /\ currentTheme (this (switch (switch (switch (switch start))))) = "cafe".
Proof.
  cbv zeta.
  assert (Hnd : List.NoDup ["cafe"; "dark"; "ocean"; "forest"]).
  { repeat apply List.NoDup_cons; try apply List.NoDup_nil; simpl;
      intuition discriminate. }
  assert (Hreg : forall n, In n ["cafe"; "dark"; "ocean"; "forest"] ->
            is_Some (themes (this start) !! n) /\ has_space n = false).
  { intros n [<- | [<- | [<- | [<- | []]]]]; split;
      try reflexivity; eexists; reflexivity. }
  pose proof (switchTheme_goes_round keeps ["cafe"; "dark"; "ocean"; "forest"]
                start 0 3 Hnd Hreg eq_refl) as H.
  cbv zeta in H. destruct H as (H3 & _ & _ & H4).
  split; [| exact H4].
  change (nth_error ["cafe"; "dark"; "ocean"; "forest"]
            ((0 + 3) mod length ["cafe"; "dark"; "ocean"; "forest"]))
    with (Some "forest") in H3.
  exact (eq_sym (f_equal (fun o : option string => default "" o) H3)).
Defined.

Lemma choice_survives_reload_witness :
  currentTheme (this (snd (init keeps (Some true) None returning))) = "ocean".
Proof.
  pose proof (choice_survives_reload keeps start "ocean" ocean returning
                (Some true) eq_refl eq_refl eq_refl eq_refl eq_refl) as H.
  cbv zeta in H. destruct H as [_ H]; [vm_compute; reflexivity |].
  exact H.
Defined.

End ThemeMore.
